(** * AGI jail lifecycle engine: a shallow embedding of [jail.hpp]

    The development follows the C++ class [JailManager]: its fields become a
    record, the host operating system becomes an explicit state (existing
    paths, kernel mount table, trace of system calls and log calls) driven by
    an oracle that decides how each system call answers, and every member
    function becomes a computation in a small state-and-exception monad.
    [std::lock_guard<std::mutex>] on a mutex the calling thread already holds
    is an outcome of its own ([Deadlock]).  [JailManagerPool] and the
    commands of [CliHandler] that drive the managers follow, over the pool's
    map, the same host and the console. *)

From Stdlib Require Import String Ascii List ZArith Bool Lia DecimalString Sorted.
Import ListNotations.
Open Scope string_scope.
Open Scope Z_scope.

(** ** Data model *)

(** [enum class JailStatus] *)
Inductive JailStatus : Type :=
  | STOPPED | STARTING | RUNNING | STOPPING | ERROR.

Definition JailStatus_eqb (a b : JailStatus) : bool :=
  match a, b with
  | STOPPED, STOPPED | STARTING, STARTING | RUNNING, RUNNING
  | STOPPING, STOPPING | ERROR, ERROR => true
  | _, _ => false
  end.

(** [struct MountInfo] *)
Record MountInfo : Type := mkMountInfo {
  source : string;
  target : string;
  type : string;
  options : string
}.

(** [struct SshConfig], [struct ResourceLimits], [struct EnvironmentConfig]
    (config.hpp), with the fields the jail engine reads. *)
Record SshConfig : Type := mkSshConfig {
  port : Z;
  listen_address : string;
  password_auth : bool;
  pubkey_auth : bool;
  max_auth_tries : Z;
  client_alive_interval : Z
}.

Record ResourceLimits : Type := mkResourceLimits {
  max_cpu_time : Z;
  max_memory : Z;
  max_file_size : Z;
  max_processes : Z;
  max_open_files : Z
}.

Record EnvironmentConfig : Type := mkEnvironmentConfig {
  name : string;
  root_path : string;
  ssh : SshConfig;
  limits : ResourceLimits
}.

(** The private fields of [class JailManager].  [logger_] records whether a
    logging callback is installed, [mutex_] whether the calling thread holds
    the (non-recursive) [std::mutex]. *)
Record Jail : Type := mkJail {
  config_ : EnvironmentConfig;
  jail_path_ : string;
  data_path_ : string;
  run_path_ : string;
  status_ : JailStatus;
  sshd_pid_ : Z;
  start_time_ : Z;
  active_mounts_ : list MountInfo;
  mutex_ : bool;
  logger_ : bool
}.

(** [struct JailRuntimeInfo] *)
Record JailRuntimeInfo : Type := mkJailRuntimeInfo {
  info_name : string;
  info_status : JailStatus;
  info_pid : Z;
  info_ssh_port : Z;
  info_ip_address : string;
  info_start_time : Z;
  info_mounts : list MountInfo;
  info_error_message : string
}.

(** ** The host *)

(** What a forked child goes on to do (the parent is the process modelled). *)
Inductive Child : Type :=
  | SshdChild (root : string)
  | ScriptChild (root script : string)
  | ShellChild (root command : string).

Inductive Rlimit : Type :=
  | RLIMIT_CPU | RLIMIT_AS | RLIMIT_FSIZE | RLIMIT_NPROC | RLIMIT_NOFILE.

(** System calls and [log] calls, in the order the manager issues them. *)
Inductive Event : Type :=
  | EvLog (level message : string)
  | EvMkdirs (dir : string)
  | EvRemoveAll (path : string)
  | EvWrite (path content : string)
  | EvChmod (path : string) (mode : Z)
  | EvMknod (path : string) (kind : ascii) (major minor : Z)
  | EvSetrlimit (resource : Rlimit) (cur max : Z)
  | EvMount (src tgt fstype : string) (flags : Z) (data : option string)
  | EvUmount (tgt : string)
  | EvSleepMs (ms : Z)
  | EvFork (child : Child) (result : Z)
  | EvKill (pid : Z) (sig : Z)
  | EvWaitpid (pid : Z).

(** Result of a system call that sets [errno]. *)
Inductive SysResult : Type :=
  | SysOk
  | SysErr (errno : Z).

Definition EBUSY : Z := 16.
Definition EINVAL : Z := 22.
Definition SIGTERM : Z := 15.
Definition MS_BIND : Z := 4096.

(** [waitpid] status as the macros [WIFEXITED] / [WEXITSTATUS] read it. *)
Inductive WaitStatus : Type :=
  | Exited (code : Z)
  | NotExited.

(** How the host answers.  [umount_rc t n] is the answer to the call of
    [umount(t)] made after [n] earlier calls on the same target; [fork_rc n]
    is what the parent gets from the call of [fork()] made after [n] earlier
    ones ([None] is -1, a child never sees this model). *)
Record Oracle : Type := mkOracle {
  exists_fails : string -> bool;
  mkdirs_fails : string -> bool;
  remove_fails : string -> bool;
  can_read : string -> bool;
  file_content : string -> string;
  can_write : string -> bool;
  mknod_ok : string -> bool;
  mount_ok : string -> bool;
  umount_rc : string -> nat -> SysResult;
  fork_rc : nat -> option positive;
  wait_status : Z -> WaitStatus;
  clock : nat -> Z
}.

(** Mutable host state. *)
Record Host : Type := mkHost {
  paths : list string;
  mounted : list string;
  trace : list Event
}.

Record State : Type := mkState {
  jail : Jail;
  host : Host
}.

(** ** Exceptions and the monad *)

Inductive ExnKind : Type :=
  | JailError | RuntimeError | FilesystemError.

Record Exn : Type := mkExn {
  kind : ExnKind;
  what : string
}.

Inductive Outcome (A : Type) : Type :=
  | Ret (a : A) (s : State)
  | Throw (e : Exn) (s : State)
  | Deadlock (s : State).
Arguments Ret {A} a s.
Arguments Throw {A} e s.
Arguments Deadlock {A} s.

Definition M (A : Type) : Type := State -> Outcome A.

Definition ret {A} (a : A) : M A := fun s => Ret a s.

Definition bind {A B} (m : M A) (k : A -> M B) : M B :=
  fun s =>
    match m s with
    | Ret a s' => k a s'
    | Throw e s' => Throw e s'
    | Deadlock s' => Deadlock s'
    end.

Definition throw {A} (e : Exn) : M A := fun s => Throw e s.

(** [try { body } catch (const std::exception& e) { handler }] *)
Definition try_catch {A} (body : M A) (handler : Exn -> M A) : M A :=
  fun s =>
    match body s with
    | Throw e s' => handler e s'
    | r => r
    end.

Declare Scope monad_scope.
Delimit Scope monad_scope with monad.
Notation "x <- m ;; k" := (bind m (fun x => k))
  (at level 61, m at next level, right associativity) : monad_scope.
Notation "m ;; k" := (bind m (fun _ => k))
  (at level 61, right associativity) : monad_scope.
Open Scope monad_scope.

(** [for (const auto& x : xs) body(x);] *)
Fixpoint for_each {A} (xs : list A) (body : A -> M unit) : M unit :=
  match xs with
  | [] => ret tt
  | x :: rest => body x ;; for_each rest body
  end.

Definition final_state {A} (r : Outcome A) : State :=
  match r with
  | Ret _ s | Throw _ s | Deadlock s => s
  end.

(** State accessors. *)
Definition set_jail (j : Jail) (s : State) : State := mkState j (host s).
Definition set_host (h : Host) (s : State) : State := mkState (jail s) h.

Definition with_status (st : JailStatus) (j : Jail) : Jail :=
  mkJail (config_ j) (jail_path_ j) (data_path_ j) (run_path_ j) st
         (sshd_pid_ j) (start_time_ j) (active_mounts_ j) (mutex_ j) (logger_ j).
Definition with_pid (p : Z) (j : Jail) : Jail :=
  mkJail (config_ j) (jail_path_ j) (data_path_ j) (run_path_ j) (status_ j)
         p (start_time_ j) (active_mounts_ j) (mutex_ j) (logger_ j).
Definition with_start_time (t : Z) (j : Jail) : Jail :=
  mkJail (config_ j) (jail_path_ j) (data_path_ j) (run_path_ j) (status_ j)
         (sshd_pid_ j) t (active_mounts_ j) (mutex_ j) (logger_ j).
Definition with_mounts (ms : list MountInfo) (j : Jail) : Jail :=
  mkJail (config_ j) (jail_path_ j) (data_path_ j) (run_path_ j) (status_ j)
         (sshd_pid_ j) (start_time_ j) ms (mutex_ j) (logger_ j).
Definition with_mutex (b : bool) (j : Jail) : Jail :=
  mkJail (config_ j) (jail_path_ j) (data_path_ j) (run_path_ j) (status_ j)
         (sshd_pid_ j) (start_time_ j) (active_mounts_ j) b (logger_ j).
Definition with_logger (b : bool) (j : Jail) : Jail :=
  mkJail (config_ j) (jail_path_ j) (data_path_ j) (run_path_ j) (status_ j)
         (sshd_pid_ j) (start_time_ j) (active_mounts_ j) (mutex_ j) b.

Definition get_jail : M Jail := fun s => Ret (jail s) s.
Definition modify_jail (f : Jail -> Jail) : M unit :=
  fun s => Ret tt (set_jail (f (jail s)) s).
Definition modify_host (f : Host -> Host) : M unit :=
  fun s => Ret tt (set_host (f (host s)) s).

Definition add_event (e : Event) (h : Host) : Host :=
  mkHost (paths h) (mounted h) (trace h ++ [e]).
Definition emit (e : Event) : M unit := modify_host (add_event e).

(** [std::lock_guard<std::mutex> lock(mutex_);] around the rest of the
    function body.  [std::mutex] is not recursive: locking it again on the
    thread that owns it is undefined behaviour, which the usual
    implementations realise as a self-deadlock; the model gives it the
    outcome [Deadlock], from which nothing follows.  The guard releases on
    every exit, normal or exceptional. *)
Definition lock_guard {A} (body : M A) : M A :=
  fun s =>
    if mutex_ (jail s) then Deadlock s
    else
      match body (set_jail (with_mutex true (jail s)) s) with
      | Ret a s' => Ret a (set_jail (with_mutex false (jail s')) s')
      | Throw e s' => Throw e (set_jail (with_mutex false (jail s')) s')
      | Deadlock s' => Deadlock s'
      end.

(** ** Strings and paths *)

Definition to_string (z : Z) : string := NilZero.string_of_int (Z.to_int z).

Definition nl : string := String (ascii_of_nat 10) EmptyString.
Definition dquote : string := String (ascii_of_nat 34) EmptyString.
Definition slash : ascii := ascii_of_nat 47.

Definition mem_path (p : string) (ps : list string) : bool :=
  existsb (String.eqb p) ps.

Definition add_path (p : string) (ps : list string) : list string :=
  if mem_path p ps then ps else ps ++ [p].

(** [p] is [root] or lies below it. *)
Definition under (root p : string) : bool :=
  String.eqb root p || prefix (root ++ "/") p.

(** [s.find(needle) != std::string::npos] *)
Fixpoint string_contains (needle s : string) : bool :=
  prefix needle s ||
  match s with
  | EmptyString => false
  | String _ rest => string_contains needle rest
  end.

(** The loop of [PathUtils::normalize]: runs of slashes collapse to one. *)
Fixpoint normalize_loop (path : string) (lastWasSlash : bool) : string :=
  match path with
  | EmptyString => EmptyString
  | String c rest =>
      if Ascii.eqb c slash then
        if lastWasSlash then normalize_loop rest true
        else String c (normalize_loop rest true)
      else String c (normalize_loop rest false)
  end.

Fixpoint string_back (s : string) : option ascii :=
  match s with
  | EmptyString => None
  | String c EmptyString => Some c
  | String _ rest => string_back rest
  end.

Fixpoint string_pop_back (s : string) : string :=
  match s with
  | EmptyString => EmptyString
  | String _ EmptyString => EmptyString
  | String c rest => String c (string_pop_back rest)
  end.

Module PathUtils.

Definition normalize (path : string) : string :=
  let result := normalize_loop path false in
  match string_back result with
  | Some c =>
      if Ascii.eqb c slash && (1 <? String.length result)%nat
      then string_pop_back result else result
  | None => result
  end.

(** [s.rfind('/')] *)
Fixpoint rfind_slash (s : string) : option nat :=
  match s with
  | EmptyString => None
  | String c rest =>
      match rfind_slash rest with
      | Some n => Some (S n)
      | None => if Ascii.eqb c slash then Some O else None
      end
  end.

Definition parent (path : string) : string :=
  let normalized := normalize path in
  match rfind_slash normalized with
  | None => "."
  | Some pos => substring 0 pos normalized
  end.

(** [PathUtils::filename] *)
Definition filename (path : string) : string :=
  let normalized := normalize path in
  match rfind_slash normalized with
  | None => normalized
  | Some pos =>
      substring (S pos) (String.length normalized - S pos) normalized
  end.

(** [PathUtils::isWithin]: [find(base) == 0] is a prefix test. *)
Definition isWithin (path base : string) : bool :=
  let normalizedPath := normalize path in
  let normalizedBase := normalize base in
  if prefix normalizedBase normalizedPath then
    if (String.length normalizedBase <? String.length normalizedPath)%nat then
      match String.get (String.length normalizedBase) normalizedPath with
      | Some c => Ascii.eqb c slash
      | None => false
      end
    else true
  else false.

End PathUtils.

(** The directories [std::filesystem::create_directories(p)] makes sure
    exist: every non-empty prefix of [p] that ends before a slash, then [p]. *)
Fixpoint path_chain (acc rest : string) : list string :=
  match rest with
  | EmptyString => [acc]
  | String c rest' =>
      (if Ascii.eqb c slash && negb (String.eqb acc "") then [acc] else [])
        ++ path_chain (acc ++ String c EmptyString) rest'
  end.

Definition fs_error (op path : string) : Exn :=
  mkExn FilesystemError ("filesystem error: " ++ op ++ ": " ++ path).

Fixpoint count_umounts (t : string) (tr : list Event) : nat :=
  match tr with
  | [] => O
  | EvUmount t' :: rest =>
      if String.eqb t t' then S (count_umounts t rest) else count_umounts t rest
  | _ :: rest => count_umounts t rest
  end.

Fixpoint count_forks (tr : list Event) : nat :=
  match tr with
  | [] => O
  | EvFork _ _ :: rest => S (count_forks rest)
  | _ :: rest => count_forks rest
  end.

(** Drop the most recent entry for [t] from the mount table. *)
Fixpoint remove_first (t : string) (l : list string) : list string :=
  match l with
  | [] => []
  | x :: rest => if String.eqb t x then rest else x :: remove_first t rest
  end.
Definition remove_last (t : string) (l : list string) : list string :=
  rev (remove_first t (rev l)).

Definition set_paths (ps : list string) (h : Host) : Host :=
  mkHost ps (mounted h) (trace h).
Definition set_mounted (ms : list string) (h : Host) : Host :=
  mkHost (paths h) ms (trace h).

(** ** System calls and library calls *)

Section Manager.

Variable o : Oracle.

(** [std::filesystem::exists(p)], the overload that throws
    [filesystem_error] when the underlying status call fails. *)
Definition fs_exists (p : string) : M bool :=
  fun s =>
    if exists_fails o p then Throw (fs_error "status" p) s
    else Ret (mem_path p (paths (host s))) s.

(** [std::filesystem::create_directories(p)] *)
Definition create_directories (p : string) : M unit :=
  fun s =>
    if mkdirs_fails o p then Throw (fs_error "create_directories" p) s
    else
      Ret tt (set_host
                (add_event (EvMkdirs p)
                   (set_paths (fold_left (fun ps d => add_path d ps)
                                         (path_chain "" p) (paths (host s)))
                              (host s))) s).

(** [std::filesystem::remove_all(p)] *)
Definition remove_all (p : string) : M unit :=
  fun s =>
    if remove_fails o p then
      Throw (fs_error "remove_all" p) (set_host (add_event (EvRemoveAll p) (host s)) s)
    else
      Ret tt (set_host
                (add_event (EvRemoveAll p)
                   (set_paths (filter (fun q => negb (under p q)) (paths (host s)))
                              (host s))) s).

(** [FileUtils::read]: throws [std::runtime_error] when the stream does not
    open. *)
Definition FileUtils_read (path : string) : M string :=
  fun s =>
    if mem_path path (paths (host s)) && can_read o path
    then Ret (file_content o path) s
    else Throw (mkExn RuntimeError ("Cannot open file: " ++ path)) s.

(** [FileUtils::write]: reports failure through its result. *)
Definition FileUtils_write (path content : string) : M bool :=
  fun s =>
    if can_write o path then
      Ret true (set_host
                  (add_event (EvWrite path content)
                     (set_paths (add_path path (paths (host s))) (host s))) s)
    else Ret false s.

Definition sys_chmod (path : string) (mode : Z) : M unit :=
  emit (EvChmod path mode).

Definition sys_mknod (path : string) (k : ascii) (major minor : Z) : M unit :=
  fun s =>
    let h := add_event (EvMknod path k major minor) (host s) in
    Ret tt (set_host (if mknod_ok o path
                      then set_paths (add_path path (paths h)) h else h) s).

Definition sys_setrlimit (r : Rlimit) (cur max : Z) : M unit :=
  emit (EvSetrlimit r cur max).

(** [mount(2)]: 0 on success, -1 otherwise. *)
Definition sys_mount (src tgt fstype : string) (flags : Z)
           (data : option string) : M Z :=
  fun s =>
    let h := add_event (EvMount src tgt fstype flags data) (host s) in
    if mount_ok o tgt
    then Ret 0 (set_host (set_mounted (mounted h ++ [tgt]) h) s)
    else Ret (-1) (set_host h s).

(** [umount(2)], with the [errno] it leaves. *)
Definition sys_umount (tgt : string) : M SysResult :=
  fun s =>
    let r := umount_rc o tgt (count_umounts tgt (trace (host s))) in
    let h := add_event (EvUmount tgt) (host s) in
    match r with
    | SysOk => Ret r (set_host (set_mounted (remove_last tgt (mounted h)) h) s)
    | SysErr _ => Ret r (set_host h s)
    end.

Definition sleep_ms (ms : Z) : M unit := emit (EvSleepMs ms).

(** [fork()] as the parent sees it. *)
Definition sys_fork (child : Child) : M Z :=
  fun s =>
    let pid := match fork_rc o (count_forks (trace (host s))) with
               | Some p => Z.pos p
               | None => -1
               end in
    Ret pid (set_host (add_event (EvFork child pid) (host s)) s).

Definition sys_kill (pid sig : Z) : M unit := emit (EvKill pid sig).

Definition sys_waitpid (pid : Z) : M WaitStatus :=
  fun s => Ret (wait_status o pid) (set_host (add_event (EvWaitpid pid) (host s)) s).

Definition now : M Z :=
  fun s => Ret (clock o (length (trace (host s)))) s.

(** ** [class JailManager] *)

(** The constructor. *)
Definition new_jail (config : EnvironmentConfig) : Jail :=
  let jail_path := "/var/lib/agi/jails/" ++ name config in
  mkJail config jail_path (jail_path ++ "/data") (jail_path ++ "/run")
         STOPPED (-1) 0 [] false false.

Definition setLogger (installed : bool) : M unit :=
  modify_jail (with_logger installed).

Definition log (level message : string) : M unit :=
  fun s =>
    if logger_ (jail s) then emit (EvLog level message) s else Ret tt s.

Definition createDirectoryStructure : M unit :=
  j <- get_jail ;;
  let dirs := [
    jail_path_ j;
    data_path_ j;
    run_path_ j;
    jail_path_ j ++ "/bin";
    jail_path_ j ++ "/sbin";
    jail_path_ j ++ "/usr";
    jail_path_ j ++ "/usr/bin";
    jail_path_ j ++ "/usr/sbin";
    jail_path_ j ++ "/lib";
    jail_path_ j ++ "/lib64";
    jail_path_ j ++ "/etc";
    jail_path_ j ++ "/home";
    jail_path_ j ++ "/root";
    jail_path_ j ++ "/tmp";
    jail_path_ j ++ "/var";
    jail_path_ j ++ "/var/log";
    jail_path_ j ++ "/var/run";
    jail_path_ j ++ "/proc";
    jail_path_ j ++ "/sys";
    jail_path_ j ++ "/dev";
    jail_path_ j ++ "/dev/pts";
    jail_path_ j ++ "/usr/share/agi"
  ] in
  for_each dirs (fun dir =>
    b <- fs_exists dir ;;
    if negb b then
      create_directories dir ;;
      log "DEBUG" ("Creating directory: " ++ dir)
    else ret tt).

Definition copyBinary (path : string) : M unit :=
  j <- get_jail ;;
  let dest := jail_path_ j ++ path in
  let parent := PathUtils.parent dest in
  b <- fs_exists parent ;;
  (if negb b then create_directories parent else ret tt) ;;
  try_catch
    (content <- FileUtils_read path ;;
     _ <- FileUtils_write dest content ;;
     sys_chmod dest 493 ;;
     log "DEBUG" ("Copying binary: " ++ path ++ " -> " ++ dest))
    (fun e =>
     log "WARN" ("Cannot copy binary: " ++ path ++ " - " ++ what e)).

Definition essential_libs : list string := [
  "/lib/x86_64-linux-gnu/libc.so.6";
  "/lib/x86_64-linux-gnu/libdl.so.2";
  "/lib/x86_64-linux-gnu/libtinfo.so.6";
  "/lib/x86_64-linux-gnu/libpthread.so.0";
  "/lib64/ld-linux-x86-64.so.2"
].

Definition copyLibrary (lib : string) : M unit :=
  j <- get_jail ;;
  present <- fs_exists lib ;;
  if present then
    let dest := jail_path_ j ++ lib in
    let parent := PathUtils.parent dest in
    b <- fs_exists parent ;;
    (if negb b then create_directories parent else ret tt) ;;
    try_catch
      (content <- FileUtils_read lib ;;
       _ <- FileUtils_write dest content ;;
       log "DEBUG" ("Copying library: " ++ lib))
      (fun _ => ret tt)
  else ret tt.

Definition copyEssentialLibraries : M unit :=
  for_each essential_libs copyLibrary.

Definition essential_bins : list string := [
  "/bin/bash";
  "/bin/ls";
  "/bin/cat";
  "/bin/mkdir";
  "/bin/rm";
  "/bin/echo";
  "/bin/sleep";
  "/usr/bin/whoami"
].

Definition copyBaseSystem : M unit :=
  for_each essential_bins copyBinary ;;
  copyEssentialLibraries.

Definition createDeviceNode (path : string) (k : ascii) (major minor : Z)
  : M unit :=
  b <- fs_exists path ;;
  if b then ret tt else sys_mknod path k major minor.

Definition createDeviceNodes : M unit :=
  j <- get_jail ;;
  createDeviceNode (jail_path_ j ++ "/dev/null") "c" 1 3 ;;
  createDeviceNode (jail_path_ j ++ "/dev/zero") "c" 1 5 ;;
  createDeviceNode (jail_path_ j ++ "/dev/random") "c" 1 8 ;;
  createDeviceNode (jail_path_ j ++ "/dev/urandom") "c" 1 9 ;;
  createDeviceNode (jail_path_ j ++ "/dev/tty") "c" 5 0.

Definition yes_no (b : bool) : string := if b then "yes" else "no".

Definition sshd_config_text (c : SshConfig) : string :=
  "Port " ++ to_string (port c) ++ nl ++
  "ListenAddress " ++ listen_address c ++ nl ++
  "HostKey /etc/ssh/ssh_host_rsa_key" ++ nl ++
  "HostKey /etc/ssh/ssh_host_ecdsa_key" ++ nl ++
  "HostKey /etc/ssh/ssh_host_ed25519_key" ++ nl ++
  "PermitRootLogin yes" ++ nl ++
  "PasswordAuthentication " ++ yes_no (password_auth c) ++ nl ++
  "PubkeyAuthentication " ++ yes_no (pubkey_auth c) ++ nl ++
  "MaxAuthTries " ++ to_string (max_auth_tries c) ++ nl ++
  "ClientAliveInterval " ++ to_string (client_alive_interval c) ++ nl ++
  "ClientAliveCountMax 0" ++ nl ++
  "X11Forwarding no" ++ nl ++
  "AllowTcpForwarding yes" ++ nl ++
  "PermitEmptyPasswords no" ++ nl ++
  "PrintMotd no" ++ nl ++
  "AcceptEnv LANG LC_*".

Definition generateSshConfig : M unit :=
  j <- get_jail ;;
  let ssh_dir := jail_path_ j ++ "/etc/ssh" in
  b <- fs_exists ssh_dir ;;
  (if negb b then create_directories ssh_dir else ret tt) ;;
  _ <- FileUtils_write (ssh_dir ++ "/sshd_config")
                       (sshd_config_text (ssh (config_ j))) ;;
  log "DEBUG" "Generating SSH configuration".

Definition init_script_text : string :=
  "#!/bin/bash" ++ nl ++
  "# Jail initialization script" ++ nl ++
  "echo " ++ dquote ++ "Jail started at $(date)" ++ dquote
          ++ " > /var/log/jail.log" ++ nl ++
  "mount -t proc proc /proc" ++ nl ++
  "mount -t sysfs sys /sys" ++ nl ++
  "mount -t devpts devpts /dev/pts" ++ nl.

Definition createInitScripts : M unit :=
  j <- get_jail ;;
  _ <- FileUtils_write (jail_path_ j ++ "/usr/share/agi/init.sh")
                       init_script_text ;;
  sys_chmod (jail_path_ j ++ "/usr/share/agi/init.sh") 493.

(** Conversion of a [long] or [int] to the unsigned 64-bit [rlim_t]. *)
Definition to_rlim (z : Z) : Z := z mod 2 ^ 64.

Definition setResourceLimits : M unit :=
  j <- get_jail ;;
  let l := limits (config_ j) in
  sys_setrlimit RLIMIT_CPU (to_rlim (max_cpu_time l)) (to_rlim (max_cpu_time l)) ;;
  sys_setrlimit RLIMIT_AS (to_rlim (max_memory l * 1024))
                          (to_rlim (max_memory l * 1024)) ;;
  sys_setrlimit RLIMIT_FSIZE (to_rlim (max_file_size l * 1024))
                             (to_rlim (max_file_size l * 1024)) ;;
  sys_setrlimit RLIMIT_NPROC (to_rlim (max_processes l))
                             (to_rlim (max_processes l)) ;;
  sys_setrlimit RLIMIT_NOFILE (to_rlim (max_open_files l))
                              (to_rlim (max_open_files l)).

Definition addMountInfo (source target type options : string) : M unit :=
  modify_jail (fun j =>
    with_mounts (active_mounts_ j ++ [mkMountInfo source target type options]) j).

Definition mountFilesystems : M unit :=
  j <- get_jail ;;
  _ <- sys_mount "proc" (jail_path_ j ++ "/proc") "proc" 0 None ;;
  addMountInfo "proc" (jail_path_ j ++ "/proc") "proc" "" ;;
  _ <- sys_mount "sysfs" (jail_path_ j ++ "/sys") "sysfs" 0 None ;;
  addMountInfo "sysfs" (jail_path_ j ++ "/sys") "sysfs" "" ;;
  _ <- sys_mount "devpts" (jail_path_ j ++ "/dev/pts") "devpts" 0
                 (Some "gid=5,mode=620") ;;
  addMountInfo "devpts" (jail_path_ j ++ "/dev/pts") "devpts" "gid=5,mode=620" ;;
  let tmp_path := jail_path_ j ++ "/tmp" in
  _ <- sys_mount "/tmp" tmp_path "none" MS_BIND None ;;
  addMountInfo "/tmp" tmp_path "none" "bind" ;;
  log "DEBUG" "Filesystem mounting completed".

(** The [while (retries > 0)] loop of [unmountAll] for one target. *)
Fixpoint umount_retry (tgt : string) (retries : nat) : M unit :=
  match retries with
  | O => ret tt
  | S retries' =>
      r <- sys_umount tgt ;;
      match r with
      | SysOk => log "DEBUG" ("Unmounting: " ++ tgt)
      | SysErr errno =>
          if errno =? EBUSY then
            sleep_ms 100 ;; umount_retry tgt retries'
          else ret tt
      end
  end.

Definition unmountAll : M unit :=
  j <- get_jail ;;
  for_each (rev (active_mounts_ j)) (fun it => umount_retry (target it) 3) ;;
  modify_jail (with_mounts []).

Definition startSshd : M unit :=
  j <- get_jail ;;
  b <- fs_exists (jail_path_ j ++ "/usr/sbin/sshd") ;;
  let sshd_path := if b then jail_path_ j ++ "/usr/sbin/sshd"
                   else "/usr/sbin/sshd" in
  pid <- sys_fork (SshdChild (jail_path_ j)) ;;
  if 0 <? pid then
    modify_jail (with_pid pid) ;;
    log "DEBUG" ("SSH process started: PID " ++ to_string pid)
  else throw (mkExn JailError "Cannot start SSH").

Definition stopSshd : M unit :=
  j <- get_jail ;;
  if 0 <? sshd_pid_ j then
    sys_kill (sshd_pid_ j) SIGTERM ;;
    _ <- sys_waitpid (sshd_pid_ j) ;;
    modify_jail (with_pid (-1)) ;;
    log "DEBUG" "SSH process has been stopped"
  else ret tt.

Definition runScript (script : string) : M unit :=
  j <- get_jail ;;
  b <- fs_exists script ;;
  if b then
    pid <- sys_fork (ScriptChild (jail_path_ j) script) ;;
    if 0 <? pid then _ <- sys_waitpid pid ;; ret tt else ret tt
  else ret tt.

Definition runInitScript : M unit :=
  j <- get_jail ;;
  runScript (jail_path_ j ++ "/usr/share/agi/init.sh").

Definition runCleanupScript : M unit :=
  j <- get_jail ;;
  runScript (jail_path_ j ++ "/usr/share/agi/cleanup.sh").

(** *** Public operations *)

Definition create : M bool :=
  lock_guard (
    j <- get_jail ;;
    try_catch
      (log "INFO" ("Starting to create jail environment: " ++ name (config_ j)) ;;
       createDirectoryStructure ;;
       copyBaseSystem ;;
       createDeviceNodes ;;
       generateSshConfig ;;
       createInitScripts ;;
       log "INFO" ("Jail environment created successfully: " ++ jail_path_ j) ;;
       ret true)
      (fun e =>
       log "ERROR" ("Failed to create jail: " ++ what e) ;;
       ret false)).

Definition start : M bool :=
  lock_guard (
    j <- get_jail ;;
    if JailStatus_eqb (status_ j) RUNNING then
      log "WARN" "Jail is already running" ;;
      ret true
    else
      try_catch
        (log "INFO" ("Starting jail environment: " ++ name (config_ j)) ;;
         modify_jail (with_status STARTING) ;;
         b <- fs_exists (jail_path_ j) ;;
         (if negb b then
            throw (mkExn JailError
                     "Jail directory does not exist, please create it first")
          else ret tt) ;;
         setResourceLimits ;;
         mountFilesystems ;;
         startSshd ;;
         runInitScript ;;
         modify_jail (with_status RUNNING) ;;
         t <- now ;;
         modify_jail (with_start_time t) ;;
         log "INFO" ("Jail environment has been started: " ++ name (config_ j)
                     ++ " (SSH port: " ++ to_string (port (ssh (config_ j))) ++ ")") ;;
         ret true)
        (fun e =>
         modify_jail (with_status ERROR) ;;
         log "ERROR" ("Failed to start jail: " ++ what e) ;;
         ret false)).

(** The body of [stop] below its lock guard. *)
Definition stop_body : M bool :=
  j <- get_jail ;;
  if JailStatus_eqb (status_ j) STOPPED then ret true
  else
    try_catch
      (log "INFO" ("Stopping jail environment: " ++ name (config_ j)) ;;
       modify_jail (with_status STOPPING) ;;
       stopSshd ;;
       runCleanupScript ;;
       unmountAll ;;
       modify_jail (with_status STOPPED) ;;
       log "INFO" ("Jail environment has been stopped: " ++ name (config_ j)) ;;
       ret true)
      (fun e =>
       modify_jail (with_status ERROR) ;;
       log "ERROR" ("Failed to stop jail: " ++ what e) ;;
       ret false).

Definition stop : M bool := lock_guard stop_body.

(** What [destroy] does once its call of [stop()] has returned. *)
Definition destroy_after_stop : M bool :=
  j <- get_jail ;;
  log "INFO" ("Destroying jail environment: " ++ name (config_ j)) ;;
  unmountAll ;;
  b <- fs_exists (jail_path_ j) ;;
  (if b then remove_all (jail_path_ j) else ret tt) ;;
  log "INFO" ("Jail environment has been destroyed: " ++ name (config_ j)) ;;
  ret true.

(** The body of [destroy] below its lock guard, with the call it makes first
    as a parameter; the result of that call is discarded. *)
Definition destroy_body (stop_call : M bool) : M bool :=
  try_catch
    (_ <- stop_call ;;
     destroy_after_stop)
    (fun e =>
     log "ERROR" ("Failed to destroy jail: " ++ what e) ;;
     ret false).

Definition destroy : M bool := lock_guard (destroy_body stop).

Definition execute (command : string) : M string :=
  j <- get_jail ;;
  if negb (JailStatus_eqb (status_ j) RUNNING) then
    throw (mkExn JailError "Jail is not running, cannot execute command")
  else
    pid <- sys_fork (ShellChild (jail_path_ j) command) ;;
    if 0 <? pid then
      status <- sys_waitpid pid ;;
      match status with
      | Exited code =>
          if code =? 0 then ret "Command executed successfully"
          else ret ("Command execution failed (exit code: "
                    ++ to_string code ++ ")")
      | NotExited => ret "Command was interrupted by signal"
      end
    else throw (mkExn JailError "Cannot create child process").

Definition getRuntimeInfo : M JailRuntimeInfo :=
  lock_guard (
    j <- get_jail ;;
    ret (mkJailRuntimeInfo
           (name (config_ j))
           (status_ j)
           (if 0 <? sshd_pid_ j then sshd_pid_ j else -1)
           (port (ssh (config_ j)))
           (listen_address (ssh (config_ j)))
           (start_time_ j)
           (active_mounts_ j)
           "")).

Definition getStatus : M JailStatus :=
  j <- get_jail ;; ret (status_ j).

Definition getPath : M string :=
  j <- get_jail ;; ret (jail_path_ j).

Definition jail_exists : M bool :=
  j <- get_jail ;; fs_exists (jail_path_ j).

Definition validateConfig : M bool :=
  j <- get_jail ;;
  if String.eqb (name (config_ j)) "" then
    throw (mkExn JailError "Environment name cannot be empty")
  else if (port (ssh (config_ j)) <? 1) || (65535 <? port (ssh (config_ j))) then
    throw (mkExn JailError "SSH port must be in range 1-65535")
  else if string_contains ".." (root_path (config_ j)) then
    throw (mkExn JailError "Path contains invalid directory traversal")
  else ret true.

End Manager.

(** ** Concrete jails and hosts used by the examples *)

Definition dev_config : EnvironmentConfig :=
  mkEnvironmentConfig "dev" ""
    (mkSshConfig 2201 "127.0.0.1" true true 3 300)
    (mkResourceLimits 300 524288 1048576 64 256).

Definition dev_path : string := "/var/lib/agi/jails/dev".

(** A host on which every call succeeds at once. *)
Definition calm : Oracle :=
  mkOracle (fun _ => false) (fun _ => false) (fun _ => false)
           (fun _ => true) (fun _ => "ELF") (fun _ => true)
           (fun _ => true) (fun _ => true)
           (fun _ _ => SysOk)
           (fun n => Some (Pos.of_nat (100 + n)))
           (fun _ => Exited 0)
           (fun n => Z.of_nat n).

(** A disk that holds two of the base executables and the loader, nothing
    mounted, nothing traced yet. *)
Definition bare_host : Host :=
  mkHost ["/bin/bash"; "/bin/ls"; "/lib64/ld-linux-x86-64.so.2"] [] [].

(** A freshly registered jail with a logger; its root is not on disk. *)
Definition fresh : State :=
  mkState (with_logger true (new_jail dev_config)) bare_host.

(** The same jail once [create()] has run and the trace is set aside. *)
Definition created_host : Host :=
  mkHost (paths (host (final_state (create calm fresh)))) [] [].

Definition created : State :=
  mkState (with_logger true (new_jail dev_config)) created_host.

(** The jail after a successful [start()]. *)
Definition running : State :=
  let s := final_state (start calm created) in
  mkState (jail s) (mkHost (paths (host s)) (mounted (host s)) []).

(** ** Notions used by the statements *)

Arguments mem_path : simpl never.
Arguments String.append : simpl never.

(** Log calls reach the trace only when a logger is installed. *)
Definition log_events (j : Jail) (l : list Event) : list Event :=
  if logger_ j then l else [].

Definition add_events (l : list Event) (h : Host) : Host :=
  mkHost (paths h) (mounted h) (trace h ++ l).

(** The four records [mountFilesystems] appends, in its order. *)
Definition fixed_mounts (jail_path : string) : list MountInfo := [
  mkMountInfo "proc" (jail_path ++ "/proc") "proc" "";
  mkMountInfo "sysfs" (jail_path ++ "/sys") "sysfs" "";
  mkMountInfo "devpts" (jail_path ++ "/dev/pts") "devpts" "gid=5,mode=620";
  mkMountInfo "/tmp" (jail_path ++ "/tmp") "none" "bind"
].

(** Targets of the [mount] and of the [umount] calls of a trace, in order. *)
Fixpoint mount_calls (tr : list Event) : list string :=
  match tr with
  | [] => []
  | EvMount _ t _ _ _ :: rest => t :: mount_calls rest
  | _ :: rest => mount_calls rest
  end.

Fixpoint umount_calls (tr : list Event) : list string :=
  match tr with
  | [] => []
  | EvUmount t :: rest => t :: umount_calls rest
  | _ :: rest => umount_calls rest
  end.

(** [n1] copies of the first target, then [n2] of the second, and so on. *)
Fixpoint repeat_each (ts : list string) (ns : list nat) : list string :=
  match ts, ns with
  | t :: ts', n :: ns' => repeat t n ++ repeat_each ts' ns'
  | _, _ => []
  end.

(** The public operations, and the states a caller can observe between
    them.  A call that does not return leaves no state to observe. *)
Inductive Op : Type :=
  | OpSetLogger (installed : bool)
  | OpCreate | OpStart | OpStop | OpDestroy
  | OpExecute (command : string)
  | OpGetRuntimeInfo | OpGetStatus | OpGetPath | OpExists | OpValidateConfig.

Definition after {A} (r : Outcome A) : option State :=
  match r with
  | Ret _ s | Throw _ s => Some s
  | Deadlock _ => None
  end.

Definition run_op (o : Oracle) (op : Op) (s : State) : option State :=
  match op with
  | OpSetLogger b => after (setLogger b s)
  | OpCreate => after (create o s)
  | OpStart => after (start o s)
  | OpStop => after (stop o s)
  | OpDestroy => after (destroy o s)
  | OpExecute c => after (execute o c s)
  | OpGetRuntimeInfo => after (getRuntimeInfo s)
  | OpGetStatus => after (getStatus s)
  | OpGetPath => after (getPath s)
  | OpExists => after (jail_exists o s)
  | OpValidateConfig => after (validateConfig s)
  end.

Inductive reachable (o : Oracle) : State -> Prop :=
  | reach_new (config : EnvironmentConfig) (h : Host) :
      reachable o (mkState (new_jail config) h)
  | reach_op (s s' : State) (op : Op) :
      reachable o s -> run_op o op s = Some s' -> reachable o s'.

Definition pid_ok (j : Jail) : Prop :=
  sshd_pid_ j = -1 \/ 0 < sshd_pid_ j.

Definition mounts_ok (j : Jail) : Prop :=
  exists k : nat,
    active_mounts_ j = concat (repeat (fixed_mounts (jail_path_ j)) k).

Definition settled (j : Jail) : Prop :=
  status_ j = STOPPED \/ status_ j = RUNNING \/ status_ j = ERROR.

(** What holds of a manager between two operations. *)
Definition Inv0 (j : Jail) : Prop :=
  pid_ok j /\ mounts_ok j /\ settled j /\
  (status_ j = STOPPED -> active_mounts_ j = [] /\ sshd_pid_ j = -1) /\
  (status_ j = RUNNING -> active_mounts_ j <> [] /\ 0 < sshd_pid_ j).

Definition Inv (j : Jail) : Prop := mutex_ j = false /\ Inv0 j.

(** What holds in the middle of [start] and [stop]: the status is in
    transit; mounts and process id are recorded as far as the operation got. *)
Definition Stage (need_mounts need_pid : bool) (j : Jail) : Prop :=
  pid_ok j /\ mounts_ok j /\
  (need_mounts = true -> active_mounts_ j <> []) /\
  (need_pid = true -> 0 < sshd_pid_ j).

(** *** Program logic *)

(** [steps R m]: [m] never blocks and relates each state to the one it
    leaves, whether it returns or throws.  [runs R m]: moreover it returns. *)
Definition steps {A} (R : State -> State -> Prop) (m : M A) : Prop :=
  forall s,
    match m s with
    | Ret _ s' | Throw _ s' => R s s'
    | Deadlock _ => False
    end.

Definition runs {A} (R : State -> State -> Prop) (m : M A) : Prop :=
  forall s, exists a s', m s = Ret a s' /\ R s s'.

Definition same_jail (s s' : State) : Prop := jail s' = jail s.

(** Triples on the manager's fields: from [P], [m] returns in [Q] or throws
    in [E], and does not block. *)
Definition jtriple {A} (P : Jail -> Prop) (m : M A)
           (Q : A -> Jail -> Prop) (E : Jail -> Prop) : Prop :=
  forall s, P (jail s) ->
    match m s with
    | Ret a s' => Q a (jail s')
    | Throw _ s' => E (jail s')
    | Deadlock _ => False
    end.

(** The warning [copyBinary] logs for an executable it cannot read. *)
Definition copy_warning (path : string) : Event :=
  EvLog "WARN" ("Cannot copy binary: " ++ path ++ " - Cannot open file: " ++ path).

(** An event other than a warning or error log, or one of the warnings of
    [copyBinary]. *)
Definition quiet (e : Event) : Prop :=
  match e with
  | EvLog level _ =>
      (level = "WARN" \/ level = "ERROR") ->
      exists b, In b essential_bins /\ e = copy_warning b
  | _ => True
  end.

(** Nothing leaves the disk, the manager is untouched, and the trace grows
    by quiet events. *)
Definition grows (s s' : State) : Prop :=
  jail s' = jail s /\
  (forall p, mem_path p (paths (host s)) = true ->
             mem_path p (paths (host s')) = true) /\
  exists d, trace (host s') = (trace (host s) ++ d)%list /\ Forall quiet d.

(** *** More hosts and states for the examples *)

(** A host that refuses to mount procfs (everything else as [calm]). *)
Definition no_proc : Oracle :=
  mkOracle (fun _ => false) (fun _ => false) (fun _ => false)
           (fun _ => true) (fun _ => "ELF") (fun _ => true)
           (fun _ => true)
           (fun t => negb (String.eqb t (dev_path ++ "/proc")))
           (fun _ _ => SysOk)
           (fun n => Some (Pos.of_nat (100 + n)))
           (fun _ => Exited 0)
           (fun n => Z.of_nat n).

(** A host on which the status call on the init script fails. *)
Definition init_unreadable : Oracle :=
  mkOracle (fun p => String.eqb p (dev_path ++ "/usr/share/agi/init.sh"))
           (fun _ => false) (fun _ => false)
           (fun _ => true) (fun _ => "ELF") (fun _ => true)
           (fun _ => true) (fun _ => true)
           (fun _ _ => SysOk)
           (fun n => Some (Pos.of_nat (100 + n)))
           (fun _ => Exited 0)
           (fun n => Z.of_nat n).

(** A host on which the bind mount of /tmp is busy twice, then lets go, and
    on which /sys stays busy. *)
Definition busy_host : Oracle :=
  mkOracle (fun _ => false) (fun _ => false) (fun _ => false)
           (fun _ => true) (fun _ => "ELF") (fun _ => true)
           (fun _ => true) (fun _ => true)
           (fun t n =>
              if String.eqb t (dev_path ++ "/tmp") then
                if (n <? 2)%nat then SysErr EBUSY else SysOk
              else if String.eqb t (dev_path ++ "/sys") then SysErr EBUSY
              else if String.eqb t (dev_path ++ "/dev/pts") then SysErr EINVAL
              else SysOk)
           (fun n => Some (Pos.of_nat (100 + n)))
           (fun _ => Exited 0)
           (fun n => Z.of_nat n).

(** A host on which the status call on the cleanup script fails, so that
    [stop] fails. *)
Definition cleanup_unreadable : Oracle :=
  mkOracle (fun p => String.eqb p (dev_path ++ "/usr/share/agi/cleanup.sh"))
           (fun _ => false) (fun _ => false)
           (fun _ => true) (fun _ => "ELF") (fun _ => true)
           (fun _ => true) (fun _ => true)
           (fun _ _ => SysOk)
           (fun n => Some (Pos.of_nat (100 + n)))
           (fun _ => Exited 0)
           (fun n => Z.of_nat n).

(** The created jail as the registry first holds it, before a logger is
    installed. *)
Definition registered : State :=
  mkState (new_jail dev_config) created_host.

(** The executable [b] cannot be read: it is not on the disk of [s], or the
    host does not let it be opened. *)
Definition unreadable (o : Oracle) (b : string) (s : State) : bool :=
  negb (mem_path b (paths (host s)) && can_read o b).

(** From [s] to [s'], with a logger installed, an executable that is still
    unreadable at the end has had its warning logged in between. *)
Definition warned (o : Oracle) (b : string) (s s' : State) : Prop :=
  logger_ (jail s) = true ->
  unreadable o b s' = true ->
  exists d, trace (host s') = (trace (host s) ++ d)%list /\ In (copy_warning b) d.

(** The messages logged at level WARN, in order. *)
Fixpoint warnings (tr : list Event) : list string :=
  match tr with
  | [] => []
  | EvLog level message :: rest =>
      if String.eqb level "WARN" then message :: warnings rest
      else warnings rest
  | _ :: rest => warnings rest
  end.

(** The messages logged at [level], in order. *)
Fixpoint logged (level : string) (tr : list Event) : list string :=
  match tr with
  | [] => []
  | EvLog l message :: rest =>
      if String.eqb l level then message :: logged level rest
      else logged level rest
  | _ :: rest => logged level rest
  end.

(** *** Shape of normalized paths *)

(** No slash follows a slash in [s]; with [lastWasSlash], [s] does not start
    with one either. *)
Fixpoint single_slashes (s : string) (lastWasSlash : bool) : bool :=
  match s with
  | EmptyString => true
  | String c rest =>
      if Ascii.eqb c slash then negb lastWasSlash && single_slashes rest true
      else single_slashes rest false
  end.

(** *** Notions for the further properties *)

(** The paths [createDirectoryStructure] goes through: each is created as a
    directory unless the disk holds something at that path already. *)
Definition skeleton_dirs (j : Jail) : list string := [
  jail_path_ j;
  data_path_ j;
  run_path_ j;
  jail_path_ j ++ "/bin";
  jail_path_ j ++ "/sbin";
  jail_path_ j ++ "/usr";
  jail_path_ j ++ "/usr/bin";
  jail_path_ j ++ "/usr/sbin";
  jail_path_ j ++ "/lib";
  jail_path_ j ++ "/lib64";
  jail_path_ j ++ "/etc";
  jail_path_ j ++ "/home";
  jail_path_ j ++ "/root";
  jail_path_ j ++ "/tmp";
  jail_path_ j ++ "/var";
  jail_path_ j ++ "/var/log";
  jail_path_ j ++ "/var/run";
  jail_path_ j ++ "/proc";
  jail_path_ j ++ "/sys";
  jail_path_ j ++ "/dev";
  jail_path_ j ++ "/dev/pts";
  jail_path_ j ++ "/usr/share/agi"
].

(** The three checks of [validateConfig]. *)
Definition config_accepted (c : EnvironmentConfig) : bool :=
  negb (String.eqb (name c) "")
  && (1 <=? port (ssh c)) && (port (ssh c) <=? 65535)
  && negb (string_contains ".." (root_path c)).

(** Any two states: the relation of a computation about which only the
    absence of blocking is recorded. *)
Definition anyrel (s s' : State) : Prop := True.

(** The [kill] calls of a trace, as (pid, signal), in order. *)
Fixpoint kill_calls (tr : list Event) : list (Z * Z) :=
  match tr with
  | [] => []
  | EvKill pid sig :: rest => (pid, sig) :: kill_calls rest
  | _ :: rest => kill_calls rest
  end.

(** Events that are no [mount], no [kill] and, unless [with_umount], no
    [umount]. *)
Definition calls_only (with_umount : bool) (d : list Event) : Prop :=
  mount_calls d = [] /\ kill_calls d = [] /\
  (with_umount = false -> umount_calls d = []).

(** From [s] to [s']: the trace grows by events that are no mount, unmount
    or signal, and the jail's root path, the recorded mounts and the
    kernel's mount table stay as they are. *)
Definition plain (s s' : State) : Prop :=
  jail_path_ (jail s') = jail_path_ (jail s) /\
  active_mounts_ (jail s') = active_mounts_ (jail s) /\
  mounted (host s') = mounted (host s) /\
  exists d, trace (host s') = (trace (host s) ++ d)%list /\ calls_only false d.

(** From [s] to [s']: the trace grows by events that are no mount and no
    signal. *)
Definition unsignalled (s s' : State) : Prop :=
  exists d, trace (host s') = (trace (host s) ++ d)%list /\ calls_only true d.

(** From [s] to [s']: the four fixed mounts were attempted once, in order,
    each recorded, the ones the kernel accepted added to its mount table;
    nothing was unmounted and no signal sent. *)
Definition mounted_four (o : Oracle) (s s' : State) : Prop :=
  let ms := fixed_mounts (jail_path_ (jail s)) in
  jail_path_ (jail s') = jail_path_ (jail s) /\
  active_mounts_ (jail s') = (active_mounts_ (jail s) ++ ms)%list /\
  mounted (host s') =
    (mounted (host s) ++ filter (mount_ok o) (map target ms))%list /\
  exists d, trace (host s') = (trace (host s) ++ d)%list /\
            mount_calls d = map target ms /\
            umount_calls d = [] /\ kill_calls d = [].

(** A host on which [fork] fails. *)
Definition no_fork : Oracle :=
  mkOracle (fun _ => false) (fun _ => false) (fun _ => false)
           (fun _ => true) (fun _ => "ELF") (fun _ => true)
           (fun _ => true) (fun _ => true)
           (fun _ _ => SysOk)
           (fun _ => None)
           (fun _ => Exited 0)
           (fun n => Z.of_nat n).

(** ** [class JailManagerPool] and the commands of [CliHandler] *)

(** [std::map<std::string, std::unique_ptr<JailManager>>]: the entries in the
    order of their keys, which is [std::less<std::string>], the
    lexicographic order on bytes. *)
Definition JailMap : Type := list (string * Jail).

(** [m.find(k)], and [m.count(k)] as whether it finds an entry. *)
Fixpoint map_find (k : string) (m : JailMap) : option Jail :=
  match m with
  | [] => None
  | (k', v) :: rest => if String.eqb k k' then Some v else map_find k rest
  end.

(** [m[k] = v] *)
Fixpoint map_insert (k : string) (v : Jail) (m : JailMap) : JailMap :=
  match m with
  | [] => [(k, v)]
  | (k', v') :: rest =>
      match String.compare k k' with
      | Lt => (k, v) :: (k', v') :: rest
      | Eq => (k, v) :: rest
      | Gt => (k', v') :: map_insert k v rest
      end
  end.

(** [m.erase(it)] for the iterator [m.find(k)] gave. *)
Fixpoint map_erase (k : string) (m : JailMap) : JailMap :=
  match m with
  | [] => []
  | (k', v) :: rest =>
      if String.eqb k k' then rest else (k', v) :: map_erase k rest
  end.

(** A member function changing the manager an entry owns: the entry keeps
    its place. *)
Fixpoint map_assign (k : string) (v : Jail) (m : JailMap) : JailMap :=
  match m with
  | [] => []
  | (k', v') :: rest =>
      if String.eqb k k' then (k', v) :: rest
      else (k', v') :: map_assign k v rest
  end.

(** The private fields of [class JailManagerPool]; [pool_logger_] and
    [pool_mutex_] are its [logger_] and [mutex_]. *)
Record Pool : Type := mkPool {
  jails_ : JailMap;
  pool_logger_ : bool;
  pool_mutex_ : bool
}.

(** What one statement writes to [std::cout] or [std::cerr]. *)
Inductive Output : Type :=
  | Cout (text : string)
  | Cerr (text : string).

Definition endl : string := nl.

(** The process running [CliHandler]: the pool it owns, the environments of
    the configuration it loaded, the host and what it has written so far. *)
Record Cli : Type := mkCli {
  jail_pool_ : Pool;
  environments : list EnvironmentConfig;
  cli_host : Host;
  console : list Output
}.

(** A [JailManager*] handed out by the pool: the manager owned by the entry
    of that key. *)
Definition JailPtr : Type := string.

(** Outcomes of the pool's and the handler's functions.  [Undefined] is the
    use of a pointer whose manager the pool has erased. *)
Inductive CliOutcome (A : Type) : Type :=
  | Done (a : A) (c : Cli)
  | Thrown (e : Exn) (c : Cli)
  | Blocked (c : Cli)
  | Undefined (c : Cli).
Arguments Done {A} a c.
Arguments Thrown {A} e c.
Arguments Blocked {A} c.
Arguments Undefined {A} c.

Definition Cmd (A : Type) : Type := Cli -> CliOutcome A.

Definition cret {A} (a : A) : Cmd A := fun c => Done a c.

Definition cbind {A B} (m : Cmd A) (k : A -> Cmd B) : Cmd B :=
  fun c =>
    match m c with
    | Done a c' => k a c'
    | Thrown e c' => Thrown e c'
    | Blocked c' => Blocked c'
    | Undefined c' => Undefined c'
    end.

Declare Scope cmd_scope.
Delimit Scope cmd_scope with cmd.
Notation "x <- m ;; k" := (cbind m (fun x => k))
  (at level 61, m at next level, right associativity) : cmd_scope.
Notation "m ;; k" := (cbind m (fun _ => k))
  (at level 61, right associativity) : cmd_scope.

Definition cli_state {A} (r : CliOutcome A) : Cli :=
  match r with
  | Done _ c | Thrown _ c | Blocked c | Undefined c => c
  end.

Definition set_pool (p : Pool) (c : Cli) : Cli :=
  mkCli p (environments c) (cli_host c) (console c).
Definition set_cli_host (h : Host) (c : Cli) : Cli :=
  mkCli (jail_pool_ c) (environments c) h (console c).
Definition with_jails (m : JailMap) (p : Pool) : Pool :=
  mkPool m (pool_logger_ p) (pool_mutex_ p).
Definition with_pool_logger (b : bool) (p : Pool) : Pool :=
  mkPool (jails_ p) b (pool_mutex_ p).
Definition with_pool_mutex (b : bool) (p : Pool) : Pool :=
  mkPool (jails_ p) (pool_logger_ p) b.

Definition get_cli : Cmd Cli := fun c => Done c c.
Definition get_pool : Cmd Pool := fun c => Done (jail_pool_ c) c.
Definition set_pool_logger (logger : bool) : Cmd unit :=
  fun c => Done tt (set_pool (with_pool_logger logger (jail_pool_ c)) c).
Definition set_jails (m : JailMap) : Cmd unit :=
  fun c => Done tt (set_pool (with_jails m (jail_pool_ c)) c).

Definition print (out : Output) (c : Cli) : Cli :=
  mkCli (jail_pool_ c) (environments c) (cli_host c) (console c ++ [out]).
Definition cout (text : string) : Cmd unit := fun c => Done tt (print (Cout text) c).
Definition cerr (text : string) : Cmd unit := fun c => Done tt (print (Cerr text) c).

(** [for (const auto& x : xs) body(x);] in a command. *)
Fixpoint cfor_each {A} (xs : list A) (body : A -> Cmd unit) : Cmd unit :=
  match xs with
  | [] => cret tt
  | x :: rest => cbind (body x) (fun _ => cfor_each rest body)
  end.

(** The manager [p] points to and the host, as a member function left
    them. *)
Definition store (p : JailPtr) (s : State) (c : Cli) : Cli :=
  set_cli_host (host s)
    (set_pool (with_jails (map_assign p (jail s) (jails_ (jail_pool_ c)))
                          (jail_pool_ c)) c).

(** [p->f(...)]: the member function [m] runs on the manager [p] points to
    and on the host, and leaves both changed in place. *)
Definition call {A} (p : JailPtr) (m : M A) : Cmd A :=
  fun c =>
    match map_find p (jails_ (jail_pool_ c)) with
    | None => Undefined c
    | Some j =>
        match m (mkState j (cli_host c)) with
        | Ret a s => Done a (store p s c)
        | Throw e s => Thrown e (store p s c)
        | Deadlock s => Blocked (store p s c)
        end
    end.

(** [std::lock_guard<std::mutex> lock(mutex_);] in a function of the pool. *)
Definition pool_lock_guard {A} (body : Cmd A) : Cmd A :=
  fun c =>
    if pool_mutex_ (jail_pool_ c) then Blocked c
    else
      let unlock := fun c' : Cli =>
        set_pool (with_pool_mutex false (jail_pool_ c')) c' in
      match body (set_pool (with_pool_mutex true (jail_pool_ c)) c) with
      | Done a c' => Done a (unlock c')
      | Thrown e c' => Thrown e (unlock c')
      | Blocked c' => Blocked c'
      | Undefined c' => Undefined c'
      end.

Module JailManagerPool.

Definition addEnvironment (config : EnvironmentConfig) : Cmd bool :=
  pool_lock_guard (
    p <- get_pool ;;
    match map_find (name config) (jails_ p) with
    | Some _ => cret false
    | None =>
        (* make_unique<JailManager>(config), then jail->setLogger(logger_) *)
        let jail := with_logger (pool_logger_ p) (new_jail config) in
        set_jails (map_insert (name config) jail (jails_ p)) ;;
        cret true
    end)%cmd.

Definition removeEnvironment (o : Oracle) (name : string) : Cmd bool :=
  pool_lock_guard (
    p <- get_pool ;;
    match map_find name (jails_ p) with
    | None => cret false
    | Some _ =>
        _ <- call name (stop o) ;;
        p' <- get_pool ;;
        set_jails (map_erase name (jails_ p')) ;;
        cret true
    end)%cmd.

Definition getJail (name : string) : Cmd (option JailPtr) :=
  pool_lock_guard (
    p <- get_pool ;;
    match map_find name (jails_ p) with
    | None => cret None
    | Some _ => cret (Some name)
    end)%cmd.

Definition listJails : Cmd (list string) :=
  pool_lock_guard (
    p <- get_pool ;;
    cret (map fst (jails_ p)))%cmd.

(** The loop of [getAllRuntimeInfo] over the entries. *)
Fixpoint runtime_infos (names : list string) : Cmd (list JailRuntimeInfo) :=
  match names with
  | [] => cret []
  | n :: rest =>
      (info <- call n getRuntimeInfo ;;
       infos <- runtime_infos rest ;;
       cret (info :: infos))%cmd
  end.

Definition getAllRuntimeInfo : Cmd (list JailRuntimeInfo) :=
  pool_lock_guard (
    p <- get_pool ;;
    runtime_infos (map fst (jails_ p)))%cmd.

Definition size : Cmd nat :=
  pool_lock_guard (
    p <- get_pool ;;
    cret (length (jails_ p)))%cmd.

Definition setLogger (logger : bool) : Cmd unit :=
  (set_pool_logger logger ;;
   p <- get_pool ;;
   cfor_each (map fst (jails_ p)) (fun n => call n (setLogger logger)))%cmd.

End JailManagerPool.

(** *** [class CliHandler] *)

(** [ConfigManager::findEnvironment] on the loaded configuration. *)
Fixpoint findEnvironment (envs : list EnvironmentConfig) (n : string)
  : option EnvironmentConfig :=
  match envs with
  | [] => None
  | env :: rest => if String.eqb (name env) n then Some env
                   else findEnvironment rest n
  end.

(** The loop that ends [CliHandler::run]: one manager per environment of the
    configuration. *)
Definition run_add_environments : Cmd unit :=
  fun c =>
    cfor_each (environments c)
      (fun env => cbind (JailManagerPool.addEnvironment env) (fun _ => cret tt)) c.

(** [std::this_thread::sleep_for(std::chrono::seconds(1))] *)
Definition sleep_one_second : Cmd unit :=
  fun c => Done tt (set_cli_host (add_event (EvSleepMs 1000) (cli_host c)) c).

Definition no_name : Cmd bool :=
  (cerr ("Error: Please specify environment name" ++ endl) ;; cret false)%cmd.

Definition no_such (name : string) : Cmd bool :=
  (cerr ("Error: Environment '" ++ name ++ "' does not exist" ++ endl) ;;
   cret false)%cmd.

Definition cmdCreate (o : Oracle) (args : list string) : Cmd bool :=
  match args with
  | [] =>
      (cerr ("Error: Please specify environment name" ++ endl) ;;
       cerr ("Usage: agi create <name>" ++ endl) ;;
       cret false)%cmd
  | name :: _ =>
      (jail <- JailManagerPool.getJail name ;;
       there <- match jail with
                | Some p => call p (jail_exists o)
                | None => cret false
                end ;;
       if there then
         cerr ("Error: Environment '" ++ name ++ "' already exists" ++ endl) ;;
         cret false
       else
         c <- get_cli ;;
         match findEnvironment (environments c) name with
         | None =>
             cerr ("Error: Environment '" ++ name
                   ++ "' not found in configuration" ++ endl) ;;
             cerr ("Please add environment definition to configuration file"
                   ++ endl) ;;
             cret false
         | Some _ =>
             jail <- JailManagerPool.getJail name ;;
             match jail with
             | None =>
                 cerr ("Error: Cannot create jail manager" ++ endl) ;;
                 cret false
             | Some p =>
                 cout ("Creating environment: " ++ name ++ endl) ;;
                 ok <- call p (create o) ;;
                 if negb ok then
                   cerr ("Error: Failed to create environment" ++ endl) ;;
                   cret false
                 else
                   path <- call p getPath ;;
                   cout ("Environment created successfully: " ++ path ++ endl) ;;
                   cret true
             end
         end)%cmd
  end.

Definition cmdStart (o : Oracle) (args : list string) : Cmd bool :=
  match args with
  | [] => no_name
  | name :: _ =>
      (jail <- JailManagerPool.getJail name ;;
       match jail with
       | None => no_such name
       | Some p =>
           st <- call p getStatus ;;
           if JailStatus_eqb st RUNNING then
             cout ("Environment is already running" ++ endl) ;;
             cret true
           else
             cout ("Starting environment: " ++ name ++ endl) ;;
             ok <- call p (start o) ;;
             if negb ok then
               cerr ("Error: Failed to start environment" ++ endl) ;;
               cret false
             else
               info <- call p getRuntimeInfo ;;
               cout ("Environment started" ++ endl) ;;
               cout ("  SSH Port: " ++ to_string (info_ssh_port info) ++ endl) ;;
               cout ("  Access Address: " ++ info_ip_address info ++ endl) ;;
               cout endl ;;
               cout ("Connection command: agi ssh " ++ name ++ endl) ;;
               cret true
       end)%cmd
  end.

Definition cmdStop (o : Oracle) (args : list string) : Cmd bool :=
  match args with
  | [] => no_name
  | name :: _ =>
      (jail <- JailManagerPool.getJail name ;;
       match jail with
       | None => no_such name
       | Some p =>
           st <- call p getStatus ;;
           if JailStatus_eqb st STOPPED then
             cout ("Environment is already stopped" ++ endl) ;;
             cret true
           else
             cout ("Stopping environment: " ++ name ++ endl) ;;
             ok <- call p (stop o) ;;
             if negb ok then
               cerr ("Error: Failed to stop environment" ++ endl) ;;
               cret false
             else
               cout ("Environment stopped" ++ endl) ;;
               cret true
       end)%cmd
  end.

Definition cmdRestart (o : Oracle) (args : list string) : Cmd bool :=
  match args with
  | [] => no_name
  | name :: _ =>
      (cout ("Restarting environment: " ++ name ++ endl) ;;
       stopped <- cmdStop o args ;;
       if negb stopped then cret false
       else
         sleep_one_second ;;
         cmdStart o args)%cmd
  end.

(** The command line [cmdExec] builds from [args[1..]]. *)
Fixpoint join_args (first : bool) (args : list string) : string :=
  match args with
  | [] => ""
  | a :: rest => (if first then "" else " ") ++ a ++ join_args false rest
  end.

Definition cmdExec (o : Oracle) (args : list string) : Cmd bool :=
  match args with
  | name :: (_ :: _) as rest =>
      let command := join_args true rest in
      (jail <- JailManagerPool.getJail name ;;
       match jail with
       | None => no_such name
       | Some p =>
           cout ("Executing: " ++ command ++ endl) ;;
           output <- call p (execute o command) ;;
           cout (output ++ endl) ;;
           cret true
       end)%cmd
  | _ =>
      (cerr ("Error: Insufficient arguments" ++ endl) ;;
       cerr ("Usage: agi exec <name> <command>" ++ endl) ;;
       cret false)%cmd
  end.

(** [cmdRemove]; [confirm] is the character [std::cin >> confirm] extracts. *)
Definition cmdRemove (o : Oracle) (args : list string) (confirm : ascii)
  : Cmd bool :=
  match args with
  | [] => no_name
  | name :: _ =>
      (jail <- JailManagerPool.getJail name ;;
       match jail with
       | None => no_such name
       | Some p =>
           cout ("Warning: This will permanently delete environment '"
                 ++ name ++ "'" ++ endl) ;;
           cout "Confirm deletion? (Enter y to confirm): " ;;
           if negb (Ascii.eqb confirm "y") && negb (Ascii.eqb confirm "Y") then
             cout ("Cancelled" ++ endl) ;;
             cret true
           else
             cout ("Deleting environment: " ++ name ++ endl) ;;
             ok <- call p (destroy o) ;;
             if negb ok then
               cerr ("Error: Failed to delete environment" ++ endl) ;;
               cret false
             else
               _ <- JailManagerPool.removeEnvironment o name ;;
               cout ("Environment deleted" ++ endl) ;;
               cret true
       end)%cmd
  end.

(** The handler with its pool default-constructed and the configuration
    loaded, and the handler as [main] has it when it reaches
    [handleCommand]: the pool filled by [run]. *)
Definition new_cli (envs : list EnvironmentConfig) (h : Host) : Cli :=
  mkCli (mkPool [] false false) envs h [].

Definition booted (envs : list EnvironmentConfig) (h : Host) : Cli :=
  cli_state (run_add_environments (new_cli envs h)).

(** The keys of a map in strictly increasing order. *)
Fixpoint keys_sorted (m : JailMap) : bool :=
  match m with
  | [] => true
  | (k, _) :: rest =>
      match rest with
      | [] => true
      | (k', _) :: _ => String.ltb k k' && keys_sorted rest
      end
  end.

(** From [s] to [s']: the same paths exist on the disk. *)
Definition keeps_disk (s s' : State) : Prop :=
  paths (host s') = paths (host s).

(** A handler whose pool owns the running jail [dev]. *)
Definition dev_cli : Cli :=
  mkCli (mkPool [("dev", jail running)] false false) [dev_config]
        (host running) [].

(** *** Notions for the retry policy *)




(** *** Notions for the log of [create] *)

(** The log entries [create()] makes, for the jail [j] and the disk as [s']
    has it: the two INFO entries of [create] itself; a DEBUG entry for a
    directory of the skeleton that was made, for a base executable that was
    copied, for a library that was copied and for the SSH configuration;
    and the warning for a base executable.  An entry for a copy is made only
    when the file was read, so the file exists and can be read. *)
Definition create_entry (o : Oracle) (j : Jail) (s' : State)
           (level msg : string) : Prop :=
  (level = "INFO" /\
   (msg = "Starting to create jail environment: " ++ name (config_ j) \/
    msg = "Jail environment created successfully: " ++ jail_path_ j)) \/
  (level = "DEBUG" /\
   ((exists dir, In dir (skeleton_dirs j) /\ msg = "Creating directory: " ++ dir) \/
    (exists b, In b essential_bins /\ unreadable o b s' = false /\
               msg = "Copying binary: " ++ b ++ " -> " ++ jail_path_ j ++ b) \/
    (exists lib, In lib essential_libs /\ unreadable o lib s' = false /\
                 msg = "Copying library: " ++ lib) \/
    msg = "Generating SSH configuration")) \/
  (exists b, In b essential_bins /\ EvLog level msg = copy_warning b).

(** From [s] to [s']: the manager is untouched, nothing leaves the disk, and
    every log entry the trace gains is one of [create_entry]. *)
Definition logs_create (o : Oracle) (j : Jail) (s s' : State) : Prop :=
  jail s' = jail s /\
  (forall p, mem_path p (paths (host s)) = true ->
             mem_path p (paths (host s')) = true) /\
  exists d, trace (host s') = (trace (host s) ++ d)%list /\
            forall level msg, In (EvLog level msg) d -> create_entry o j s' level msg.

(** Run on the manager [j], [m] returns and logs as [create] does. *)
Definition runs_from (o : Oracle) (j : Jail) {A} (m : M A) : Prop :=
  forall s, jail s = j -> exists a s', m s = Ret a s' /\ logs_create o j s s'.

(** ** Basic facts *)

Lemma JailStatus_eqb_spec a b : reflect (a = b) (JailStatus_eqb a b).
Proof. destruct a, b; simpl; constructor; congruence. Qed.

Lemma with_mutex_restore (j : Jail) :
  mutex_ j = false -> with_mutex false (with_mutex true j) = j.
Proof. destruct j; simpl; intros ->; reflexivity. Qed.

Lemma JailStatus_eqb_neq (a b : JailStatus) :
  a <> b -> JailStatus_eqb a b = false.
Proof. intros H; destruct (JailStatus_eqb_spec a b); congruence. Qed.

Example running_is_running :
  status_ (jail running) = RUNNING /\ sshd_pid_ (jail running) = 100 /\
  map target (active_mounts_ (jail running)) =
    [dev_path ++ "/proc"; dev_path ++ "/sys"; dev_path ++ "/dev/pts";
     dev_path ++ "/tmp"] /\
  mounted (host running) = map target (active_mounts_ (jail running)).
Proof. vm_compute. repeat split. Qed.
(** ** Program logic: rules *)

Section Rules.

Variable R : State -> State -> Prop.
Hypothesis R_refl : forall s, R s s.
Hypothesis R_trans : forall s1 s2 s3, R s1 s2 -> R s2 s3 -> R s1 s3.

Lemma runs_steps {A} (m : M A) : runs R m -> steps R m.
Proof.
  intros H s. destruct (H s) as (a & s' & -> & HR). exact HR.
Qed.

Lemma steps_ret {A} (a : A) : steps R (ret a).
Proof. intros s. apply R_refl. Qed.

Lemma runs_ret {A} (a : A) : runs R (ret a).
Proof. intros s. exists a, s. split; [reflexivity | apply R_refl]. Qed.

Lemma steps_throw {A} (e : Exn) : steps R (@throw A e).
Proof. intros s. apply R_refl. Qed.

Lemma steps_bind {A B} (m : M A) (k : A -> M B) :
  steps R m -> (forall a, steps R (k a)) -> steps R (bind m k).
Proof.
  intros Hm Hk s. unfold bind. specialize (Hm s).
  destruct (m s) as [a s1 | e s1 | s1]; try assumption.
  specialize (Hk a s1). destruct (k a s1); try assumption; eapply R_trans; eassumption.
Qed.

Lemma runs_bind {A B} (m : M A) (k : A -> M B) :
  runs R m -> (forall a, runs R (k a)) -> runs R (bind m k).
Proof.
  intros Hm Hk s. unfold bind.
  destruct (Hm s) as (a & s1 & -> & H1).
  destruct (Hk a s1) as (b & s2 & -> & H2).
  exists b, s2. split; [reflexivity | eapply R_trans; eassumption].
Qed.

Lemma steps_try_catch {A} (body : M A) (handler : Exn -> M A) :
  steps R body -> (forall e, steps R (handler e)) ->
  steps R (try_catch body handler).
Proof.
  intros Hb Hh s. unfold try_catch. specialize (Hb s).
  destruct (body s) as [a s1 | e s1 | s1]; try assumption.
  specialize (Hh e s1). destruct (handler e s1); try assumption; eapply R_trans; eassumption.
Qed.

Lemma runs_try_catch {A} (body : M A) (handler : Exn -> M A) :
  steps R body -> (forall e, runs R (handler e)) ->
  runs R (try_catch body handler).
Proof.
  intros Hb Hh s. unfold try_catch. specialize (Hb s).
  destruct (body s) as [a s1 | e s1 | s1]; [ | | contradiction].
  - exists a, s1. split; [reflexivity | assumption].
  - destruct (Hh e s1) as (b & s2 & -> & H2).
    exists b, s2. split; [reflexivity | eapply R_trans; eassumption].
Qed.

Lemma steps_for_each {A} (xs : list A) (body : A -> M unit) :
  (forall x, In x xs -> steps R (body x)) -> steps R (for_each xs body).
Proof.
  induction xs as [| x xs IH]; intros H; simpl.
  - apply steps_ret.
  - apply steps_bind; [apply H; left; reflexivity |].
    intros _. apply IH. intros y Hy. apply H. right. exact Hy.
Qed.

Lemma runs_for_each {A} (xs : list A) (body : A -> M unit) :
  (forall x, In x xs -> runs R (body x)) -> runs R (for_each xs body).
Proof.
  induction xs as [| x xs IH]; intros H; simpl.
  - apply runs_ret.
  - apply runs_bind; [apply H; left; reflexivity |].
    intros _. apply IH. intros y Hy. apply H. right. exact Hy.
Qed.

Lemma steps_if {A} (c : bool) (m1 m2 : M A) :
  steps R m1 -> steps R m2 -> steps R (if c then m1 else m2).
Proof. destruct c; auto. Qed.

Lemma runs_if {A} (c : bool) (m1 m2 : M A) :
  runs R m1 -> runs R m2 -> runs R (if c then m1 else m2).
Proof. destruct c; auto. Qed.

Lemma runs_get_jail : runs R get_jail.
Proof. intros s. exists (jail s), s. split; [reflexivity | apply R_refl]. Qed.

End Rules.

Lemma steps_weaken {A} (R R' : State -> State -> Prop) (m : M A) :
  (forall s s', R s s' -> R' s s') -> steps R m -> steps R' m.
Proof.
  intros HRR H s. specialize (H s). destruct (m s); auto.
Qed.

Lemma runs_weaken {A} (R R' : State -> State -> Prop) (m : M A) :
  (forall s s', R s s' -> R' s s') -> runs R m -> runs R' m.
Proof.
  intros HRR H s. destruct (H s) as (a & s' & E & HR). eauto.
Qed.

Lemma same_jail_refl s : same_jail s s.
Proof. reflexivity. Qed.

Lemma same_jail_trans s1 s2 s3 : same_jail s1 s2 -> same_jail s2 s3 -> same_jail s1 s3.
Proof. unfold same_jail. congruence. Qed.

Lemma grows_refl s : grows s s.
Proof.
  split; [reflexivity | split; [auto |]].
  exists []. split; [symmetry; apply app_nil_r | constructor].
Qed.

Lemma grows_trans s1 s2 s3 : grows s1 s2 -> grows s2 s3 -> grows s1 s3.
Proof.
  intros (J1 & P1 & d1 & T1 & Q1) (J2 & P2 & d2 & T2 & Q2).
  split; [congruence | split; [auto |]].
  exists (d1 ++ d2)%list. split.
  - rewrite T2, T1. symmetry. apply app_assoc.
  - apply Forall_app. split; assumption.
Qed.

Lemma grows_same_jail s s' : grows s s' -> same_jail s s'.
Proof. intros (J & _). exact J. Qed.

(** ** The host calls *)

Lemma mem_path_app p ps qs :
  mem_path p (ps ++ qs) = mem_path p ps || mem_path p qs.
Proof. unfold mem_path. apply existsb_app. Qed.

Lemma mem_path_add_path p q ps :
  mem_path p ps = true -> mem_path p (add_path q ps) = true.
Proof.
  intros H. unfold add_path. destruct (mem_path q ps); [exact H |].
  rewrite mem_path_app, H. reflexivity.
Qed.

Lemma mem_path_fold_add p ds ps :
  mem_path p ps = true ->
  mem_path p (fold_left (fun ps d => add_path d ps) ds ps) = true.
Proof.
  revert ps. induction ds as [| d ds IH]; intros ps H; simpl; [exact H |].
  apply IH. apply mem_path_add_path. exact H.
Qed.

Lemma grows_host (s : State) (h' : Host) (d : list Event) :
  (forall p, mem_path p (paths (host s)) = true -> mem_path p (paths h') = true) ->
  trace h' = (trace (host s) ++ d)%list ->
  Forall quiet d ->
  grows s (set_host h' s).
Proof.
  intros HP HT HQ. split; [reflexivity | split; [exact HP |]].
  exists d. split; assumption.
Qed.

Lemma quiet_one (e : Event) : quiet e -> Forall quiet [e].
Proof. intros H. constructor; [exact H | constructor]. Qed.

Section HostCalls.

Variable o : Oracle.

Ltac host_call :=
  intros s;
  repeat match goal with
         | |- context [if ?c then _ else _] => destruct c
         | |- context [match ?x with _ => _ end] => destruct x
         end;
  try (eexists _, _; split; [reflexivity |]); try reflexivity.

Lemma fs_exists_steps p : steps grows (fs_exists o p).
Proof.
  intros s. unfold fs_exists. destruct (exists_fails o p); apply grows_refl.
Qed.

Lemma fs_exists_runs p :
  exists_fails o p = false -> runs grows (fs_exists o p).
Proof.
  intros H s. unfold fs_exists. rewrite H.
  eexists _, _. split; [reflexivity | apply grows_refl].
Qed.

Lemma create_directories_steps p : steps grows (create_directories o p).
Proof.
  intros s. unfold create_directories.
  destruct (mkdirs_fails o p); [apply grows_refl |].
  apply grows_host with (d := [EvMkdirs p]).
  - intros q Hq. simpl. apply mem_path_fold_add. exact Hq.
  - reflexivity.
  - apply quiet_one. exact I.
Qed.

Lemma create_directories_runs p :
  mkdirs_fails o p = false -> runs grows (create_directories o p).
Proof.
  intros H s. pose proof (create_directories_steps p s) as G.
  unfold create_directories in *. rewrite H in *.
  eexists _, _. split; [reflexivity | exact G].
Qed.

Lemma remove_all_steps p : steps same_jail (remove_all o p).
Proof. unfold remove_all. host_call. Qed.

Lemma FileUtils_read_steps p : steps grows (FileUtils_read o p).
Proof.
  intros s. unfold FileUtils_read.
  destruct (mem_path p (paths (host s)) && can_read o p); apply grows_refl.
Qed.

Lemma FileUtils_write_runs p c : runs grows (FileUtils_write o p c).
Proof.
  intros s. unfold FileUtils_write. destruct (can_write o p).
  - eexists _, _. split; [reflexivity |].
    apply grows_host with (d := [EvWrite p c]).
    + intros q Hq. simpl. apply mem_path_add_path. exact Hq.
    + reflexivity.
    + apply quiet_one. exact I.
  - eexists _, _. split; [reflexivity | apply grows_refl].
Qed.

Lemma emit_runs_grows e : quiet e -> runs grows (emit e).
Proof.
  intros Q s. eexists _, _. split; [reflexivity |].
  apply grows_host with (d := [e]); [auto | reflexivity | apply quiet_one; exact Q].
Qed.

Lemma sys_chmod_runs p m : runs grows (sys_chmod p m).
Proof. apply emit_runs_grows. exact I. Qed.

Lemma sys_mknod_runs p k a b : runs grows (sys_mknod o p k a b).
Proof.
  intros s. unfold sys_mknod. eexists _, _. split; [reflexivity |].
  apply grows_host with (d := [EvMknod p k a b]).
  - intros q Hq. destruct (mknod_ok o p); simpl; [apply mem_path_add_path |]; exact Hq.
  - destruct (mknod_ok o p); reflexivity.
  - apply quiet_one. exact I.
Qed.

Lemma log_runs_grows level msg :
  quiet (EvLog level msg) -> runs grows (log level msg).
Proof.
  intros Q s. unfold log. destruct (logger_ (jail s)).
  - apply emit_runs_grows. exact Q.
  - eexists _, _. split; [reflexivity | apply grows_refl].
Qed.

Lemma log_runs level msg : runs same_jail (log level msg).
Proof. unfold log, emit, modify_host. host_call. Qed.

Lemma sys_setrlimit_runs r c m : runs same_jail (sys_setrlimit r c m).
Proof. unfold sys_setrlimit, emit, modify_host. host_call. Qed.

Lemma sys_mount_runs a b c d e : runs same_jail (sys_mount o a b c d e).
Proof. unfold sys_mount. host_call. Qed.

Lemma sys_umount_runs t : runs same_jail (sys_umount o t).
Proof. unfold sys_umount. host_call. Qed.

Lemma sleep_ms_runs ms : runs same_jail (sleep_ms ms).
Proof. unfold sleep_ms, emit, modify_host. host_call. Qed.

Lemma sys_fork_runs c : runs same_jail (sys_fork o c).
Proof. unfold sys_fork. host_call. Qed.

Lemma sys_kill_runs p sg : runs same_jail (sys_kill p sg).
Proof. unfold sys_kill, emit, modify_host. host_call. Qed.

Lemma sys_waitpid_runs p : runs same_jail (sys_waitpid o p).
Proof. unfold sys_waitpid. host_call. Qed.

Lemma now_runs : runs same_jail (now o).
Proof. unfold now. host_call. Qed.

End HostCalls.

(** ** Helpers of the manager that leave its fields alone *)

Ltac compose rfl trn leaf :=
  cbv zeta;
  repeat first
    [ leaf
    | apply steps_for_each; [exact rfl | exact trn | intros ? ?]
    | apply runs_for_each; [exact rfl | exact trn | intros ? ?]
    | apply steps_bind; [exact trn | | intro]
    | apply runs_bind; [exact trn | | intro]
    | apply steps_try_catch; [exact trn | | intro]
    | apply runs_try_catch; [exact trn | | intro]
    | apply steps_if
    | apply runs_if
    | apply steps_ret; exact rfl
    | apply runs_ret; exact rfl
    | apply steps_throw; exact rfl
    | apply runs_get_jail; exact rfl
    | apply runs_steps; apply runs_get_jail; exact rfl ].

Create HintDb grow_steps.
Create HintDb grow_runs.
Create HintDb same_runs.
Create HintDb same_steps.

#[export] Hint Resolve fs_exists_steps create_directories_steps
  FileUtils_read_steps : grow_steps.
#[export] Hint Resolve FileUtils_write_runs sys_chmod_runs sys_mknod_runs
  : grow_runs.
#[export] Hint Resolve log_runs sys_setrlimit_runs sys_mount_runs
  sys_umount_runs sleep_ms_runs sys_fork_runs sys_kill_runs sys_waitpid_runs
  now_runs : same_runs.
#[export] Hint Resolve remove_all_steps : same_steps.

Ltac grow_leaf :=
  first [ solve [auto with grow_steps]
        | apply runs_steps; solve [auto with grow_runs]
        | solve [auto with grow_runs]
        | apply runs_steps; apply log_runs_grows; simpl; intros [? | ?]; discriminate
        | apply log_runs_grows; simpl; intros [? | ?]; discriminate ].

Ltac grow := compose grows_refl grows_trans grow_leaf.

Ltac same_leaf :=
  first [ solve [auto with same_runs]
        | apply runs_steps; solve [auto with same_runs]
        | solve [auto with same_steps]
        | eapply steps_weaken; [exact grows_same_jail | solve [auto with grow_steps]]
        | eapply steps_weaken; [exact grows_same_jail |];
          apply runs_steps; solve [auto with grow_runs]
        | eapply runs_weaken; [exact grows_same_jail | solve [auto with grow_runs]] ].

Ltac same := compose same_jail_refl same_jail_trans same_leaf.

Section Helpers.

Variable o : Oracle.

Lemma createDirectoryStructure_steps : steps grows (createDirectoryStructure o).
Proof. unfold createDirectoryStructure. grow. Qed.

(** The guarded copy inside [copyBinary]: it returns whatever happens, and
    warns exactly when the read throws. *)
Lemma copy_attempt_runs (path dest : string) :
  In path essential_bins ->
  runs grows
    (try_catch
       (content <- FileUtils_read o path ;;
        _ <- FileUtils_write o dest content ;;
        sys_chmod dest 493 ;;
        log "DEBUG" ("Copying binary: " ++ path ++ " -> " ++ dest))
       (fun e => log "WARN" ("Cannot copy binary: " ++ path ++ " - " ++ what e))).
Proof.
  intros Hin s. unfold try_catch. unfold bind at 1. unfold FileUtils_read.
  destruct (mem_path path (paths (host s)) && can_read o path).
  - match goal with
    | |- context [bind ?m ?k s] =>
        assert (Hk : runs grows (bind m k)) by grow;
        destruct (Hk s) as (a & s' & -> & G)
    end.
    exists a, s'. split; [reflexivity | exact G].
  - apply log_runs_grows. simpl. intros _.
    exists path. split; [exact Hin | reflexivity].
Qed.

Lemma copyBinary_steps path :
  In path essential_bins -> steps grows (copyBinary o path).
Proof.
  intros Hin. unfold copyBinary.
  compose grows_refl grows_trans
    ltac:(first [ apply runs_steps; apply copy_attempt_runs; exact Hin
                | grow_leaf ]).
Qed.

End Helpers.
Section Helpers2.

Variable o : Oracle.

Lemma copyLibrary_steps lib : steps grows (copyLibrary o lib).
Proof. unfold copyLibrary. grow. Qed.

Lemma copyBaseSystem_steps : steps grows (copyBaseSystem o).
Proof.
  unfold copyBaseSystem, copyEssentialLibraries.
  compose grows_refl grows_trans
    ltac:(first [ apply copyBinary_steps; assumption
                | apply copyLibrary_steps ]).
Qed.

Lemma createDeviceNodes_steps : steps grows (createDeviceNodes o).
Proof. unfold createDeviceNodes, createDeviceNode. grow. Qed.

Lemma generateSshConfig_steps : steps grows (generateSshConfig o).
Proof. unfold generateSshConfig. grow. Qed.

Lemma createInitScripts_steps : steps grows (createInitScripts o).
Proof. unfold createInitScripts. grow. Qed.

Lemma setResourceLimits_runs : runs same_jail setResourceLimits.
Proof. unfold setResourceLimits. same. Qed.

Lemma umount_retry_runs tgt n : runs same_jail (umount_retry o tgt n).
Proof.
  induction n as [| n IH]; simpl.
  - same.
  - apply runs_bind; [exact same_jail_trans | same |].
    intros [| errno]; [same |].
    destruct (errno =? EBUSY); [| same].
    apply runs_bind; [exact same_jail_trans | same | intros _; exact IH].
Qed.

Lemma runScript_steps script : steps same_jail (runScript o script).
Proof. unfold runScript. same. Qed.

Lemma runInitScript_steps : steps same_jail (runInitScript o).
Proof.
  unfold runInitScript.
  compose same_jail_refl same_jail_trans ltac:(apply runScript_steps).
Qed.

Lemma runCleanupScript_steps : steps same_jail (runCleanupScript o).
Proof.
  unfold runCleanupScript.
  compose same_jail_refl same_jail_trans ltac:(apply runScript_steps).
Qed.

Lemma runScript_runs script :
  exists_fails o script = false -> runs same_jail (runScript o script).
Proof.
  intros H. unfold runScript.
  compose same_jail_refl same_jail_trans
    ltac:(first [ eapply runs_weaken; [exact grows_same_jail |];
                  apply fs_exists_runs; exact H
                | same_leaf ]).
Qed.

End Helpers2.
(** ** Triples on the manager's fields *)

Lemma jt_conseq {A} (P P' : Jail -> Prop) (m : M A)
      (Q Q' : A -> Jail -> Prop) (E E' : Jail -> Prop) :
  jtriple P' m Q' E' ->
  (forall j, P j -> P' j) ->
  (forall a j, Q' a j -> Q a j) ->
  (forall j, E' j -> E j) ->
  jtriple P m Q E.
Proof.
  intros H HP HQ HE s Hs. specialize (H s (HP _ Hs)).
  destruct (m s); auto.
Qed.

Lemma jt_throw {A} (e : Exn) (P : Jail -> Prop) (Q : A -> Jail -> Prop) :
  jtriple P (throw e) Q P.
Proof. intros s Hs. exact Hs. Qed.

Lemma jt_bind {A B} (P : Jail -> Prop) (m : M A) (Q : A -> Jail -> Prop)
      (k : A -> M B) (R : B -> Jail -> Prop) (E : Jail -> Prop) :
  jtriple P m Q E -> (forall a, jtriple (Q a) (k a) R E) ->
  jtriple P (bind m k) R E.
Proof.
  intros Hm Hk s Hs. unfold bind. specialize (Hm s Hs).
  destruct (m s) as [a s1 | e s1 | s1]; try assumption.
  exact (Hk a s1 Hm).
Qed.

Lemma jt_try_catch {A} (P : Jail -> Prop) (body : M A) (handler : Exn -> M A)
      (Q : A -> Jail -> Prop) (E' E : Jail -> Prop) :
  jtriple P body Q E' -> (forall e, jtriple E' (handler e) Q E) ->
  jtriple P (try_catch body handler) Q E.
Proof.
  intros Hb Hh s Hs. unfold try_catch. specialize (Hb s Hs).
  destruct (body s) as [a s1 | e s1 | s1]; try assumption.
  exact (Hh e s1 Hb).
Qed.

(** Frame rules: a computation that leaves the manager alone keeps any
    assertion about it. *)
Lemma jt_steps {A} (P : Jail -> Prop) (m : M A) :
  steps same_jail m -> jtriple P m (fun _ => P) P.
Proof.
  intros H s Hs. specialize (H s). unfold same_jail in H.
  destruct (m s); try rewrite H; assumption.
Qed.

Lemma jt_runs {A} (P : Jail -> Prop) (m : M A) (E : Jail -> Prop) :
  runs same_jail m -> jtriple P m (fun _ => P) E.
Proof.
  intros H s Hs. destruct (H s) as (a & s' & -> & HJ).
  unfold same_jail in HJ. rewrite HJ. exact Hs.
Qed.

Lemma jt_get (P : Jail -> Prop) (E : Jail -> Prop) :
  jtriple P get_jail (fun j' j => j' = j /\ P j) E.
Proof. intros s Hs. simpl. auto. Qed.

Lemma jt_modify (f : Jail -> Jail) (P : Jail -> Prop) (E : Jail -> Prop) :
  jtriple P (modify_jail f) (fun _ j => exists j0, P j0 /\ j = f j0) E.
Proof. intros s Hs. simpl. eauto. Qed.

Lemma jt_lock_guard {A} (P : Jail -> Prop) (body : M A)
      (Q : A -> Jail -> Prop) (E : Jail -> Prop) :
  jtriple (fun j => exists j0, P j0 /\ mutex_ j0 = false /\ j = with_mutex true j0)
          body
          (fun a j => Q a (with_mutex false j))
          (fun j => E (with_mutex false j)) ->
  jtriple (fun j => P j /\ mutex_ j = false) (lock_guard body) Q E.
Proof.
  intros H s [Hs Hm]. unfold lock_guard. rewrite Hm.
  specialize (H (set_jail (with_mutex true (jail s)) s)). simpl in H.
  destruct (body _) as [a s1 | e s1 | s1]; simpl; apply H; eauto.
Qed.
(** ** The helpers that change the manager *)

Lemma concat_repeat_snoc {A} (l : list A) (k : nat) :
  (concat (repeat l k) ++ l)%list = concat (repeat l (S k)).
Proof.
  induction k as [| k IH]; simpl.
  - rewrite app_nil_r. reflexivity.
  - simpl in IH. rewrite <- app_assoc, IH. reflexivity.
Qed.

Lemma mount_calls_app (a b : list Event) :
  mount_calls (a ++ b) = (mount_calls a ++ mount_calls b)%list.
Proof.
  induction a as [| e a IH]; simpl; [reflexivity |].
  destruct e; simpl; rewrite ?IH; reflexivity.
Qed.

Lemma umount_calls_app (a b : list Event) :
  umount_calls (a ++ b) = (umount_calls a ++ umount_calls b)%list.
Proof.
  induction a as [| e a IH]; simpl; [reflexivity |].
  destruct e; simpl; rewrite ?IH; reflexivity.
Qed.

Section Mutators.

Variable o : Oracle.

(** One [mount] call followed by its [addMountInfo]: the record is appended
    whatever the call answers. *)
Lemma mount_step {A} (src tgt ty : string) (fl : Z) (data : option string)
      (opts : string) (rest : M A) (s : State) :
  exists h',
    (_ <- sys_mount o src tgt ty fl data ;;
     addMountInfo src tgt ty opts ;; rest) s =
      rest (mkState (with_mounts (active_mounts_ (jail s)
                                    ++ [mkMountInfo src tgt ty opts]) (jail s)) h') /\
    paths h' = paths (host s) /\
    trace h' = (trace (host s) ++ [EvMount src tgt ty fl data])%list /\
    mounted h' = (if mount_ok o tgt then mounted (host s) ++ [tgt]
                  else mounted (host s))%list.
Proof.
  unfold bind, sys_mount, addMountInfo, modify_jail.
  destruct (mount_ok o tgt); eexists; (split; [reflexivity |]); auto.
Qed.

(** [mountFilesystems] appends its four records whatever [mount] answers,
    and calls [mount] on their targets in the same order. *)
Lemma mountFilesystems_spec (s : State) :
  exists h',
    mountFilesystems o s =
      Ret tt (mkState (with_mounts (active_mounts_ (jail s)
                                      ++ fixed_mounts (jail_path_ (jail s)))
                                   (jail s)) h') /\
    paths h' = paths (host s) /\
    mount_calls (trace h') =
      (mount_calls (trace (host s))
         ++ map target (fixed_mounts (jail_path_ (jail s))))%list /\
    umount_calls (trace h') = umount_calls (trace (host s)).
Proof.
  unfold mountFilesystems. unfold bind at 1. unfold get_jail at 1.
  destruct (mount_step "proc" (jail_path_ (jail s) ++ "/proc") "proc" 0 None ""
              (_ <- sys_mount o "sysfs" (jail_path_ (jail s) ++ "/sys") "sysfs" 0 None ;;
               addMountInfo "sysfs" (jail_path_ (jail s) ++ "/sys") "sysfs" "" ;;
               _ <- sys_mount o "devpts" (jail_path_ (jail s) ++ "/dev/pts") "devpts" 0
                      (Some "gid=5,mode=620") ;;
               addMountInfo "devpts" (jail_path_ (jail s) ++ "/dev/pts") "devpts"
                            "gid=5,mode=620" ;;
               _ <- sys_mount o "/tmp" (jail_path_ (jail s) ++ "/tmp") "none" MS_BIND None ;;
               addMountInfo "/tmp" (jail_path_ (jail s) ++ "/tmp") "none" "bind" ;;
               log "DEBUG" "Filesystem mounting completed") s)
    as (h1 & -> & P1 & T1 & _).
  match goal with |- context [bind ?m ?k ?st] =>
    destruct (mount_step "sysfs" (jail_path_ (jail s) ++ "/sys") "sysfs" 0 None ""
              (_ <- sys_mount o "devpts" (jail_path_ (jail s) ++ "/dev/pts") "devpts" 0
                      (Some "gid=5,mode=620") ;;
               addMountInfo "devpts" (jail_path_ (jail s) ++ "/dev/pts") "devpts"
                            "gid=5,mode=620" ;;
               _ <- sys_mount o "/tmp" (jail_path_ (jail s) ++ "/tmp") "none" MS_BIND None ;;
               addMountInfo "/tmp" (jail_path_ (jail s) ++ "/tmp") "none" "bind" ;;
               log "DEBUG" "Filesystem mounting completed") st)
    as (h2 & -> & P2 & T2 & _)
  end.
  match goal with |- context [bind ?m ?k ?st] =>
    destruct (mount_step "devpts" (jail_path_ (jail s) ++ "/dev/pts") "devpts" 0
                (Some "gid=5,mode=620") "gid=5,mode=620"
              (_ <- sys_mount o "/tmp" (jail_path_ (jail s) ++ "/tmp") "none" MS_BIND None ;;
               addMountInfo "/tmp" (jail_path_ (jail s) ++ "/tmp") "none" "bind" ;;
               log "DEBUG" "Filesystem mounting completed") st)
    as (h3 & -> & P3 & T3 & _)
  end.
  match goal with |- context [bind ?m ?k ?st] =>
    destruct (mount_step "/tmp" (jail_path_ (jail s) ++ "/tmp") "none" MS_BIND None
                "bind" (log "DEBUG" "Filesystem mounting completed") st)
    as (h4 & -> & P4 & T4 & _)
  end.
  cbn [jail host] in *.
  unfold log, emit, modify_host. cbn [jail host logger_ with_mounts set_host].
  destruct (logger_ (jail s)); eexists;
    (split; [cbn [with_mounts active_mounts_ config_ jail_path_ data_path_
                 run_path_ status_ sshd_pid_ start_time_ mutex_ logger_ jail
                 host set_host fixed_mounts];
             rewrite <- !app_assoc; reflexivity |]);
    cbn [paths trace add_event]; rewrite ?mount_calls_app, ?umount_calls_app;
    rewrite ?T4, ?mount_calls_app, ?umount_calls_app, ?T3, ?mount_calls_app,
      ?umount_calls_app, ?T2, ?mount_calls_app, ?umount_calls_app, ?T1,
      ?mount_calls_app, ?umount_calls_app;
    cbn [mount_calls umount_calls fixed_mounts map target];
    rewrite <- ?app_assoc, ?app_nil_r; repeat split; try congruence; reflexivity.
Qed.

Lemma jt_mountFilesystems (P : Jail -> Prop) (E : Jail -> Prop) :
  jtriple P (mountFilesystems o)
    (fun _ j => exists j0, P j0 /\
       j = with_mounts (active_mounts_ j0 ++ fixed_mounts (jail_path_ j0)) j0) E.
Proof.
  intros s Hs. destruct (mountFilesystems_spec s) as (h' & -> & _).
  simpl. eauto.
Qed.

Lemma jt_startSshd (P : Jail -> Prop) :
  jtriple P (startSshd o)
    (fun _ j => exists j0 p, P j0 /\ 0 < p /\ j = with_pid p j0) P.
Proof.
  intros s Hs. unfold startSshd, bind, get_jail, fs_exists, sys_fork.
  destruct (exists_fails o _); [exact Hs |].
  cbn [jail host set_host trace add_event].
  destruct (fork_rc o _) as [p |].
  - change (0 <? Z.pos p) with true. cbv iota.
    unfold modify_jail, log. cbn [jail set_jail set_host logger_ with_pid].
    destruct (logger_ (jail s)); simpl; exists (jail s), (Z.pos p);
      repeat split; auto; lia.
  - simpl. exact Hs.
Qed.

Lemma jt_stopSshd (P : Jail -> Prop) (E : Jail -> Prop) :
  jtriple P (stopSshd o)
    (fun _ j => exists j0, P j0 /\
       j = if 0 <? sshd_pid_ j0 then with_pid (-1) j0 else j0) E.
Proof.
  intros s Hs. unfold stopSshd, bind, get_jail.
  destruct (0 <? sshd_pid_ (jail s)) eqn:Hp.
  - unfold sys_kill, sys_waitpid, emit, modify_host, modify_jail, log.
    cbn [jail set_jail set_host logger_ with_pid].
    destruct (logger_ (jail s)); simpl; exists (jail s); rewrite Hp; auto.
  - simpl. exists (jail s). rewrite Hp. auto.
Qed.

Lemma unmount_loop_runs (ms : list MountInfo) :
  runs same_jail (for_each ms (fun it => umount_retry o (target it) 3)).
Proof.
  apply runs_for_each; [exact same_jail_refl | exact same_jail_trans |].
  intros it _. apply umount_retry_runs.
Qed.

Lemma jt_unmountAll (P : Jail -> Prop) (E : Jail -> Prop) :
  jtriple P (unmountAll o)
    (fun _ j => exists j0, P j0 /\ j = with_mounts [] j0) E.
Proof.
  unfold unmountAll.
  eapply jt_bind with (Q := fun _ => P).
  { eapply jt_conseq; [apply (jt_get P E) | | | ]; simpl; intuition. }
  intros j.
  eapply jt_bind with (Q := fun _ => P).
  - apply jt_runs. apply unmount_loop_runs.
  - intros _. apply jt_modify.
Qed.

End Mutators.
(** ** The invariant of the lifecycle *)

Lemma jt_modify_keep (f : Jail -> Jail) (P Q : Jail -> Prop) (E : Jail -> Prop) :
  (forall j, P j -> Q (f j)) ->
  jtriple P (modify_jail f) (fun _ => Q) E.
Proof. intros H s Hs. simpl. auto. Qed.

Lemma jt_ret_keep {A} (a : A) (P : Jail -> Prop) (Q : A -> Jail -> Prop)
      (E : Jail -> Prop) :
  (forall j, P j -> Q a j) -> jtriple P (ret a) Q E.
Proof. intros H s Hs. simpl. auto. Qed.

Lemma jt_pre {A} (P P' : Jail -> Prop) (m : M A)
      (Q : A -> Jail -> Prop) (E : Jail -> Prop) :
  (forall j, P j -> P' j) -> jtriple P' m Q E -> jtriple P m Q E.
Proof. intros HP H. eapply jt_conseq; eauto. Qed.

Lemma jt_exn {A} (P : Jail -> Prop) (m : M A)
      (Q : A -> Jail -> Prop) (E E' : Jail -> Prop) :
  (forall j, E' j -> E j) -> jtriple P m Q E' -> jtriple P m Q E.
Proof. intros HE H. eapply jt_conseq; eauto. Qed.

Lemma Stage_weaken a b j : Stage a b j -> Stage false false j.
Proof.
  intros (H1 & H2 & _). repeat split; auto; discriminate.
Qed.

Lemma Inv0_Stage j : Inv0 j -> Stage false false j.
Proof. intros (H1 & H2 & _). repeat split; auto; discriminate. Qed.

Lemma Stage_error a b j :
  Stage a b j -> Inv0 (with_status ERROR j).
Proof.
  intros (H1 & H2 & _). unfold Inv0, settled. simpl.
  repeat split; auto; discriminate.
Qed.

Lemma Stage_running j :
  Stage true true j -> Inv0 (with_status RUNNING j).
Proof.
  intros (H1 & H2 & H3 & H4). unfold Inv0, settled. simpl.
  repeat split; auto; discriminate.
Qed.

Lemma Stage_mounted a b j :
  Stage a b j ->
  Stage true b (with_mounts (active_mounts_ j ++ fixed_mounts (jail_path_ j)) j).
Proof.
  intros (H1 & (k & H2) & H3 & H4). repeat split; auto.
  - exists (S k). simpl active_mounts_. simpl jail_path_.
    rewrite H2. apply concat_repeat_snoc.
  - intros _. simpl. intros H. apply app_eq_nil in H. destruct H as [_ H].
    discriminate H.
Qed.

Lemma Stage_pid a b p j : 0 < p -> Stage a b j -> Stage a true (with_pid p j).
Proof.
  intros Hp (H1 & H2 & H3 & H4). repeat split; auto. right. exact Hp.
Qed.

Lemma Stage_unmounted a b j :
  Stage a b j -> sshd_pid_ j = -1 -> Inv0 (with_status STOPPED (with_mounts [] j)).
Proof.
  intros (H1 & H2 & _) Hp. unfold Inv0, settled, pid_ok, mounts_ok. simpl.
  repeat split; auto; try discriminate.
  exists O. reflexivity.
Qed.

Lemma Stage_no_pid a b j :
  Stage a b j ->
  Stage a false (if 0 <? sshd_pid_ j then with_pid (-1) j else j) /\
  sshd_pid_ (if 0 <? sshd_pid_ j then with_pid (-1) j else j) = -1.
Proof.
  intros (H1 & H2 & H3 & H4).
  destruct (0 <? sshd_pid_ j) eqn:Hp.
  - split; [| reflexivity].
    split; [left; reflexivity |].
    split; [exact H2 |]. split; [exact H3 | discriminate].
  - apply Z.ltb_ge in Hp. destruct H1 as [H1 | H1]; [| lia].
    split; [| exact H1].
    split; [left; exact H1 |].
    split; [exact H2 |]. split; [exact H3 | discriminate].
Qed.

Section Lifecycle.

Variable o : Oracle.

Lemma jt_locked {A} (body : M A) :
  jtriple Inv0 body (fun _ => Inv0) Inv0 ->
  jtriple Inv (lock_guard body) (fun _ => Inv) Inv.
Proof.
  intros H.
  eapply jt_conseq with (P' := fun j => Inv0 j /\ mutex_ j = false).
  - apply jt_lock_guard with (Q := fun _ => Inv) (E := Inv).
    eapply jt_conseq; [exact H | | | ]; simpl.
    + intros j (j0 & H0 & _ & ->). exact H0.
    + intros _ j Hj. split; [reflexivity | exact Hj].
    + intros j Hj. split; [reflexivity | exact Hj].
  - intros j [Hm Hj]. auto.
  - auto.
  - auto.
Qed.

Lemma start_keeps_Inv : jtriple Inv (start o) (fun _ => Inv) Inv.
Proof.
  unfold start. apply jt_locked.
  eapply jt_bind; [apply jt_get | intros j0]. simpl.
  destruct (JailStatus_eqb (status_ j0) RUNNING).
  { eapply jt_bind with (Q := fun _ => Inv0).
    - apply jt_pre with (P' := Inv0); [intros j [_ H]; exact H |].
      apply jt_runs. apply log_runs.
    - intros _. apply jt_ret_keep. auto. }
  apply jt_pre with (P' := Stage false false);
    [intros j [_ H]; apply Inv0_Stage; exact H |].
  apply jt_try_catch with (E' := Stage false false).
  - eapply jt_bind with (Q := fun _ => Stage false false);
      [apply jt_runs; apply log_runs | intros _].
    eapply jt_bind with (Q := fun _ => Stage false false);
      [apply jt_modify_keep; auto | intros _].
    eapply jt_bind with (Q := fun _ => Stage false false);
      [apply jt_steps; eapply steps_weaken;
       [exact grows_same_jail | apply fs_exists_steps] | intros b].
    eapply jt_bind with (Q := fun _ => Stage false false).
    { destruct b; simpl; [apply jt_ret_keep; auto | apply jt_throw]. }
    intros _.
    eapply jt_bind with (Q := fun _ => Stage false false);
      [apply jt_runs; apply setResourceLimits_runs | intros _].
    eapply jt_bind with (Q := fun _ => Stage true false).
    { eapply jt_conseq; [apply jt_mountFilesystems | | | ]; simpl.
      - intros j H; exact H.
      - intros _ j (j1 & H1 & ->). exact (Stage_mounted _ _ _ H1).
      - intros j H; exact H. }
    intros _.
    eapply jt_bind with (Q := fun _ => Stage true true).
    { eapply jt_conseq; [apply jt_startSshd | | | ]; simpl.
      - intros j H; exact H.
      - intros _ j (j1 & p & H1 & Hp & ->). exact (Stage_pid _ _ _ _ Hp H1).
      - intros j H. eapply Stage_weaken. exact H. }
    intros _.
    eapply jt_bind with (Q := fun _ => Stage true true).
    { eapply jt_exn; [| apply jt_steps; apply runInitScript_steps].
      intros j H. eapply Stage_weaken. exact H. }
    intros _.
    eapply jt_bind with (Q := fun _ => Inv0);
      [apply jt_modify_keep; intros j H; apply Stage_running; exact H | intros _].
    eapply jt_bind with (Q := fun _ => Inv0);
      [apply jt_runs; apply now_runs | intros t].
    eapply jt_bind with (Q := fun _ => Inv0);
      [apply jt_modify_keep; auto | intros _].
    eapply jt_bind with (Q := fun _ => Inv0);
      [apply jt_runs; apply log_runs | intros _].
    apply jt_ret_keep. auto.
  - intros e.
    eapply jt_bind with (Q := fun _ => Inv0);
      [apply jt_modify_keep; intros j H; eapply Stage_error; exact H | intros _].
    eapply jt_bind with (Q := fun _ => Inv0);
      [apply jt_runs; apply log_runs | intros _].
    apply jt_ret_keep. auto.
Qed.

End Lifecycle.

#[export] Hint Resolve createDirectoryStructure_steps copyBaseSystem_steps
  createDeviceNodes_steps generateSshConfig_steps createInitScripts_steps
  : grow_steps.
#[export] Hint Resolve runInitScript_steps runCleanupScript_steps
  runScript_steps : same_steps.
#[export] Hint Resolve setResourceLimits_runs umount_retry_runs : same_runs.

Section Lifecycle2.

Variable o : Oracle.

Lemma stop_body_keeps_Inv0 : jtriple Inv0 (stop_body o) (fun _ => Inv0) Inv0.
Proof.
  unfold stop_body.
  eapply jt_bind; [apply jt_get | intros j0]. simpl.
  destruct (JailStatus_eqb (status_ j0) STOPPED).
  { apply jt_ret_keep. intros j [_ H]. exact H. }
  apply jt_pre with (P' := Stage false false);
    [intros j [_ H]; apply Inv0_Stage; exact H |].
  apply jt_try_catch with (E' := Stage false false).
  - eapply jt_bind with (Q := fun _ => Stage false false);
      [apply jt_runs; apply log_runs | intros _].
    eapply jt_bind with (Q := fun _ => Stage false false);
      [apply jt_modify_keep; auto | intros _].
    eapply jt_bind
      with (Q := fun _ j => Stage false false j /\ sshd_pid_ j = -1).
    { eapply jt_conseq;
        [apply (jt_stopSshd o (Stage false false) (Stage false false)) | | | ];
        simpl; auto.
      intros _ j (j1 & H1 & ->). apply (Stage_no_pid _ _ _ H1). }
    intros _.
    eapply jt_bind
      with (Q := fun _ j => Stage false false j /\ sshd_pid_ j = -1).
    { eapply jt_exn; [| apply jt_steps; apply runCleanupScript_steps].
      intros j [H _]. exact H. }
    intros _.
    eapply jt_bind
      with (Q := fun _ j => exists j1, (Stage false false j1 /\ sshd_pid_ j1 = -1)
                                       /\ j = with_mounts [] j1).
    { apply jt_unmountAll. }
    intros _.
    eapply jt_bind with (Q := fun _ => Inv0).
    { apply jt_modify_keep. intros j (j1 & [H1 H2] & ->).
      exact (Stage_unmounted _ _ _ H1 H2). }
    intros _.
    eapply jt_bind with (Q := fun _ => Inv0);
      [apply jt_runs; apply log_runs | intros _].
    apply jt_ret_keep. auto.
  - intros e.
    eapply jt_bind with (Q := fun _ => Inv0);
      [apply jt_modify_keep; intros j H; eapply Stage_error; exact H | intros _].
    eapply jt_bind with (Q := fun _ => Inv0);
      [apply jt_runs; apply log_runs | intros _].
    apply jt_ret_keep. auto.
Qed.

Lemma stop_keeps_Inv : jtriple Inv (stop o) (fun _ => Inv) Inv.
Proof. apply jt_locked. apply stop_body_keeps_Inv0. Qed.

Lemma create_keeps_Inv : jtriple Inv (create o) (fun _ => Inv) Inv.
Proof.
  unfold create. apply jt_locked. apply jt_steps. same.
Qed.

Lemma getRuntimeInfo_keeps_Inv : jtriple Inv getRuntimeInfo (fun _ => Inv) Inv.
Proof.
  unfold getRuntimeInfo. apply jt_locked. apply jt_steps. same.
Qed.

Lemma execute_steps command : steps same_jail (execute o command).
Proof.
  unfold execute.
  apply steps_bind; [exact same_jail_trans | same | intros j].
  destruct (negb _); [same |].
  apply steps_bind; [exact same_jail_trans | same | intros pid].
  destruct (0 <? pid); [| same].
  apply steps_bind; [exact same_jail_trans | same | intros [code |]]; [| same].
  destruct (code =? 0); same.
Qed.

Lemma validateConfig_steps : steps same_jail validateConfig.
Proof.
  unfold validateConfig.
  apply steps_bind; [exact same_jail_trans | same | intros j].
  destruct (String.eqb _ _); [same |].
  destruct (_ || _); [same |].
  destruct (string_contains _ _); same.
Qed.

Lemma jail_exists_steps : steps same_jail (jail_exists o).
Proof. unfold jail_exists. same. Qed.

Lemma jt_after {A} (P : Jail -> Prop) (m : M A) (s s' : State) :
  jtriple P m (fun _ => P) P ->
  P (jail s) -> after (m s) = Some s' -> P (jail s').
Proof.
  intros H Hs. specialize (H s Hs). unfold after.
  destruct (m s); intros Heq; try discriminate; injection Heq as <-; exact H.
Qed.

Lemma destroy_blocks (s : State) : after (destroy o s) = None.
Proof.
  unfold destroy, lock_guard.
  destruct (mutex_ (jail s)); reflexivity.
Qed.

Lemma run_op_keeps_Inv (op : Op) (s s' : State) :
  Inv (jail s) -> run_op o op s = Some s' -> Inv (jail s').
Proof.
  intros Hs. destruct op; simpl.
  - intros Heq. injection Heq as <-. exact Hs.
  - apply jt_after; [apply create_keeps_Inv | exact Hs].
  - apply jt_after; [apply start_keeps_Inv | exact Hs].
  - apply jt_after; [apply stop_keeps_Inv | exact Hs].
  - rewrite destroy_blocks. discriminate.
  - apply jt_after; [apply jt_steps; apply execute_steps | exact Hs].
  - apply jt_after; [apply getRuntimeInfo_keeps_Inv | exact Hs].
  - intros Heq. injection Heq as <-. exact Hs.
  - intros Heq. injection Heq as <-. exact Hs.
  - apply jt_after; [apply jt_steps; apply jail_exists_steps | exact Hs].
  - apply jt_after; [apply jt_steps; apply validateConfig_steps | exact Hs].
Qed.

Lemma new_jail_Inv (config : EnvironmentConfig) : Inv (new_jail config).
Proof.
  unfold Inv, Inv0, pid_ok, mounts_ok, settled. simpl.
  repeat split; auto; try discriminate.
  exists O. reflexivity.
Qed.

Lemma reachable_Inv (s : State) : reachable o s -> Inv (jail s).
Proof.
  induction 1 as [config h | s s' op _ IH Hop].
  - apply new_jail_Inv.
  - eapply run_op_keeps_Inv; eassumption.
Qed.

End Lifecycle2.

(** ** The claims *)

(** *** Locking *)

(** C1. [destroy()] takes the manager's mutex and then calls [stop()], which
    takes the same mutex again on the same thread: for every oracle and every
    state, [stop()] called with the mutex held blocks, and [destroy()] blocks
    with the mutex held and nothing else done, so it never completes. *)
Theorem destroy_relocks_mutex (o : Oracle) (s : State) :
  let locked := set_jail (with_mutex true (jail s)) s in
  stop o locked = Deadlock locked /\
  destroy o s = Deadlock (if mutex_ (jail s) then s else locked).
Proof.
  cbv zeta. split.
  - reflexivity.
  - unfold destroy, lock_guard.
    destruct (mutex_ (jail s)); reflexivity.
Qed.

(** *** [start] *)

(** C2, as the code has it.  [start()] on a jail that is not running and
    whose root is missing returns failure and sets the status to ERROR; the
    recorded mounts and process id, the disk and the mount table are as
    before, and only two log calls reach the trace (no mount, no fork). *)
Theorem start_missing_root_sets_error (o : Oracle) (s : State) :
  mutex_ (jail s) = false ->
  status_ (jail s) <> RUNNING ->
  exists_fails o (jail_path_ (jail s)) = false ->
  mem_path (jail_path_ (jail s)) (paths (host s)) = false ->
  start o s =
    Ret false
      (mkState (with_status ERROR (jail s))
         (add_events
            (log_events (jail s)
               [EvLog "INFO" ("Starting jail environment: " ++ name (config_ (jail s)));
                EvLog "ERROR" "Failed to start jail: Jail directory does not exist, please create it first"])
            (host s))).
Proof.
  intros Hm Hst Hex Hmem.
  unfold start, lock_guard. rewrite Hm.
  unfold bind at 1. unfold get_jail at 1. cbn [jail set_jail with_mutex status_].
  rewrite (JailStatus_eqb_neq _ _ Hst).
  unfold try_catch, bind, log, modify_jail, fs_exists, emit, modify_host, throw, ret.
  destruct s as [j h]. destruct j as [c jp dp rp st pid t ms mu lg].
  cbn in *. subst.
  destruct lg; cbn; rewrite Hex; cbn; rewrite Hmem; cbn.
  - unfold add_events, add_event. cbn. rewrite <- app_assoc. reflexivity.
  - unfold add_events. cbn. rewrite app_nil_r. destruct h; reflexivity.
Qed.

Lemma start_missing_root_witness :
  start calm fresh =
    Ret false
      (mkState (with_status ERROR (jail fresh))
         (add_events
            (log_events (jail fresh)
               [EvLog "INFO" ("Starting jail environment: " ++ name (config_ (jail fresh)));
                EvLog "ERROR" "Failed to start jail: Jail directory does not exist, please create it first"])
            (host fresh))).
Proof.
  apply (start_missing_root_sets_error calm fresh);
    [reflexivity | discriminate | reflexivity | reflexivity].
Defined.

(** The jail [fresh] is STOPPED and has no root on disk; [start()] does not
    leave it STOPPED. *)
Lemma start_missing_root_leaves_stopped_fails :
  status_ (jail fresh) = STOPPED /\
  mem_path (jail_path_ (jail fresh)) (paths (host fresh)) = false /\
  ~ (exists s', start calm fresh = Ret false s' /\ status_ (jail s') = STOPPED).
Proof.
  split; [reflexivity | split; [reflexivity |]].
  intros (s' & Hs & Hst). vm_compute in Hs.
  injection Hs as <-. discriminate Hst.
Qed.

Lemma count_forks_app (a b : list Event) :
  count_forks (a ++ b) = (count_forks a + count_forks b)%nat.
Proof.
  induction a as [| e a IH]; simpl; [reflexivity |].
  destruct e; simpl; rewrite ?IH; reflexivity.
Qed.

Lemma start_running_eq (o : Oracle) (s : State) :
  mutex_ (jail s) = false ->
  status_ (jail s) = RUNNING ->
  start o s =
    Ret true
      (mkState (jail s)
         (add_events (log_events (jail s) [EvLog "WARN" "Jail is already running"])
                     (host s))).
Proof.
  intros Hm Hst.
  unfold start, lock_guard. rewrite Hm.
  unfold bind at 1. unfold get_jail at 1. cbn [jail set_jail with_mutex status_].
  rewrite Hst. cbn [JailStatus_eqb].
  unfold bind, log, emit, modify_host, ret, add_events, log_events.
  destruct s as [j h]. destruct j as [c jp dp rp st pid t ms mu lg].
  cbn in *. subst.
  destruct lg; cbn; [reflexivity |].
  rewrite app_nil_r. destruct h; reflexivity.
Qed.

(** C10. [start()] on a RUNNING jail returns success and changes nothing in
    the manager: the state after is the state before plus one log call, so
    the active mounts and the process id are the same and the trace gains no
    mount and no fork. *)
Theorem start_running_is_noop (o : Oracle) (s : State) :
  mutex_ (jail s) = false ->
  status_ (jail s) = RUNNING ->
  exists s',
    start o s = Ret true s' /\
    s' = mkState (jail s)
           (add_events (log_events (jail s) [EvLog "WARN" "Jail is already running"])
                       (host s)) /\
    length (active_mounts_ (jail s')) = length (active_mounts_ (jail s)) /\
    sshd_pid_ (jail s') = sshd_pid_ (jail s) /\
    mount_calls (trace (host s')) = mount_calls (trace (host s)) /\
    count_forks (trace (host s')) = count_forks (trace (host s)) /\
    start o s' = Ret true
      (mkState (jail s)
         (add_events (log_events (jail s) [EvLog "WARN" "Jail is already running";
                                           EvLog "WARN" "Jail is already running"])
                     (host s))).
Proof.
  intros Hm Hst. eexists. split; [apply start_running_eq; assumption |].
  split; [reflexivity |]. cbn [jail host].
  split; [reflexivity |]. split; [reflexivity |].
  unfold add_events, log_events. cbn [trace].
  rewrite mount_calls_app, count_forks_app.
  split; [destruct (logger_ (jail s)); simpl; rewrite ?app_nil_r; reflexivity |].
  split; [destruct (logger_ (jail s)); simpl; rewrite ?Nat.add_0_r; reflexivity |].
  rewrite start_running_eq by assumption.
  cbn [jail host]. unfold add_events, log_events. cbn [paths mounted trace].
  destruct (logger_ (jail s)); rewrite <- app_assoc; reflexivity.
Qed.

Lemma start_running_witness :
  exists s',
    start calm running = Ret true s' /\
    s' = mkState (jail running)
           (add_events (log_events (jail running)
                                   [EvLog "WARN" "Jail is already running"])
                       (host running)) /\
    length (active_mounts_ (jail s')) = length (active_mounts_ (jail running)) /\
    sshd_pid_ (jail s') = sshd_pid_ (jail running) /\
    mount_calls (trace (host s')) = mount_calls (trace (host running)) /\
    count_forks (trace (host s')) = count_forks (trace (host running)) /\
    start calm s' = Ret true
      (mkState (jail running)
         (add_events (log_events (jail running)
                        [EvLog "WARN" "Jail is already running";
                         EvLog "WARN" "Jail is already running"])
                     (host running))).
Proof.
  apply (start_running_is_noop calm running); reflexivity.
Defined.

(** *** [execute] *)

(** C7, as the code has it.  On a jail that is not RUNNING, [execute] throws
    a [JailError] saying that the jail is not running; the state is untouched
    (no fork), and nothing inside [execute] catches the exception: it is the
    caller who receives it. *)
Theorem execute_not_running_throws (o : Oracle) (command : string) (s : State) :
  status_ (jail s) <> RUNNING ->
  execute o command s =
    Throw (mkExn JailError "Jail is not running, cannot execute command") s.
Proof.
  intros Hst. unfold execute, bind, get_jail.
  rewrite (JailStatus_eqb_neq _ _ Hst). reflexivity.
Qed.

Lemma execute_not_running_witness :
  execute calm "ls" fresh =
    Throw (mkExn JailError "Jail is not running, cannot execute command") fresh.
Proof.
  apply (execute_not_running_throws calm "ls" fresh). discriminate.
Defined.

(** On the STOPPED jail [fresh], [execute] hands its caller no result value. *)
Lemma execute_stopped_returns_no_value :
  status_ (jail fresh) = STOPPED /\
  ~ (exists (r : string) (s' : State), execute calm "ls" fresh = Ret r s').
Proof.
  split; [reflexivity |].
  intros (r & s' & H). vm_compute in H. discriminate H.
Qed.

(** *** Invariants of the reachable states *)

Lemma reachable_registered (o : Oracle) : reachable o registered.
Proof. apply reach_new. Qed.

Lemma reachable_created (o : Oracle) : reachable o created.
Proof.
  apply reach_op with (s := registered) (op := OpSetLogger true);
    [apply reachable_registered | reflexivity].
Qed.

Lemma reachable_after_start (o : Oracle) :
  reachable o (final_state (start o created)).
Proof.
  apply reach_op with (s := created) (op := OpStart);
    [apply reachable_created |].
  simpl. pose proof (start_keeps_Inv o created) as H.
  assert (Hc : Inv (jail created)) by (apply reachable_Inv with (o := o), reachable_created).
  specialize (H Hc). destruct (start o created); simpl; [reflexivity | reflexivity | contradiction].
Qed.

(** C3, as the code has it.  [mountFilesystems] appends its four records
    whatever [mount] answers, and [unmountAll] empties the list whatever
    [umount] answers; so in every reachable state the active-mounts list is
    some number of copies of those four records, it is empty when the status
    is STOPPED and non-empty when the status is RUNNING. *)
Theorem active_mounts_follow_attempts (o : Oracle) :
  (forall s,
     exists s',
       mountFilesystems o s = Ret tt s' /\
       jail s' =
         with_mounts (active_mounts_ (jail s) ++ fixed_mounts (jail_path_ (jail s)))
                     (jail s)) /\
  (forall s,
     exists s',
       unmountAll o s = Ret tt s' /\ jail s' = with_mounts [] (jail s)) /\
  (forall s,
     reachable o s ->
     mounts_ok (jail s) /\
     (status_ (jail s) = STOPPED -> active_mounts_ (jail s) = []) /\
     (status_ (jail s) = RUNNING -> active_mounts_ (jail s) <> [])).
Proof.
  split; [| split].
  - intros s. destruct (mountFilesystems_spec o s) as (h' & -> & _).
    eexists. split; reflexivity.
  - intros s.
    pose proof (jt_unmountAll o (fun j => j = jail s) (fun _ => False) s eq_refl)
      as H.
    destruct (unmountAll o s) as [[] s' | e s' | s']; simpl in H;
      [| contradiction | contradiction].
    destruct H as (j0 & Hj0 & Hs'). subst j0. exists s'.
    split; [reflexivity | exact Hs'].
  - intros s Hr. destruct (reachable_Inv o s Hr) as (_ & _ & Hm & _ & Hs & Hrun).
    split; [exact Hm |]. split; [apply Hs | apply Hrun].
Qed.

Lemma active_mounts_follow_attempts_witness :
  mounts_ok (jail (final_state (start calm created))) /\
  (status_ (jail (final_state (start calm created))) = STOPPED ->
   active_mounts_ (jail (final_state (start calm created))) = []) /\
  (status_ (jail (final_state (start calm created))) = RUNNING ->
   active_mounts_ (jail (final_state (start calm created))) <> []).
Proof.
  apply (proj2 (proj2 (active_mounts_follow_attempts calm))).
  apply reach_op with (s := created) (op := OpStart);
    [| vm_compute; reflexivity].
  apply reach_op with (s := registered) (op := OpSetLogger true);
    [apply reach_new | reflexivity].
Defined.

(** On a host that refuses to mount procfs, [start()] still succeeds and
    leaves a reachable RUNNING jail whose active-mounts list names the procfs
    target although the kernel's mount table does not hold it. *)
Lemma active_mounts_list_unmounted_target :
  let s := final_state (start no_proc created) in
  reachable no_proc s /\
  status_ (jail s) = RUNNING /\
  In (dev_path ++ "/proc") (map target (active_mounts_ (jail s))) /\
  ~ In (dev_path ++ "/proc") (mounted (host s)).
Proof.
  cbv zeta. split; [apply reachable_after_start |].
  vm_compute. split; [reflexivity |]. split; [left; reflexivity |].
  intros [H | [H | [H | H]]]; try discriminate H; exact H.
Qed.

(** A jail in status ERROR can have an empty list (start on a missing root)
    or a non-empty one (start failing after the mounts). *)
Example error_state_mounts_either :
  let s1 := final_state (start calm fresh) in
  let s2 := final_state (start init_unreadable created) in
  status_ (jail s1) = ERROR /\ active_mounts_ (jail s1) = [] /\
  status_ (jail s2) = ERROR /\
  active_mounts_ (jail s2) = fixed_mounts dev_path.
Proof. vm_compute. repeat split. Qed.

Lemma getRuntimeInfo_eq (s : State) :
  mutex_ (jail s) = false ->
  getRuntimeInfo s =
    Ret (mkJailRuntimeInfo
           (name (config_ (jail s)))
           (status_ (jail s))
           (if 0 <? sshd_pid_ (jail s) then sshd_pid_ (jail s) else -1)
           (port (ssh (config_ (jail s))))
           (listen_address (ssh (config_ (jail s))))
           (start_time_ (jail s))
           (active_mounts_ (jail s))
           "") s.
Proof.
  destruct s as [j h]. destruct j as [c jp dp rp st pid t ms mu lg].
  simpl. intros ->. reflexivity.
Qed.

(** C6, as the code has it.  In every reachable state the recorded process
    id is positive when the status is RUNNING and absent (-1) when it is
    STOPPED; a positive id occurs only with status RUNNING or ERROR; and
    [getRuntimeInfo] reports the status and, as its pid, the recorded id when
    positive and -1 otherwise. *)
Theorem pid_follows_status (o : Oracle) (s : State) :
  reachable o s ->
  (status_ (jail s) = RUNNING -> 0 < sshd_pid_ (jail s)) /\
  (status_ (jail s) = STOPPED -> sshd_pid_ (jail s) = -1) /\
  (0 < sshd_pid_ (jail s) ->
   status_ (jail s) = RUNNING \/ status_ (jail s) = ERROR) /\
  exists info,
    getRuntimeInfo s = Ret info s /\
    info_status info = status_ (jail s) /\
    info_pid info = (if 0 <? sshd_pid_ (jail s) then sshd_pid_ (jail s) else -1).
Proof.
  intros Hr. destruct (reachable_Inv o s Hr) as (Hmu & Hp & _ & Hset & Hs & Hrun).
  split; [apply Hrun |]. split; [apply Hs |]. split.
  - intros Hpos. destruct Hset as [H | [H | H]]; auto.
    destruct (Hs H) as [_ H1]. lia.
  - eexists. split; [apply getRuntimeInfo_eq; exact Hmu |].
    split; reflexivity.
Qed.

Lemma pid_follows_status_witness :
  let s := final_state (start calm created) in
  (status_ (jail s) = RUNNING -> 0 < sshd_pid_ (jail s)) /\
  (status_ (jail s) = STOPPED -> sshd_pid_ (jail s) = -1) /\
  (0 < sshd_pid_ (jail s) ->
   status_ (jail s) = RUNNING \/ status_ (jail s) = ERROR) /\
  exists info,
    getRuntimeInfo s = Ret info s /\
    info_status info = status_ (jail s) /\
    info_pid info = (if 0 <? sshd_pid_ (jail s) then sshd_pid_ (jail s) else -1).
Proof.
  apply (pid_follows_status calm (final_state (start calm created))).
  apply reach_op with (s := created) (op := OpStart);
    [| vm_compute; reflexivity].
  apply reach_op with (s := registered) (op := OpSetLogger true);
    [apply reach_new | reflexivity].
Defined.

(** On a host where the status call on the init script fails, [start()]
    fails after the fork: the reachable state it leaves has status ERROR and
    a positive recorded process id, which [getRuntimeInfo] reports. *)
Lemma pid_recorded_in_error_state :
  let s := final_state (start init_unreadable created) in
  reachable init_unreadable s /\
  status_ (jail s) = ERROR /\
  sshd_pid_ (jail s) = 100 /\
  exists info s',
    getRuntimeInfo s = Ret info s' /\
    info_status info = ERROR /\ info_pid info = 100.
Proof.
  cbv zeta. split; [apply reachable_after_start |].
  split; [vm_compute; reflexivity |]. split; [vm_compute; reflexivity |].
  eexists. eexists. split; [vm_compute; reflexivity |].
  split; reflexivity.
Qed.

(** *** Teardown *)

Lemma count_umounts_app (t : string) (a b : list Event) :
  count_umounts t (a ++ b) = (count_umounts t a + count_umounts t b)%nat.
Proof.
  induction a as [| e a IH]; simpl; [reflexivity |].
  destruct e; simpl; rewrite ?IH; try reflexivity.
  destruct (String.eqb t tgt); rewrite ?IH; reflexivity.
Qed.

Lemma count_umounts_calls (t : string) (tr : list Event) :
  In t (umount_calls tr) -> (1 <= count_umounts t tr)%nat.
Proof.
  induction tr as [| e tr IH]; simpl; [contradiction |].
  destruct e; simpl; auto.
  intros [H | H].
  - subst. rewrite String.eqb_refl. lia.
  - destruct (String.eqb t tgt); [lia | auto].
Qed.

Lemma umount_calls_log (j : Jail) (l m : string) :
  umount_calls (log_events j [EvLog l m]) = [].
Proof. unfold log_events. destruct (logger_ j); reflexivity. Qed.

Section Teardown.

Variable o : Oracle.

(** One pass of the retry loop. *)
Lemma umount_retry_unfold (tgt : string) (n : nat) (s : State) :
  umount_retry o tgt (S n) s =
    let s1 := set_host (add_event (EvUmount tgt) (host s)) s in
    match umount_rc o tgt (count_umounts tgt (trace (host s))) with
    | SysOk =>
        log "DEBUG" ("Unmounting: " ++ tgt)
            (set_host (set_mounted (remove_last tgt (mounted (host s)))
                                   (add_event (EvUmount tgt) (host s))) s)
    | SysErr errno =>
        if errno =? EBUSY
        then umount_retry o tgt n
               (set_host (add_event (EvSleepMs 100) (host s1)) s1)
        else Ret tt s1
    end.
Proof.
  cbn [umount_retry]. unfold bind at 1. unfold sys_umount.
  destruct (umount_rc o tgt _) as [| errno]; [reflexivity |].
  cbv zeta. destruct (errno =? EBUSY); reflexivity.
Qed.

Lemma log_spec (level msg : string) (s : State) :
  log level msg s =
    Ret tt (set_host (add_events (log_events (jail s) [EvLog level msg]) (host s)) s).
Proof.
  unfold log, log_events, emit, modify_host, add_events, add_event, set_host.
  destruct (logger_ (jail s)); [reflexivity |].
  rewrite app_nil_r. destruct s as [j [p m t]]; reflexivity.
Qed.

(** The loop for one target makes between one and [n] calls of [umount] on
    it, on no other target, and always returns. *)
Lemma umount_retry_trace (tgt : string) (n : nat) (s : State) :
  exists s' d k,
    umount_retry o tgt n s = Ret tt s' /\
    jail s' = jail s /\
    paths (host s') = paths (host s) /\
    trace (host s') = (trace (host s) ++ d)%list /\
    umount_calls d = repeat tgt k /\
    mount_calls d = [] /\
    (k <= n)%nat /\ ((1 <= n)%nat -> (1 <= k)%nat).
Proof.
  revert s. induction n as [| n IH]; intros s.
  - exists s, [], O. simpl. rewrite app_nil_r. repeat split; auto; lia.
  - rewrite umount_retry_unfold. cbv zeta.
    destruct (umount_rc o tgt _) as [| errno].
    + rewrite log_spec. eexists _, ([EvUmount tgt] ++ _)%list, 1%nat.
      split; [reflexivity |]. cbn [jail host set_host set_mounted add_events
                                   add_event paths trace].
      split; [reflexivity |]. split; [reflexivity |].
      split; [rewrite <- app_assoc; reflexivity |].
      split; [simpl; rewrite umount_calls_log; reflexivity |].
      split; [simpl; unfold log_events; destruct (logger_ (jail s)); reflexivity |].
      split; lia.
    + destruct (errno =? EBUSY).
      * destruct (IH (set_host (add_event (EvSleepMs 100)
                                  (host (set_host (add_event (EvUmount tgt) (host s)) s)))
                        (set_host (add_event (EvUmount tgt) (host s)) s)))
          as (s' & d & k & E & J & P & T & U & Mc & K1 & K2).
        exists s', ([EvUmount tgt; EvSleepMs 100] ++ d)%list, (S k).
        split; [exact E |]. split; [exact J |]. split; [exact P |].
        split; [rewrite T; cbn [host set_host add_event trace];
                rewrite <- !app_assoc; reflexivity |].
        split; [simpl; rewrite U; reflexivity |].
        split; [simpl; exact Mc |].
        split; lia.
      * eexists _, [EvUmount tgt], 1%nat.
        split; [reflexivity |]. repeat split; lia.
Qed.

Lemma unmount_loop_trace (ms : list MountInfo) (s : State) :
  exists s' d ns,
    for_each ms (fun it => umount_retry o (target it) 3) s = Ret tt s' /\
    jail s' = jail s /\
    paths (host s') = paths (host s) /\
    trace (host s') = (trace (host s) ++ d)%list /\
    umount_calls d = repeat_each (map target ms) ns /\
    mount_calls d = [] /\
    length ns = length ms /\
    Forall (fun k => 1 <= k <= 3)%nat ns.
Proof.
  revert s. induction ms as [| m ms IH]; intros s.
  - exists s, [], []. simpl. rewrite app_nil_r. repeat split; auto.
  - cbn [for_each]. unfold bind at 1.
    destruct (umount_retry_trace (target m) 3 s)
      as (s1 & d1 & k & -> & J1 & P1 & T1 & U1 & M1 & K1 & K2).
    destruct (IH s1) as (s' & d & ns & E & J & P & T & U & Mc & L & F).
    exists s', (d1 ++ d)%list, (k :: ns).
    split; [exact E |]. split; [congruence |]. split; [congruence |].
    split; [rewrite T, T1; symmetry; apply app_assoc |].
    split; [rewrite umount_calls_app, U1, U; reflexivity |].
    split; [rewrite mount_calls_app, M1, Mc; reflexivity |].
    split; [simpl; congruence |].
    constructor; [lia | exact F].
Qed.

Lemma unmountAll_trace (s : State) :
  exists s' d ns,
    unmountAll o s = Ret tt s' /\
    jail s' = with_mounts [] (jail s) /\
    paths (host s') = paths (host s) /\
    trace (host s') = (trace (host s) ++ d)%list /\
    umount_calls d = repeat_each (rev (map target (active_mounts_ (jail s)))) ns /\
    mount_calls d = [] /\
    length ns = length (active_mounts_ (jail s)) /\
    Forall (fun k => 1 <= k <= 3)%nat ns.
Proof.
  unfold unmountAll. unfold bind at 1. unfold get_jail at 1.
  unfold bind.
  destruct (unmount_loop_trace (rev (active_mounts_ (jail s))) s)
    as (s1 & d & ns & -> & J & P & T & U & Mc & L & F).
  exists (set_jail (with_mounts [] (jail s1)) s1), d, ns.
  split; [reflexivity |]. cbn [jail host set_jail].
  split; [rewrite J; reflexivity |]. split; [exact P |]. split; [exact T |].
  split; [rewrite U, map_rev; reflexivity |]. split; [exact Mc |].
  split; [rewrite L; apply length_rev | exact F].
Qed.

End Teardown.

Lemma In_repeat_each (t : string) (ts : list string) (ns : list nat) :
  In t ts -> length ns = length ts -> Forall (fun k => 1 <= k <= 3)%nat ns ->
  In t (repeat_each ts ns).
Proof.
  revert ns. induction ts as [| t' ts IH]; intros ns Hin Hl HF; [contradiction |].
  destruct ns as [| n ns]; [discriminate Hl |].
  inversion HF as [| ? ? Hn HF']; subst. simpl. apply in_or_app.
  destruct Hin as [-> | Hin].
  - left. destruct n; [lia | left; reflexivity].
  - right. apply IH; auto.
Qed.

Lemma jt_fact {A} (P : Jail -> Prop) (F : Prop) (m : M A)
      (Q : A -> Jail -> Prop) (E : Jail -> Prop) :
  (forall j, P j -> F) -> (F -> jtriple P m Q E) -> jtriple P m Q E.
Proof. intros HF H s Hs. exact (H (HF _ Hs) s Hs). Qed.

Section Stop.

Variable o : Oracle.





(** Every recorded target gets at least one call, whatever the others do. *)
Lemma unmountAll_reaches_every_target (s : State) :
  exists s',
    unmountAll o s = Ret tt s' /\
    active_mounts_ (jail s') = [] /\
    forall m, In m (active_mounts_ (jail s)) ->
      (count_umounts (target m) (trace (host s))
       < count_umounts (target m) (trace (host s')))%nat.
Proof.
  destruct (unmountAll_trace o s) as (s' & d & ns & E & J & P & T & U & Mc & L & F).
  exists s'. split; [exact E |]. split; [rewrite J; reflexivity |].
  intros m Hm. rewrite T, count_umounts_app.
  assert (Hin : In (target m) (umount_calls d)).
  { rewrite U. apply In_repeat_each; [| rewrite L, length_rev, length_map; reflexivity | exact F].
    apply in_rev. rewrite rev_involutive. apply in_map. exact Hm. }
  apply count_umounts_calls in Hin. lia.
Qed.

Lemma jt_runCleanupScript_total (p : string) (P : Jail -> Prop) (E : Jail -> Prop) :
  exists_fails o (p ++ "/usr/share/agi/cleanup.sh") = false ->
  (forall j, P j -> jail_path_ j = p) ->
  jtriple P (runCleanupScript o) (fun _ => P) E.
Proof.
  intros Hex HP. unfold runCleanupScript.
  eapply jt_bind; [apply (jt_get P E) | intros j]. simpl.
  intros s [Hj Hs]. subst j. rewrite (HP _ Hs).
  revert s Hs. apply jt_runs. apply runScript_runs. exact Hex.
Qed.

(** [stop()] on a jail that is not STOPPED completes with success whatever
    [umount] answers, provided the status call on the cleanup script does
    not fail. *)
Lemma stop_completes (s : State) :
  mutex_ (jail s) = false ->
  status_ (jail s) <> STOPPED ->
  exists_fails o (jail_path_ (jail s) ++ "/usr/share/agi/cleanup.sh") = false ->
  exists s',
    stop o s = Ret true s' /\
    status_ (jail s') = STOPPED /\
    active_mounts_ (jail s') = [] /\
    mutex_ (jail s') = false.
Proof.
  intros Hm Hst Hex.
  set (p := jail_path_ (jail s)) in *.
  set (K := fun j : Jail => jail_path_ j = p).
  assert (H : jtriple (fun j => (K j /\ status_ j <> STOPPED) /\ mutex_ j = false)
                      (stop o)
                      (fun b j => b = true /\ status_ j = STOPPED /\
                                  active_mounts_ j = [] /\ mutex_ j = false)
                      (fun _ => False)).
  { unfold stop. apply jt_lock_guard. unfold stop_body.
    eapply jt_bind; [apply jt_get | intros j0]. simpl.
    apply jt_fact with (F := status_ j0 <> STOPPED).
    { intros j [-> (j1 & [_ Hne] & _ & ->)]. exact Hne. }
    intros Hne. rewrite (JailStatus_eqb_neq _ _ Hne).
    apply jt_pre with (P' := K).
    { intros j [_ (j1 & [HK _] & _ & ->)]. exact HK. }
    apply jt_try_catch with (E' := fun _ => False);
      [| intros e s0 Hs0; contradiction].
    eapply jt_bind with (Q := fun _ => K);
      [apply jt_runs; apply log_runs | intros _].
    eapply jt_bind with (Q := fun _ => K);
      [apply jt_modify_keep; auto | intros _].
    eapply jt_bind with (Q := fun _ => K).
    { eapply jt_conseq; [apply (jt_stopSshd o K (fun _ => False)) | | | ];
        simpl; auto.
      intros _ j (j1 & H1 & ->). destruct (0 <? sshd_pid_ j1); exact H1. }
    intros _.
    eapply jt_bind with (Q := fun _ => K);
      [apply (jt_runCleanupScript_total p); [exact Hex | auto] | intros _].
    eapply jt_bind
      with (Q := fun _ j => K j /\ active_mounts_ j = []).
    { eapply jt_conseq; [apply (jt_unmountAll o K (fun _ => False)) | | | ];
        simpl; auto.
      intros _ j (j1 & H1 & ->). split; [exact H1 | reflexivity]. }
    intros _.
    eapply jt_bind
      with (Q := fun _ j => status_ j = STOPPED /\ active_mounts_ j = []).
    { apply jt_modify_keep. intros j [_ H]. split; [reflexivity | exact H]. }
    intros _.
    eapply jt_bind
      with (Q := fun _ j => status_ j = STOPPED /\ active_mounts_ j = []);
      [apply jt_runs; apply log_runs | intros _].
    apply jt_ret_keep. intros j [H1 H2]. auto. }
  specialize (H s (conj (conj eq_refl Hst) Hm)).
  destruct (stop o s) as [b s' | e s' | s']; [| contradiction | contradiction].
  destruct H as (-> & H1 & H2 & H3). exists s'. auto.
Qed.

End Stop.

(** *** The retry policy inside [unmountAll] and [stop] *)

Lemma bind_Ret {A B} (m : M A) (k : A -> M B) (s s1 : State) (a : A) :
  m s = Ret a s1 -> bind m k s = k a s1.
Proof. intros H. unfold bind. rewrite H. reflexivity. Qed.

Lemma bind_Throw {A B} (m : M A) (k : A -> M B) (s s1 : State) (e : Exn) :
  m s = Throw e s1 -> bind m k s = Throw e s1.
Proof. intros H. unfold bind. rewrite H. reflexivity. Qed.

Lemma try_Ret {A} (body : M A) (h : Exn -> M A) (s s1 : State) (a : A) :
  body s = Ret a s1 -> try_catch body h s = Ret a s1.
Proof. intros H. unfold try_catch. rewrite H. reflexivity. Qed.

Lemma try_Throw {A} (body : M A) (h : Exn -> M A) (s s1 : State) (e : Exn) :
  body s = Throw e s1 -> try_catch body h s = h e s1.
Proof. intros H. unfold try_catch. rewrite H. reflexivity. Qed.







Section RetryPolicy.

Variable o : Oracle.





















End RetryPolicy.



(** The whole of [stop()] on the busy host: /tmp is tried three times and
    unmounted, /dev/pts once, /sys three times, /proc once; /dev/pts and /sys
    stay in the kernel's mount table although the list is emptied. *)
Example stop_on_busy_host :
  let s' := final_state (stop busy_host running) in
  umount_calls (trace (host s')) =
    [dev_path ++ "/tmp"; dev_path ++ "/tmp"; dev_path ++ "/tmp";
     dev_path ++ "/dev/pts";
     dev_path ++ "/sys"; dev_path ++ "/sys"; dev_path ++ "/sys";
     dev_path ++ "/proc"] /\
  mounted (host s') = [dev_path ++ "/sys"; dev_path ++ "/dev/pts"] /\
  active_mounts_ (jail s') = [] /\
  status_ (jail s') = STOPPED.
Proof. vm_compute. repeat split. Qed.

(** C5. Teardown goes through the recorded mounts back to front: the calls
    of [umount] that [unmountAll] makes are, for the recorded targets taken
    in reverse order, between one and three calls each, and nothing else.
    [mountFilesystems] records and mounts in the order proc, sysfs, devpts,
    /tmp bind, so these are torn down in the order /tmp, /dev/pts, /sys,
    /proc. *)
Theorem teardown_reverse_order (o : Oracle) (s : State) :
  (exists s' d ns,
     unmountAll o s = Ret tt s' /\
     active_mounts_ (jail s') = [] /\
     trace (host s') = (trace (host s) ++ d)%list /\
     umount_calls d =
       repeat_each (rev (map target (active_mounts_ (jail s)))) ns /\
     length ns = length (active_mounts_ (jail s)) /\
     Forall (fun k => 1 <= k <= 3)%nat ns) /\
  (exists h',
     mountFilesystems o s =
       Ret tt (mkState (with_mounts (active_mounts_ (jail s)
                                       ++ fixed_mounts (jail_path_ (jail s)))
                                    (jail s)) h') /\
     mount_calls (trace h') =
       (mount_calls (trace (host s))
          ++ map target (fixed_mounts (jail_path_ (jail s))))%list) /\
  map target (fixed_mounts (jail_path_ (jail s))) =
    [jail_path_ (jail s) ++ "/proc"; jail_path_ (jail s) ++ "/sys";
     jail_path_ (jail s) ++ "/dev/pts"; jail_path_ (jail s) ++ "/tmp"] /\
  rev (map target (fixed_mounts (jail_path_ (jail s)))) =
    [jail_path_ (jail s) ++ "/tmp"; jail_path_ (jail s) ++ "/dev/pts";
     jail_path_ (jail s) ++ "/sys"; jail_path_ (jail s) ++ "/proc"].
Proof.
  split; [| split; [| split; reflexivity]].
  - destruct (unmountAll_trace o s) as (s' & d & ns & E & J & _ & T & U & _ & L & F).
    exists s', d, ns. rewrite J. repeat split; assumption.
  - destruct (mountFilesystems_spec o s) as (h' & E & _ & Mc & _).
    exists h'. split; assumption.
Qed.

(** A start followed by a stop on the calm host: mounted in the order proc,
    sysfs, devpts, /tmp and unmounted in the reverse order. *)
Example start_then_stop_order :
  let s1 := final_state (start calm created) in
  let s2 := final_state (stop calm s1) in
  mount_calls (trace (host s2)) =
    [dev_path ++ "/proc"; dev_path ++ "/sys"; dev_path ++ "/dev/pts";
     dev_path ++ "/tmp"] /\
  umount_calls (trace (host s2)) =
    [dev_path ++ "/tmp"; dev_path ++ "/dev/pts"; dev_path ++ "/sys";
     dev_path ++ "/proc"] /\
  status_ (jail s2) = STOPPED /\ mounted (host s2) = [].
Proof. vm_compute. repeat split. Qed.

(** *** [destroy] *)

Lemma destroy_blocks_eq (o : Oracle) (s : State) :
  mutex_ (jail s) = false ->
  destroy o s = Deadlock (set_jail (with_mutex true (jail s)) s).
Proof.
  intros Hm. unfold destroy, lock_guard. rewrite Hm. reflexivity.
Qed.

(** C8. [destroy()] on the RUNNING jail [running] of the calm host, whose
    root exists and whose four mounts are in place.  [destroy()] takes the
    mutex and calls [stop()], which takes it again: the call blocks at once
    and no result is returned.  Nothing of the sequence the code is written
    to perform happens: no signal is sent, no [umount] is called and
    nothing is deleted; the trace stays empty, the status RUNNING, the four
    mounts recorded and mounted, and the root on the disk. *)
Lemma destroy_performs_nothing :
  status_ (jail running) = RUNNING /\
  mutex_ (jail running) = false /\
  mem_path dev_path (paths (host running)) = true /\
  destroy calm running =
    Deadlock (set_jail (with_mutex true (jail running)) running) /\
  (forall r s', destroy calm running <> Ret r s') /\
  (forall e s', destroy calm running <> Throw e s') /\
  trace (host (final_state (destroy calm running))) = [] /\
  status_ (jail (final_state (destroy calm running))) = RUNNING /\
  length (active_mounts_ (jail (final_state (destroy calm running)))) = 4%nat /\
  mounted (host (final_state (destroy calm running))) = mounted (host running) /\
  length (mounted (host running)) = 4%nat /\
  mem_path dev_path (paths (host (final_state (destroy calm running)))) = true.
Proof.
  assert (H : destroy calm running =
              Deadlock (set_jail (with_mutex true (jail running)) running))
    by (apply destroy_blocks_eq; vm_compute; reflexivity).
  split; [vm_compute; reflexivity |].
  split; [vm_compute; reflexivity |].
  split; [vm_compute; reflexivity |].
  split; [exact H |].
  split; [intros r s' Heq; rewrite H in Heq; discriminate Heq |].
  split; [intros e s' Heq; rewrite H in Heq; discriminate Heq |].
  rewrite H. vm_compute. repeat split.
Qed.

(** *** [create] *)

Lemma grows_unreadable (o : Oracle) (b : string) (s s' : State) :
  grows s s' -> unreadable o b s' = true -> unreadable o b s = true.
Proof.
  intros (_ & HP & _). unfold unreadable.
  destruct (mem_path b (paths (host s))) eqn:Hm; [| reflexivity].
  rewrite (HP _ Hm). auto.
Qed.

Lemma warned_then_grows (o : Oracle) (b : string) (s s1 s2 : State) :
  warned o b s s1 -> grows s1 s2 -> warned o b s s2.
Proof.
  intros HW HG Hl Hu.
  destruct (HW Hl (grows_unreadable o b s1 s2 HG Hu)) as (d1 & T1 & Hin).
  destruct HG as (_ & _ & d2 & T2 & _).
  exists (d1 ++ d2)%list. split.
  - rewrite T2, T1. symmetry. apply app_assoc.
  - apply in_or_app. left. exact Hin.
Qed.

Lemma grows_then_warned (o : Oracle) (b : string) (s s1 s2 : State) :
  grows s s1 -> warned o b s1 s2 -> warned o b s s2.
Proof.
  intros (J & _ & d1 & T1 & _) HW Hl Hu.
  rewrite <- J in Hl. destruct (HW Hl Hu) as (d2 & T2 & Hin).
  exists (d1 ++ d2)%list. split.
  - rewrite T2, T1. symmetry. apply app_assoc.
  - apply in_or_app. right. exact Hin.
Qed.

Section Create.

Variable o : Oracle.
Hypothesis Hex : forall p, exists_fails o p = false.
Hypothesis Hmk : forall p, mkdirs_fails o p = false.

Ltac total_leaf :=
  first [ apply fs_exists_runs; apply Hex
        | apply create_directories_runs; apply Hmk
        | grow_leaf ].

Ltac total := compose grows_refl grows_trans total_leaf.

Lemma createDirectoryStructure_runs : runs grows (createDirectoryStructure o).
Proof. unfold createDirectoryStructure. total. Qed.

Lemma copyLibrary_runs lib : runs grows (copyLibrary o lib).
Proof. unfold copyLibrary. total. Qed.

Lemma copyEssentialLibraries_runs : runs grows (copyEssentialLibraries o).
Proof.
  unfold copyEssentialLibraries.
  apply runs_for_each; [exact grows_refl | exact grows_trans |].
  intros lib _. apply copyLibrary_runs.
Qed.

Lemma createDeviceNodes_runs : runs grows (createDeviceNodes o).
Proof. unfold createDeviceNodes, createDeviceNode. total. Qed.

Lemma generateSshConfig_runs : runs grows (generateSshConfig o).
Proof. unfold generateSshConfig. total. Qed.

Lemma createInitScripts_runs : runs grows (createInitScripts o).
Proof. unfold createInitScripts. total. Qed.

(** The guarded copy warns when the read throws. *)
Lemma copy_attempt_warns (path dest : string) (s : State) :
  In path essential_bins ->
  exists s',
    try_catch
      (content <- FileUtils_read o path ;;
       _ <- FileUtils_write o dest content ;;
       sys_chmod dest 493 ;;
       log "DEBUG" ("Copying binary: " ++ path ++ " -> " ++ dest))
      (fun e => log "WARN" ("Cannot copy binary: " ++ path ++ " - " ++ what e)) s
      = Ret tt s' /\
    grows s s' /\ warned o path s s'.
Proof.
  intros Hin.
  destruct (copy_attempt_runs o path dest Hin s) as ([] & s' & E & G).
  exists s'. split; [exact E |]. split; [exact G |].
  intros Hl Hu. apply (grows_unreadable o path s s' G) in Hu.
  unfold unreadable in Hu. apply negb_true_iff in Hu.
  revert E. unfold try_catch. unfold bind at 1. unfold FileUtils_read.
  rewrite Hu. rewrite log_spec. unfold log_events. rewrite Hl.
  intros E. injection E as <-.
  exists [copy_warning path]. split; [reflexivity | left; reflexivity].
Qed.

Lemma copyBinary_warns (path : string) (s : State) :
  In path essential_bins ->
  exists s',
    copyBinary o path s = Ret tt s' /\ grows s s' /\ warned o path s s'.
Proof.
  intros Hin. unfold copyBinary.
  erewrite bind_Ret by reflexivity.
  erewrite bind_Ret by (unfold fs_exists; rewrite Hex; reflexivity).
  match goal with
  | |- context [bind ?m _ s] =>
      assert (Hm : runs grows m) by total;
      destruct (Hm s) as ([] & s1 & E1 & G1)
  end.
  erewrite bind_Ret by exact E1.
  destruct (copy_attempt_warns path (jail_path_ (jail s) ++ path) s1 Hin)
    as (s' & E & G & W).
  exists s'. split; [exact E |].
  split; [exact (grows_trans _ _ _ G1 G) |].
  exact (grows_then_warned o path s s1 s' G1 W).
Qed.

Lemma copy_loop_warns (bins : list string) (s : State) :
  (forall b, In b bins -> In b essential_bins) ->
  exists s',
    for_each bins (copyBinary o) s = Ret tt s' /\
    grows s s' /\
    forall b, In b bins -> warned o b s s'.
Proof.
  revert s. induction bins as [| b bins IH]; intros s Hsub.
  - exists s. split; [reflexivity |]. split; [apply grows_refl |].
    intros b [].
  - cbn [for_each].
    destruct (copyBinary_warns b s (Hsub b (or_introl eq_refl)))
      as (s1 & E1 & G1 & W1).
    erewrite bind_Ret by exact E1.
    destruct (IH s1 (fun x Hx => Hsub x (or_intror Hx))) as (s' & E & G & W).
    exists s'. split; [exact E |].
    split; [exact (grows_trans _ _ _ G1 G) |].
    intros x [<- | Hx].
    + exact (warned_then_grows o b s s1 s' W1 G).
    + exact (grows_then_warned o x s s1 s' G1 (W x Hx)).
Qed.

(** The body of [create] under its lock and [try]. *)
Lemma create_body_warns (j : Jail) (s : State) :
  exists s',
    (log "INFO" ("Starting to create jail environment: " ++ name (config_ j)) ;;
     createDirectoryStructure o ;;
     copyBaseSystem o ;;
     createDeviceNodes o ;;
     generateSshConfig o ;;
     createInitScripts o ;;
     log "INFO" ("Jail environment created successfully: " ++ jail_path_ j) ;;
     ret true) s = Ret true s' /\
    grows s s' /\
    forall b, In b essential_bins -> warned o b s s'.
Proof.
  match goal with
  | |- context [bind ?m _ s] =>
      assert (Hm : runs grows m) by total;
      destruct (Hm s) as ([] & s1 & E1 & G1)
  end.
  erewrite bind_Ret by exact E1.
  destruct (createDirectoryStructure_runs s1) as ([] & s2 & E2 & G2).
  erewrite bind_Ret by exact E2.
  unfold copyBaseSystem.
  destruct (copy_loop_warns essential_bins s2 (fun b H => H)) as (s3 & E3 & G3 & W3).
  destruct (copyEssentialLibraries_runs s3) as ([] & s4 & E4 & G4).
  erewrite bind_Ret
    by (erewrite bind_Ret by exact E3; exact E4).
  match goal with
  | |- context [bind ?m ?k s4] =>
      assert (Hk : runs grows (bind m k))
        by (compose grows_refl grows_trans
              ltac:(first [ apply createDeviceNodes_runs
                          | apply generateSshConfig_runs
                          | apply createInitScripts_runs
                          | total_leaf ]));
      destruct (Hk s4) as (r & s5 & E5 & G5)
  end.
  assert (r = true).
  { revert E5. unfold bind.
    destruct (createDeviceNodes o s4); try discriminate.
    destruct (generateSshConfig o s0); try discriminate.
    destruct (createInitScripts o s6); try discriminate.
    destruct (log _ _ s7); try discriminate.
    unfold ret. congruence. }
  subst r. exists s5. split; [exact E5 |].
  assert (G12 : grows s s2) by exact (grows_trans _ _ _ G1 G2).
  assert (G45 : grows s3 s5) by exact (grows_trans _ _ _ G4 G5).
  split; [exact (grows_trans _ _ _ G12 (grows_trans _ _ _ G3 G45)) |].
  intros b Hb.
  apply (grows_then_warned o b s s2 s5 G12).
  exact (warned_then_grows o b s2 s3 s5 (W3 b Hb) G45).
Qed.

End Create.

(** *** Every log entry of [create] *)

Lemma append_inj_l (p a b : string) : (p ++ a = p ++ b)%string -> a = b.
Proof.
  induction p as [| c p IH]; cbn [append]; [auto |].
  intros H. injection H as H. exact (IH H).
Qed.

Lemma unreadable_mono (o : Oracle) (b : string) (s s' : State) :
  (forall p, mem_path p (paths (host s)) = true ->
             mem_path p (paths (host s')) = true) ->
  unreadable o b s = false -> unreadable o b s' = false.
Proof.
  intros HP. unfold unreadable. intros H. apply negb_false_iff in H.
  apply andb_true_iff in H. destruct H as [H1 H2].
  rewrite (HP _ H1), H2. reflexivity.
Qed.

Lemma create_entry_mono (o : Oracle) (j : Jail) (s s' : State) (level msg : string) :
  (forall p, mem_path p (paths (host s)) = true ->
             mem_path p (paths (host s')) = true) ->
  create_entry o j s level msg -> create_entry o j s' level msg.
Proof.
  intros HP [H | [[Hl H] | H]]; [left; exact H | | right; right; exact H].
  right. left. split; [exact Hl |].
  destruct H as [H | [(b & Hb & Hu & Hm) | [(lib & Hb & Hu & Hm) | H]]].
  - left. exact H.
  - right. left. exists b. repeat split; auto. eapply unreadable_mono; eauto.
  - right. right. left. exists lib. repeat split; auto.
    eapply unreadable_mono; eauto.
  - right. right. right. exact H.
Qed.

Lemma logs_create_refl (o : Oracle) (j : Jail) (s : State) : logs_create o j s s.
Proof.
  split; [reflexivity | split; [auto |]].
  exists []. split; [symmetry; apply app_nil_r | intros ? ? []].
Qed.

Lemma logs_create_trans (o : Oracle) (j : Jail) (s1 s2 s3 : State) :
  logs_create o j s1 s2 -> logs_create o j s2 s3 -> logs_create o j s1 s3.
Proof.
  intros (J1 & P1 & d1 & T1 & E1) (J2 & P2 & d2 & T2 & E2).
  split; [congruence | split; [auto |]].
  exists (d1 ++ d2)%list. split; [rewrite T2, T1; symmetry; apply app_assoc |].
  intros level msg Hin. apply in_app_or in Hin. destruct Hin as [Hin | Hin].
  - eapply create_entry_mono; [exact P2 | apply E1; exact Hin].
  - apply E2. exact Hin.
Qed.

(** A step on the host that logs nothing. *)
Lemma logs_create_host (o : Oracle) (j : Jail) (s : State) (h' : Host)
      (d : list Event) :
  (forall p, mem_path p (paths (host s)) = true -> mem_path p (paths h') = true) ->
  trace h' = (trace (host s) ++ d)%list ->
  (forall level msg, ~ In (EvLog level msg) d) ->
  logs_create o j s (set_host h' s).
Proof.
  intros HP HT HN. split; [reflexivity | split; [exact HP |]].
  exists d. split; [exact HT |]. intros level msg Hin. destruct (HN _ _ Hin).
Qed.

Section CreateLog.

Variable o : Oracle.
Variable j : Jail.
Hypothesis Hex : forall p, exists_fails o p = false.
Hypothesis Hmk : forall p, mkdirs_fails o p = false.

Lemma rf_ret {A} (a : A) : runs_from o j (ret a).
Proof. intros s _. exists a, s. split; [reflexivity | apply logs_create_refl]. Qed.

Lemma rf_bind {A B} (m : M A) (k : A -> M B) :
  runs_from o j m -> (forall a, runs_from o j (k a)) -> runs_from o j (bind m k).
Proof.
  intros Hm Hk s Hj. destruct (Hm s Hj) as (a & s1 & E1 & L1).
  assert (Hj1 : jail s1 = j) by (destruct L1 as (J & _); congruence).
  destruct (Hk a s1 Hj1) as (b & s2 & E2 & L2).
  exists b, s2. split; [rewrite (bind_Ret _ _ _ _ _ E1); exact E2 |].
  eapply logs_create_trans; eassumption.
Qed.

Lemma rf_get {B} (k : Jail -> M B) :
  runs_from o j (k j) -> runs_from o j (bind get_jail k).
Proof.
  intros Hk s Hj. destruct (Hk s Hj) as (b & s2 & E2 & L2).
  exists b, s2. split; [| exact L2].
  unfold bind, get_jail. rewrite Hj. exact E2.
Qed.

Lemma rf_if {A} (c : bool) (m1 m2 : M A) :
  runs_from o j m1 -> runs_from o j m2 -> runs_from o j (if c then m1 else m2).
Proof. destruct c; auto. Qed.

Lemma rf_for_each {A} (xs : list A) (f : A -> M unit) :
  (forall x, In x xs -> runs_from o j (f x)) -> runs_from o j (for_each xs f).
Proof.
  induction xs as [| x xs IH]; intros H; cbn [for_each].
  - apply rf_ret.
  - apply rf_bind; [apply H; left; reflexivity |].
    intros _. apply IH. intros y Hy. apply H. right. exact Hy.
Qed.

Lemma rf_fs_exists (p : string) : runs_from o j (fs_exists o p).
Proof.
  intros s _. unfold fs_exists. rewrite Hex. eexists _, _.
  split; [reflexivity | apply logs_create_refl].
Qed.

Lemma rf_create_directories (p : string) : runs_from o j (create_directories o p).
Proof.
  intros s _. unfold create_directories. rewrite Hmk. eexists _, _.
  split; [reflexivity |].
  apply logs_create_host with (d := [EvMkdirs p]).
  - intros q Hq. cbn [paths add_event set_paths]. apply mem_path_fold_add. exact Hq.
  - reflexivity.
  - intros level msg [H | []]. discriminate H.
Qed.

Lemma rf_write (p c : string) : runs_from o j (FileUtils_write o p c).
Proof.
  intros s _. unfold FileUtils_write. destruct (can_write o p).
  - eexists _, _. split; [reflexivity |].
    apply logs_create_host with (d := [EvWrite p c]).
    + intros q Hq. cbn [paths add_event set_paths]. apply mem_path_add_path. exact Hq.
    + reflexivity.
    + intros level msg [H | []]. discriminate H.
  - eexists _, _. split; [reflexivity | apply logs_create_refl].
Qed.

Lemma rf_chmod (p : string) (m : Z) : runs_from o j (sys_chmod p m).
Proof.
  intros s _. eexists _, _. split; [reflexivity |].
  apply logs_create_host with (d := [EvChmod p m]);
    [auto | reflexivity | intros level msg [H | []]; discriminate H].
Qed.

Lemma rf_mknod (p : string) (k : ascii) (a b : Z) : runs_from o j (sys_mknod o p k a b).
Proof.
  intros s _. unfold sys_mknod. cbv zeta. eexists _, _. split; [reflexivity |].
  apply logs_create_host with (d := [EvMknod p k a b]).
  - intros q Hq. destruct (mknod_ok o p); cbn [paths add_event set_paths];
      [apply mem_path_add_path |]; exact Hq.
  - destruct (mknod_ok o p); reflexivity.
  - intros level msg [H | []]. discriminate H.
Qed.

(** A log call whose entry is one of [create]'s whatever the disk holds. *)
Lemma rf_log (level msg : string) :
  (forall s', create_entry o j s' level msg) -> runs_from o j (log level msg).
Proof.
  intros He s _. rewrite log_spec. eexists _, _. split; [reflexivity |].
  split; [reflexivity | split; [auto |]].
  eexists. split; [reflexivity |].
  intros l m Hin. unfold log_events in Hin.
  destruct (logger_ (jail s)); [| destruct Hin].
  destruct Hin as [H | []]. injection H as <- <-. apply He.
Qed.

(** The same for a log call made when the file [f] has just been read. *)
Lemma log_after_read (f level msg : string) (s : State) :
  jail s = j ->
  unreadable o f s = false ->
  (forall s', unreadable o f s' = false -> create_entry o j s' level msg) ->
  exists s', log level msg s = Ret tt s' /\ logs_create o j s s'.
Proof.
  intros Hj Hu He. rewrite log_spec. eexists. split; [reflexivity |].
  split; [reflexivity | split; [auto |]].
  eexists. split; [reflexivity |].
  intros l m Hin. unfold log_events in Hin.
  destruct (logger_ (jail s)); [| destruct Hin].
  destruct Hin as [H | []]. injection H as <- <-. apply He. exact Hu.
Qed.

Lemma read_ok (f : string) (s : State) :
  mem_path f (paths (host s)) && can_read o f = true ->
  unreadable o f s = false.
Proof. intros H. unfold unreadable. rewrite H. reflexivity. Qed.

(** The guarded copy of a base executable. *)
Lemma copy_binary_attempt (path : string) :
  In path essential_bins ->
  runs_from o j
    (try_catch
       (content <- FileUtils_read o path ;;
        _ <- FileUtils_write o (jail_path_ j ++ path) content ;;
        sys_chmod (jail_path_ j ++ path) 493 ;;
        log "DEBUG" ("Copying binary: " ++ path ++ " -> " ++ jail_path_ j ++ path))
       (fun e => log "WARN" ("Cannot copy binary: " ++ path ++ " - " ++ what e))).
Proof.
  intros Hin s Hj. unfold try_catch. unfold bind at 1. unfold FileUtils_read.
  destruct (mem_path path (paths (host s)) && can_read o path) eqn:Hr.
  - destruct (rf_write (jail_path_ j ++ path) (file_content o path) s Hj)
      as (w & s1 & E1 & L1).
    assert (Hj1 : jail s1 = j) by (destruct L1 as (J & _); congruence).
    destruct (rf_chmod (jail_path_ j ++ path) 493 s1 Hj1) as ([] & s2 & E2 & L2).
    assert (Hj2 : jail s2 = j) by (destruct L2 as (J & _); congruence).
    assert (L02 : logs_create o j s s2)
      by (eapply logs_create_trans; eassumption).
    destruct (log_after_read path "DEBUG"
                ("Copying binary: " ++ path ++ " -> " ++ jail_path_ j ++ path) s2 Hj2)
      as (s3 & E3 & L3).
    { eapply unreadable_mono; [apply L02 | apply read_ok; exact Hr]. }
    { intros s' Hu. right. left. split; [reflexivity |].
      right. left. exists path. repeat split; assumption. }
    exists tt, s3. split.
    + rewrite (bind_Ret _ _ _ _ _ E1), (bind_Ret _ _ _ _ _ E2), E3. reflexivity.
    + eapply logs_create_trans; eassumption.
  - cbn [what]. apply rf_log; [| exact Hj].
    intros s'. right. right. exists path. split; [exact Hin | reflexivity].
Qed.

(** The guarded copy of a library: an entry only after the read, nothing at
    all when the read throws. *)
Lemma copy_library_attempt (lib : string) :
  In lib essential_libs ->
  runs_from o j
    (try_catch
       (content <- FileUtils_read o lib ;;
        _ <- FileUtils_write o (jail_path_ j ++ lib) content ;;
        log "DEBUG" ("Copying library: " ++ lib))
       (fun _ => ret tt)).
Proof.
  intros Hin s Hj. unfold try_catch. unfold bind at 1. unfold FileUtils_read.
  destruct (mem_path lib (paths (host s)) && can_read o lib) eqn:Hr.
  - destruct (rf_write (jail_path_ j ++ lib) (file_content o lib) s Hj)
      as (w & s1 & E1 & L1).
    assert (Hj1 : jail s1 = j) by (destruct L1 as (J & _); congruence).
    destruct (log_after_read lib "DEBUG" ("Copying library: " ++ lib) s1 Hj1)
      as (s2 & E2 & L2).
    { eapply unreadable_mono; [apply L1 | apply read_ok; exact Hr]. }
    { intros s' Hu. right. left. split; [reflexivity |].
      right. right. left. exists lib. repeat split; assumption. }
    exists tt, s2. split.
    + rewrite (bind_Ret _ _ _ _ _ E1), E2. reflexivity.
    + eapply logs_create_trans; eassumption.
  - exists tt, s. split; [reflexivity | apply logs_create_refl].
Qed.

Ltac rf_leaf :=
  first [ apply rf_fs_exists | apply rf_create_directories | apply rf_write
        | apply rf_chmod | apply rf_mknod | apply rf_ret ].

Ltac rf :=
  cbv zeta;
  repeat first
    [ rf_leaf
    | apply rf_for_each; intros ? ?
    | apply rf_get; cbv beta zeta
    | apply rf_bind; [| intro]
    | apply rf_if ].

Lemma createDirectoryStructure_logs : runs_from o j (createDirectoryStructure o).
Proof.
  unfold createDirectoryStructure. apply rf_get. cbv beta zeta.
  apply rf_for_each. intros dir Hdir.
  apply rf_bind; [apply rf_fs_exists | intros b].
  apply rf_if; [| apply rf_ret].
  apply rf_bind; [apply rf_create_directories | intros _].
  apply rf_log. intros s'. right. left. split; [reflexivity |].
  left. exists dir. split; [exact Hdir | reflexivity].
Qed.

Lemma copyBinary_logs (path : string) :
  In path essential_bins -> runs_from o j (copyBinary o path).
Proof.
  intros Hin. unfold copyBinary. apply rf_get. cbv beta zeta.
  apply rf_bind; [apply rf_fs_exists | intros b].
  apply rf_bind; [apply rf_if; [apply rf_create_directories | apply rf_ret] | intros _].
  apply copy_binary_attempt. exact Hin.
Qed.

Lemma copyLibrary_logs (lib : string) :
  In lib essential_libs -> runs_from o j (copyLibrary o lib).
Proof.
  intros Hin. unfold copyLibrary. apply rf_get. cbv beta zeta.
  apply rf_bind; [apply rf_fs_exists | intros present].
  apply rf_if; [| apply rf_ret].
  apply rf_bind; [apply rf_fs_exists | intros b].
  apply rf_bind; [apply rf_if; [apply rf_create_directories | apply rf_ret] | intros _].
  apply copy_library_attempt. exact Hin.
Qed.

Lemma copyBaseSystem_logs : runs_from o j (copyBaseSystem o).
Proof.
  unfold copyBaseSystem, copyEssentialLibraries.
  apply rf_bind; [| intros _].
  - apply rf_for_each. intros b Hb. apply copyBinary_logs. exact Hb.
  - apply rf_for_each. intros lib Hlib. apply copyLibrary_logs. exact Hlib.
Qed.

Lemma createDeviceNodes_logs : runs_from o j (createDeviceNodes o).
Proof. unfold createDeviceNodes, createDeviceNode. rf. Qed.

Lemma generateSshConfig_logs : runs_from o j (generateSshConfig o).
Proof.
  unfold generateSshConfig. apply rf_get. cbv beta zeta.
  apply rf_bind; [apply rf_fs_exists | intros b].
  apply rf_bind; [apply rf_if; [apply rf_create_directories | apply rf_ret] | intros _].
  apply rf_bind; [apply rf_write | intros _].
  apply rf_log. intros s'. right. left. split; [reflexivity |].
  right. right. right. reflexivity.
Qed.

Lemma createInitScripts_logs : runs_from o j (createInitScripts o).
Proof. unfold createInitScripts. rf. Qed.

(** The body of [create] under its lock and [try]. *)
Lemma create_body_logs :
  runs_from o j
    (log "INFO" ("Starting to create jail environment: " ++ name (config_ j)) ;;
     createDirectoryStructure o ;;
     copyBaseSystem o ;;
     createDeviceNodes o ;;
     generateSshConfig o ;;
     createInitScripts o ;;
     log "INFO" ("Jail environment created successfully: " ++ jail_path_ j) ;;
     ret true).
Proof.
  apply rf_bind; [| intros _].
  { apply rf_log. intros s'. left. split; [reflexivity | left; reflexivity]. }
  apply rf_bind; [apply createDirectoryStructure_logs | intros _].
  apply rf_bind; [apply copyBaseSystem_logs | intros _].
  apply rf_bind; [apply createDeviceNodes_logs | intros _].
  apply rf_bind; [apply generateSshConfig_logs | intros _].
  apply rf_bind; [apply createInitScripts_logs | intros _].
  apply rf_bind; [| intros _; apply rf_ret].
  apply rf_log. intros s'. left. split; [reflexivity | right; reflexivity].
Qed.

End CreateLog.

(** An entry about a library names a library that exists and can be read. *)
Lemma library_entry_read (o : Oracle) (j : Jail) (s' : State)
      (level msg lib : string) :
  create_entry o j s' level msg ->
  msg = "Copying library: " ++ lib ->
  level = "DEBUG" /\ In lib essential_libs /\ unreadable o lib s' = false.
Proof.
  intros H ->.
  destruct H as [[_ [H | H]] | [[Hl H] | (b & _ & H)]];
    try (vm_compute in H; discriminate H).
  destruct H as [(dir & _ & H) | [(b & _ & _ & H) | [(l & Hin & Hu & H) | H]]];
    try (cbn [append] in H; discriminate H).
  apply append_inj_l in H. subst l. auto.
Qed.

(** C9, as the code has it.  With a logger installed and no filesystem call
    throwing on directories, [create()] returns success whatever executables
    and libraries can be read.  Every base executable that is still
    unreadable at the end has had its WARN entry logged by [copyBinary], and
    these are the only WARN or ERROR entries [create()] logs.  Every entry
    [create()] logs, at any level, is one of [create_entry]: the two INFO
    entries of [create], a DEBUG entry for a directory made, for an
    executable copied, for a library copied or for the SSH configuration, or
    the warning of an executable.  So a library that is missing or
    unreadable is skipped without any entry: the only entry that names a
    library is the DEBUG entry of its copy, and none is made for a library
    that is unreadable at the end. *)
Theorem create_copies_best_effort (o : Oracle) (s : State) :
  mutex_ (jail s) = false ->
  logger_ (jail s) = true ->
  (forall p, exists_fails o p = false) ->
  (forall p, mkdirs_fails o p = false) ->
  exists s' d,
    create o s = Ret true s' /\
    jail s' = jail s /\
    trace (host s') = (trace (host s) ++ d)%list /\
    (forall b, In b essential_bins -> unreadable o b s' = true ->
               In (copy_warning b) d) /\
    (forall level msg,
       In (EvLog level msg) d -> level = "WARN" \/ level = "ERROR" ->
       exists b, In b essential_bins /\ EvLog level msg = copy_warning b) /\
    (forall level msg,
       In (EvLog level msg) d -> create_entry o (jail s) s' level msg) /\
    (forall lib level, In lib essential_libs -> unreadable o lib s' = true ->
       ~ In (EvLog level ("Copying library: " ++ lib)) d).
Proof.
  intros Hm Hl Hex Hmk. unfold create, lock_guard. rewrite Hm.
  erewrite bind_Ret by reflexivity.
  destruct (create_body_warns o Hex Hmk
              (jail (set_jail (with_mutex true (jail s)) s))
              (set_jail (with_mutex true (jail s)) s))
    as (s5 & E & (J & HP & d & T & Q) & W).
  destruct (create_body_logs o (jail (set_jail (with_mutex true (jail s)) s))
              Hex Hmk (set_jail (with_mutex true (jail s)) s) eq_refl)
    as (r & s6 & E' & (_ & _ & d' & T' & Q')).
  rewrite E in E'. injection E' as <- <-.
  erewrite try_Ret by exact E.
  eexists _, d. split; [reflexivity |].
  cbn [jail host set_jail] in *.
  rewrite T in T'. apply app_inv_head in T'. subst d'.
  assert (Hall : forall level msg,
             In (EvLog level msg) d ->
             create_entry o (jail s) (set_jail (with_mutex false (jail s5)) s5)
                          level msg).
  { intros level msg Hin.
    apply create_entry_mono with (s := s5); [auto |].
    exact (Q' level msg Hin). }
  split; [rewrite J; apply with_mutex_restore; exact Hm |].
  split; [exact T |]. split; [| split; [| split]].
  - intros b Hb Hu. destruct (W b Hb Hl Hu) as (d' & T' & Hin).
    cbn [jail host set_jail] in T'. rewrite T in T'.
    apply app_inv_head in T'. subst d'. exact Hin.
  - intros level msg Hin Hlev.
    rewrite Forall_forall in Q. exact (Q _ Hin Hlev).
  - exact Hall.
  - intros lib level Hlib Hu Hin.
    destruct (library_entry_read _ _ _ _ _ lib (Hall _ _ Hin) eq_refl)
      as (_ & _ & Hr).
    rewrite Hr in Hu. discriminate Hu.
Qed.

Lemma create_copies_best_effort_witness :
  exists s' d,
    create calm fresh = Ret true s' /\
    jail s' = jail fresh /\
    trace (host s') = (trace (host fresh) ++ d)%list /\
    (forall b, In b essential_bins -> unreadable calm b s' = true ->
               In (copy_warning b) d) /\
    (forall level msg,
       In (EvLog level msg) d -> level = "WARN" \/ level = "ERROR" ->
       exists b, In b essential_bins /\ EvLog level msg = copy_warning b) /\
    (forall level msg,
       In (EvLog level msg) d -> create_entry calm (jail fresh) s' level msg) /\
    (forall lib level, In lib essential_libs -> unreadable calm lib s' = true ->
       ~ In (EvLog level ("Copying library: " ++ lib)) d).
Proof.
  apply (create_copies_best_effort calm fresh);
    [reflexivity | reflexivity | intros p; reflexivity | intros p; reflexivity].
Defined.

(** The whole log of [create()] on the host of [fresh], which holds two of
    the eight executables and one of the four libraries: the two INFO
    entries, a DEBUG entry for each of the 22 directories, for the two
    executables and the one library that were copied and for the SSH
    configuration, six warnings and no error.  No entry names a library
    that was skipped. *)
Example create_logs_copies_made :
  let tr := trace (host (final_state (create calm fresh))) in
  logged "INFO" tr =
    ["Starting to create jail environment: dev";
     "Jail environment created successfully: /var/lib/agi/jails/dev"] /\
  logged "DEBUG" tr =
    (map (String.append "Creating directory: ") (skeleton_dirs (jail fresh)) ++
     ["Copying binary: /bin/bash -> /var/lib/agi/jails/dev/bin/bash";
      "Copying binary: /bin/ls -> /var/lib/agi/jails/dev/bin/ls";
      "Copying library: /lib64/ld-linux-x86-64.so.2";
      "Generating SSH configuration"])%list /\
  length (logged "WARN" tr) = 6%nat /\
  logged "ERROR" tr = [] /\
  length (filter (fun e => match e with EvLog _ _ => true | _ => false end) tr)
    = 34%nat.
Proof. vm_compute. repeat split. Qed.

(** On the host of [fresh], where /bin/cat and libc are missing (as are four
    more executables and three more libraries), [create()] returns success;
    it logs one warning per missing executable and none for a library. *)
Lemma create_survives_missing_tool :
  In "/bin/cat" essential_bins /\
  mem_path "/bin/cat" (paths (host fresh)) = false /\
  In "/lib/x86_64-linux-gnu/libc.so.6" essential_libs /\
  mem_path "/lib/x86_64-linux-gnu/libc.so.6" (paths (host fresh)) = false /\
  exists s',
    create calm fresh = Ret true s' /\
    warnings (trace (host s')) =
      ["Cannot copy binary: /bin/cat - Cannot open file: /bin/cat";
       "Cannot copy binary: /bin/mkdir - Cannot open file: /bin/mkdir";
       "Cannot copy binary: /bin/rm - Cannot open file: /bin/rm";
       "Cannot copy binary: /bin/echo - Cannot open file: /bin/echo";
       "Cannot copy binary: /bin/sleep - Cannot open file: /bin/sleep";
       "Cannot copy binary: /usr/bin/whoami - Cannot open file: /usr/bin/whoami"].
Proof.
  split; [simpl; tauto |]. split; [reflexivity |].
  split; [simpl; tauto |]. split; [reflexivity |].
  eexists. split; [vm_compute; reflexivity | vm_compute; reflexivity].
Qed.

(** ** Paths ([PathUtils]) *)

Lemma normalize_loop_single (p : string) (f : bool) :
  single_slashes (normalize_loop p f) f = true.
Proof.
  revert f. induction p as [| c p IH]; intros f; simpl; [reflexivity |].
  destruct (Ascii.eqb c slash) eqn:Hc.
  - destruct f; [apply IH |]. simpl. rewrite Hc. simpl. apply IH.
  - simpl. rewrite Hc. apply IH.
Qed.

Lemma single_slashes_fixed (s : string) (f : bool) :
  single_slashes s f = true -> normalize_loop s f = s.
Proof.
  revert f. induction s as [| c s IH]; intros f; simpl; [reflexivity |].
  destruct (Ascii.eqb c slash).
  - destruct f; simpl; [discriminate |]. intros H. rewrite (IH _ H). reflexivity.
  - intros H. rewrite (IH _ H). reflexivity.
Qed.

Lemma single_slashes_weaken (s : string) :
  single_slashes s true = true -> single_slashes s false = true.
Proof.
  destruct s as [| c s]; simpl; [reflexivity |].
  destruct (Ascii.eqb c slash); [discriminate | auto].
Qed.

Lemma single_slashes_pop_back (s : string) (f : bool) :
  single_slashes s f = true -> single_slashes (string_pop_back s) f = true.
Proof.
  revert f. induction s as [| c s IH]; intros f; simpl; [reflexivity |].
  destruct s as [| c' s']; [reflexivity |].
  change (string_pop_back (String c (String c' s')))
    with (String c (string_pop_back (String c' s'))).
  cbn [single_slashes]. destruct (Ascii.eqb c slash).
  - destruct f; simpl; [discriminate |]. intros H. apply (IH true H).
  - intros H. apply (IH false H).
Qed.

(** After a pop of a trailing slash nothing ends with a slash any more. *)
Lemma single_slashes_pop_back_end (s : string) (f : bool) :
  single_slashes s f = true ->
  string_back s = Some slash ->
  string_back (string_pop_back s) <> Some slash.
Proof.
  revert f. induction s as [| c s IH]; intros f Hs Hb; [discriminate Hb |].
  destruct s as [| c' s']; [simpl; discriminate |].
  assert (Hs' : exists f', single_slashes (String c' s') f' = true).
  { cbn [single_slashes] in Hs. destruct (Ascii.eqb c slash).
    - destruct f; cbn [negb andb] in Hs; [discriminate Hs |].
      exists true. exact Hs.
    - exists false. exact Hs. }
  destruct Hs' as (f' & Hs').
  change (string_back (String c (String c' s')))
    with (string_back (String c' s')) in Hb.
  change (string_pop_back (String c (String c' s')))
    with (String c (string_pop_back (String c' s'))).
  destruct s' as [| c'' s''].
  - simpl. simpl in Hb. injection Hb as ->.
    intros Heq. injection Heq as ->.
    cbn [single_slashes] in Hs.
    change (Ascii.eqb slash slash) with true in Hs.
    destruct f; discriminate Hs.
  - specialize (IH f' Hs' Hb).
    change (string_pop_back (String c' (String c'' s'')))
      with (String c' (string_pop_back (String c'' s''))) in *.
    exact IH.
Qed.

Lemma normalize_single (p : string) :
  single_slashes (PathUtils.normalize p) false = true.
Proof.
  unfold PathUtils.normalize. cbv zeta.
  pose proof (normalize_loop_single p false) as H.
  destruct (string_back (normalize_loop p false)) as [c |]; [| exact H].
  destruct (Ascii.eqb c slash && (1 <? String.length (normalize_loop p false))%nat);
    [apply single_slashes_pop_back |]; exact H.
Qed.

Lemma string_back_length_one (s : string) (c : ascii) :
  string_back s = Some c -> (String.length s <= 1)%nat -> s = String c EmptyString.
Proof.
  destruct s as [| c' [| c'' s'']]; simpl; try discriminate.
  - intros H _. injection H as ->. reflexivity.
  - intros _ H. lia.
Qed.

Lemma normalize_end (p : string) :
  string_back (PathUtils.normalize p) = Some slash -> PathUtils.normalize p = "/".
Proof.
  unfold PathUtils.normalize. cbv zeta.
  pose proof (normalize_loop_single p false) as H.
  destruct (string_back (normalize_loop p false)) as [c |] eqn:Hb.
  - destruct (Ascii.eqb c slash) eqn:Hc; simpl.
    + apply Ascii.eqb_eq in Hc. subst c.
      destruct (1 <? String.length (normalize_loop p false))%nat eqn:Hl.
      * intros Hend. exfalso.
        exact (single_slashes_pop_back_end _ _ H Hb Hend).
      * intros _. apply Nat.ltb_ge in Hl.
        apply string_back_length_one; assumption.
    + intros Hend. rewrite Hb in Hend. injection Hend as ->.
      change (Ascii.eqb slash slash) with true in Hc. discriminate Hc.
  - intros Hend. rewrite Hb in Hend. discriminate Hend.
Qed.

Lemma prefix_double_slash (s : string) :
  prefix "//" s = true ->
  exists r, s = String slash (String slash r).
Proof.
  destruct s as [| a [| b r]]; cbn [prefix].
  - discriminate.
  - destruct (ascii_dec "/"%char a); discriminate.
  - destruct (ascii_dec "/"%char a) as [<- |]; [| discriminate].
    destruct (ascii_dec "/"%char b) as [<- |]; [| discriminate].
    intros _. exists r. reflexivity.
Qed.

Lemma single_slashes_no_double (s : string) (f : bool) :
  single_slashes s f = true -> string_contains "//" s = false.
Proof.
  revert f. induction s as [| c s IH]; intros f Hs; [reflexivity |].
  cbn [string_contains]. apply orb_false_iff. split.
  - destruct (prefix "//" (String c s)) eqn:Hp; [| reflexivity].
    destruct (prefix_double_slash _ Hp) as (r & Hr). injection Hr as -> ->.
    cbn [single_slashes] in Hs.
    change (Ascii.eqb slash slash) with true in Hs.
    destruct f; discriminate Hs.
  - cbn [single_slashes] in Hs. destruct (Ascii.eqb c slash).
    + destruct f; cbn [negb andb] in Hs; [discriminate Hs |]. exact (IH _ Hs).
    + exact (IH _ Hs).
Qed.

(** X1. [normalize] is idempotent, its result has no two slashes in a row,
    and it ends with a slash only when it is the root. *)
Theorem normalize_idempotent (p : string) :
  PathUtils.normalize (PathUtils.normalize p) = PathUtils.normalize p /\
  string_contains "//" (PathUtils.normalize p) = false /\
  (string_back (PathUtils.normalize p) = Some slash ->
   PathUtils.normalize p = "/").
Proof.
  split; [| split; [exact (single_slashes_no_double _ _ (normalize_single p))
                   | exact (normalize_end p)]].
  pose proof (normalize_single p) as Hs. pose proof (normalize_end p) as He.
  set (n := PathUtils.normalize p) in *.
  unfold PathUtils.normalize at 1. cbv zeta.
  rewrite (single_slashes_fixed _ _ Hs).
  destruct (string_back n) as [c |] eqn:Hb; [| reflexivity].
  destruct (Ascii.eqb c slash) eqn:Hc; [| reflexivity].
  apply Ascii.eqb_eq in Hc. subst c. rewrite (He eq_refl). reflexivity.
Qed.

Lemma rfind_slash_split (n : string) (pos : nat) :
  PathUtils.rfind_slash n = Some pos ->
  exists a b,
    n = a ++ String slash b /\ String.length a = pos /\
    PathUtils.rfind_slash b = None.
Proof.
  revert pos. induction n as [| c n IH]; intros pos; simpl; [discriminate |].
  destruct (PathUtils.rfind_slash n) as [k |] eqn:Hk.
  - intros H. injection H as <-.
    destruct (IH k eq_refl) as (a & b & -> & Hl & Hb).
    exists (String c a), b. simpl. rewrite Hl. auto.
  - destruct (Ascii.eqb c slash) eqn:Hc; [| discriminate].
    intros H. injection H as <-. apply Ascii.eqb_eq in Hc. subst c.
    exists "", n. auto.
Qed.

Lemma substring_head (a x : string) :
  substring 0 (String.length a) (a ++ x) = a.
Proof.
  induction a as [| c a IH]; simpl.
  - destruct x; reflexivity.
  - rewrite IH. reflexivity.
Qed.

Lemma substring_all (b : string) : substring 0 (String.length b) b = b.
Proof. induction b as [| c b IH]; simpl; [| rewrite IH]; reflexivity. Qed.

Lemma substring_tail (a b : string) (c : ascii) :
  substring (S (String.length a))
            (String.length (a ++ String c b) - S (String.length a))
            (a ++ String c b) = b.
Proof.
  induction a as [| c' a IH]; simpl.
  - rewrite Nat.sub_0_r. apply substring_all.
  - exact IH.
Qed.

Lemma contains_slash_cons (c : ascii) (s : string) :
  string_contains "/" (String c s) = Ascii.eqb c slash || string_contains "/" s.
Proof.
  cbn [string_contains prefix]. f_equal.
  destruct (ascii_dec "/"%char c) as [<- | Hne]; [destruct s; reflexivity |].
  symmetry. apply Ascii.eqb_neq. intros ->. apply Hne. reflexivity.
Qed.

Lemma contains_slash_app (a b : string) :
  string_contains "/" (a ++ String slash b) = true.
Proof.
  induction a as [| c a IH].
  - change ("" ++ String slash b) with (String slash b).
    rewrite contains_slash_cons. reflexivity.
  - change (String c a ++ String slash b) with (String c (a ++ String slash b)).
    rewrite contains_slash_cons, IH. apply orb_true_r.
Qed.

Lemma rfind_none_no_slash (b : string) :
  PathUtils.rfind_slash b = None -> string_contains "/" b = false.
Proof.
  induction b as [| c b IH]; [reflexivity |].
  rewrite contains_slash_cons. cbn [PathUtils.rfind_slash].
  destruct (PathUtils.rfind_slash b); [discriminate |].
  destruct (Ascii.eqb c slash); [discriminate |].
  intros _. exact (IH eq_refl).
Qed.

(** X2. [parent] and [filename] split the normalized path at its last
    slash: when there is one, parent, a slash and filename put together give
    the normalized path back; when there is none, parent is "." and filename
    is the whole normalized path.  The filename never contains a slash. *)
Theorem parent_filename_split (p : string) :
  (string_contains "/" (PathUtils.normalize p) = true ->
   PathUtils.parent p ++ "/" ++ PathUtils.filename p = PathUtils.normalize p) /\
  (string_contains "/" (PathUtils.normalize p) = false ->
   PathUtils.parent p = "." /\ PathUtils.filename p = PathUtils.normalize p) /\
  string_contains "/" (PathUtils.filename p) = false.
Proof.
  unfold PathUtils.parent, PathUtils.filename. cbv zeta.
  destruct (PathUtils.rfind_slash (PathUtils.normalize p)) as [pos |] eqn:Hr.
  - destruct (rfind_slash_split _ _ Hr) as (a & b & Hn & Hl & Hb).
    rewrite Hn, <- Hl, substring_head, substring_tail.
    split; [intros _; reflexivity |].
    split; [| exact (rfind_none_no_slash _ Hb)].
    rewrite contains_slash_app. discriminate.
  - pose proof (rfind_none_no_slash _ Hr) as Hc.
    split; [rewrite Hc; discriminate |].
    split; [intros _; split; reflexivity | exact Hc].
Qed.

Lemma parent_filename_split_witness :
  PathUtils.parent "/var/lib//agi/jails/dev/bin/bash" ++ "/"
    ++ PathUtils.filename "/var/lib//agi/jails/dev/bin/bash"
  = PathUtils.normalize "/var/lib//agi/jails/dev/bin/bash".
Proof.
  apply (proj1 (parent_filename_split "/var/lib//agi/jails/dev/bin/bash")).
  vm_compute. reflexivity.
Defined.

(** ** Further properties of [JailManager] *)

(** *** [validateConfig] *)

(** X3. [validateConfig] never answers false: it returns true, leaving the
    state alone, exactly when the name is not empty, the port lies in
    1..65535 and the configured root path has no "..", and otherwise throws a
    [JailError]. *)
Theorem validateConfig_true_or_throws (s : State) :
  (config_accepted (config_ (jail s)) = true ->
   validateConfig s = Ret true s) /\
  (config_accepted (config_ (jail s)) = false ->
   exists msg, validateConfig s = Throw (mkExn JailError msg) s) /\
  (forall s', validateConfig s <> Ret false s').
Proof.
  assert (H : if config_accepted (config_ (jail s))
              then validateConfig s = Ret true s
              else exists msg, validateConfig s = Throw (mkExn JailError msg) s).
  { unfold validateConfig, config_accepted, bind, get_jail.
    destruct (String.eqb (name (config_ (jail s))) "") eqn:Hn; cbn [negb andb].
    { eexists; reflexivity. }
    destruct (port (ssh (config_ (jail s))) <? 1) eqn:H1.
    { apply Z.ltb_lt in H1.
      replace (1 <=? port (ssh (config_ (jail s)))) with false
        by (symmetry; apply Z.leb_gt; lia).
      cbn [orb andb]. eexists; reflexivity. }
    apply Z.ltb_ge in H1.
    replace (1 <=? port (ssh (config_ (jail s)))) with true
      by (symmetry; apply Z.leb_le; lia).
    cbn [orb andb].
    destruct (65535 <? port (ssh (config_ (jail s)))) eqn:H2.
    { apply Z.ltb_lt in H2.
      replace (port (ssh (config_ (jail s))) <=? 65535) with false
        by (symmetry; apply Z.leb_gt; lia).
      cbn [andb]. eexists; reflexivity. }
    apply Z.ltb_ge in H2.
    replace (port (ssh (config_ (jail s))) <=? 65535) with true
      by (symmetry; apply Z.leb_le; lia).
    cbn [andb].
    destruct (string_contains ".." (root_path (config_ (jail s)))); cbn [negb];
      [eexists; reflexivity | reflexivity]. }
  destruct (config_accepted (config_ (jail s))).
  - split; [intros _; exact H |]. split; [discriminate |].
    intros s'. rewrite H. discriminate.
  - split; [discriminate |]. split; [intros _; exact H |].
    intros s'. destruct H as (msg & ->). discriminate.
Qed.

Lemma validateConfig_true_or_throws_witness :
  validateConfig fresh = Ret true fresh.
Proof.
  apply (proj1 (validateConfig_true_or_throws fresh)). reflexivity.
Defined.

Lemma string_contains_app_right (needle a b : string) :
  string_contains needle b = true -> string_contains needle (a ++ b) = true.
Proof.
  intros H. induction a as [| c a IH]; [exact H |].
  change (String c a ++ b) with (String c (a ++ b)).
  cbn [string_contains]. rewrite IH. apply orb_true_r.
Qed.

(** X4. The path check of [validateConfig] reads [root_path], but the jail
    lives at the path the constructor derives from the name: a configuration
    whose name contains ".." is accepted as long as the name is not empty,
    and the jail path of its manager contains "..". *)
Theorem validateConfig_ignores_name (c : EnvironmentConfig) (h : Host) :
  string_contains ".." (name c) = true ->
  1 <= port (ssh c) <= 65535 ->
  string_contains ".." (root_path c) = false ->
  validateConfig (mkState (new_jail c) h) = Ret true (mkState (new_jail c) h) /\
  string_contains ".." (jail_path_ (new_jail c)) = true.
Proof.
  intros Hn Hp Hr. split.
  - apply (proj1 (validateConfig_true_or_throws (mkState (new_jail c) h))).
    unfold config_accepted. cbn [jail config_ new_jail].
    rewrite Hr.
    destruct (String.eqb (name c) "") eqn:He.
    + apply String.eqb_eq in He. rewrite He in Hn. discriminate Hn.
    + replace (1 <=? port (ssh c)) with true by (symmetry; apply Z.leb_le; lia).
      replace (port (ssh c) <=? 65535) with true by (symmetry; apply Z.leb_le; lia).
      reflexivity.
  - cbn [jail_path_ new_jail]. apply string_contains_app_right. exact Hn.
Qed.

Lemma validateConfig_ignores_name_witness :
  let c := mkEnvironmentConfig "../../etc" ""
             (mkSshConfig 2201 "127.0.0.1" true true 3 300)
             (mkResourceLimits 300 524288 1048576 64 256) in
  validateConfig (mkState (new_jail c) bare_host)
    = Ret true (mkState (new_jail c) bare_host) /\
  string_contains ".." (jail_path_ (new_jail c)) = true.
Proof.
  cbv zeta.
  apply (validateConfig_ignores_name
           (mkEnvironmentConfig "../../etc" ""
              (mkSshConfig 2201 "127.0.0.1" true true 3 300)
              (mkResourceLimits 300 524288 1048576 64 256)) bare_host);
    [reflexivity | simpl; lia | reflexivity].
Defined.

(** *** Results and final status of the lifecycle operations *)

Lemma anyrel_refl (s : State) : anyrel s s.
Proof. exact I. Qed.

Lemma anyrel_trans (s1 s2 s3 : State) : anyrel s1 s2 -> anyrel s2 s3 -> anyrel s1 s3.
Proof. intros _ _. exact I. Qed.

Lemma steps_anyrel {A} (R : State -> State -> Prop) (m : M A) :
  steps R m -> steps anyrel m.
Proof. apply steps_weaken. intros ? ? _. exact I. Qed.

Lemma runs_modify_jail (f : Jail -> Jail) : runs anyrel (modify_jail f).
Proof. intros s. eexists _, _. split; [reflexivity | exact I]. Qed.

(** A computation that does not block maps any assertion to any. *)
Lemma jt_any {A} (m : M A) :
  steps anyrel m -> jtriple (fun _ => True) m (fun _ _ => True) (fun _ => True).
Proof.
  intros H s _. specialize (H s). destruct (m s); auto.
Qed.

Section Results.

Variable o : Oracle.

Ltac any_leaf :=
  first [ apply runs_modify_jail
        | apply runs_steps; apply runs_modify_jail
        | apply (steps_anyrel same_jail); solve [same]
        | eapply steps_anyrel; apply runs_steps; apply (unmount_loop_runs o) ].

Ltac any := compose anyrel_refl anyrel_trans any_leaf.

Lemma startSshd_any : steps anyrel (startSshd o).
Proof.
  unfold startSshd.
  apply steps_bind; [exact anyrel_trans | any | intros j].
  apply steps_bind; [exact anyrel_trans | any | intros b].
  apply steps_bind; [exact anyrel_trans | any | intros pid].
  destruct (0 <? pid); any.
Qed.

Lemma stopSshd_any : steps anyrel (stopSshd o).
Proof.
  unfold stopSshd.
  apply steps_bind; [exact anyrel_trans | any | intros j].
  destruct (0 <? sshd_pid_ j); any.
Qed.

Lemma mountFilesystems_any : steps anyrel (mountFilesystems o).
Proof. unfold mountFilesystems, addMountInfo. any. Qed.

Lemma unmountAll_any : steps anyrel (unmountAll o).
Proof.
  intros s. destruct (unmountAll_trace o s) as (s' & d & ns & -> & _). exact I.
Qed.

(** [start()] with the mutex free returns, with the mutex free again and
    the status RUNNING or ERROR as its result says. *)
Lemma start_returns_status :
  jtriple (fun j => True /\ mutex_ j = false) (start o)
          (fun b j => mutex_ j = false /\
                      status_ j = (if b then RUNNING else ERROR))
          (fun _ => False).
Proof.
  unfold start. apply jt_lock_guard.
  eapply jt_bind; [apply jt_get | intros j0]. cbv beta.
  destruct (JailStatus_eqb (status_ j0) RUNNING) eqn:Hst.
  - destruct (JailStatus_eqb_spec (status_ j0) RUNNING) as [Hr | ];
      [| discriminate Hst].
    eapply jt_bind with (Q := fun _ j => status_ j = RUNNING).
    + apply jt_pre with (P' := fun j => status_ j = RUNNING);
        [intros j [<- _]; exact Hr |].
      apply jt_runs. apply log_runs.
    + intros _. apply jt_ret_keep. intros j Hj. split; [reflexivity | exact Hj].
  - apply jt_pre with (P' := fun _ => True); [auto |].
    apply jt_try_catch with (E' := fun _ => True).
    + do 8 (eapply jt_bind with (Q := fun _ _ => True);
            [first [ apply jt_any; first [ any | apply startSshd_any
                                         | apply mountFilesystems_any ]
                   | match goal with
                     | |- jtriple _ (if ?c then _ else _) _ _ =>
                         destruct c; apply jt_any; any
                     end ]
            | intros ? ]).
      eapply jt_bind with (Q := fun _ j => status_ j = RUNNING);
        [apply jt_modify_keep; reflexivity | intros _].
      eapply jt_bind with (Q := fun _ j => status_ j = RUNNING);
        [apply jt_runs; apply now_runs | intros t].
      eapply jt_bind with (Q := fun _ j => status_ j = RUNNING);
        [apply jt_modify_keep; auto | intros _].
      eapply jt_bind with (Q := fun _ j => status_ j = RUNNING);
        [apply jt_runs; apply log_runs | intros _].
      apply jt_ret_keep. intros j Hj. split; [reflexivity | exact Hj].
    + intros e.
      eapply jt_bind with (Q := fun _ j => status_ j = ERROR);
        [apply jt_modify_keep; reflexivity | intros _].
      eapply jt_bind with (Q := fun _ j => status_ j = ERROR);
        [apply jt_runs; apply log_runs | intros _].
      apply jt_ret_keep. intros j Hj. split; [reflexivity | exact Hj].
Qed.

(** X5. [start()] called with the mutex free always returns a boolean, never
    throws, and releases the mutex; it returns true exactly when it leaves
    the status RUNNING and false exactly when it leaves the status ERROR. *)
Theorem start_result_matches_status (s : State) :
  mutex_ (jail s) = false ->
  exists b s',
    start o s = Ret b s' /\
    mutex_ (jail s') = false /\
    status_ (jail s') = (if b then RUNNING else ERROR).
Proof.
  intros Hm.
  pose proof start_returns_status as H.
  specialize (H s (conj I Hm)).
  destruct (start o s) as [b s' | e s' | s']; [| contradiction | contradiction].
  exists b, s'. split; [reflexivity | exact H].
Qed.

(** X6. [stop()] called with the mutex free always returns a boolean, never
    throws, and releases the mutex; it returns true exactly when it leaves
    the status STOPPED and false exactly when it leaves the status ERROR.
    After a [stop()] that returned true, a further [stop()] returns true and
    changes nothing at all: no log call, no system call. *)
Theorem stop_result_matches_status (s : State) :
  mutex_ (jail s) = false ->
  exists b s',
    stop o s = Ret b s' /\
    mutex_ (jail s') = false /\
    status_ (jail s') = (if b then STOPPED else ERROR) /\
    (b = true -> stop o s' = Ret true s').
Proof.
  intros Hm.
  assert (H : jtriple (fun j => True /\ mutex_ j = false) (stop o)
                (fun b j => mutex_ j = false /\
                            status_ j = (if b then STOPPED else ERROR))
                (fun _ => False)).
  { unfold stop. apply jt_lock_guard. unfold stop_body.
    eapply jt_bind; [apply jt_get | intros j0]. cbv beta.
    destruct (JailStatus_eqb (status_ j0) STOPPED) eqn:Hst.
    - destruct (JailStatus_eqb_spec (status_ j0) STOPPED) as [Hr | ];
        [| discriminate Hst].
      apply jt_ret_keep. intros j [<- _]. split; [reflexivity | exact Hr].
    - apply jt_pre with (P' := fun _ => True); [auto |].
      apply jt_try_catch with (E' := fun _ => True).
      + do 5 (eapply jt_bind with (Q := fun _ _ => True);
              [apply jt_any; first [ any | apply stopSshd_any
                                   | apply unmountAll_any ]
              | intros ? ]).
        eapply jt_bind with (Q := fun _ j => status_ j = STOPPED);
          [apply jt_modify_keep; reflexivity | intros _].
        eapply jt_bind with (Q := fun _ j => status_ j = STOPPED);
          [apply jt_runs; apply log_runs | intros _].
        apply jt_ret_keep. intros j Hj. split; [reflexivity | exact Hj].
      + intros e.
        eapply jt_bind with (Q := fun _ j => status_ j = ERROR);
          [apply jt_modify_keep; reflexivity | intros _].
        eapply jt_bind with (Q := fun _ j => status_ j = ERROR);
          [apply jt_runs; apply log_runs | intros _].
        apply jt_ret_keep. intros j Hj. split; [reflexivity | exact Hj]. }
  specialize (H s (conj I Hm)).
  destruct (stop o s) as [b s' | e s' | s']; [| contradiction | contradiction].
  destruct H as [Hm' Hs'].
  exists b, s'. split; [reflexivity |]. split; [exact Hm' |].
  split; [exact Hs' |].
  intros ->. unfold stop, lock_guard. rewrite Hm'.
  unfold stop_body, bind, get_jail. cbn [jail set_jail with_mutex status_].
  rewrite Hs'. cbn [JailStatus_eqb ret jail set_jail].
  rewrite (with_mutex_restore _ Hm'). destruct s'; reflexivity.
Qed.

End Results.

Lemma start_result_matches_status_witness :
  exists b s',
    start calm created = Ret b s' /\
    mutex_ (jail s') = false /\
    status_ (jail s') = (if b then RUNNING else ERROR).
Proof.
  apply (start_result_matches_status calm created). reflexivity.
Defined.

Lemma stop_result_matches_status_witness :
  exists b s',
    stop calm running = Ret b s' /\
    mutex_ (jail s') = false /\
    status_ (jail s') = (if b then STOPPED else ERROR) /\
    (b = true -> stop calm s' = Ret true s').
Proof.
  apply (stop_result_matches_status calm running). vm_compute. reflexivity.
Defined.


(** *** [create] *)

Lemma path_chain_last (acc rest : string) : In (acc ++ rest) (path_chain acc rest).
Proof.
  revert acc. induction rest as [| c rest IH]; intros acc.
  - simpl. left. clear. induction acc as [| c acc IH]; simpl; [| rewrite IH at 1]; reflexivity.
  - cbn [path_chain]. apply in_or_app. right.
    replace (acc ++ String c rest) with ((acc ++ String c "") ++ rest);
      [apply IH |].
    clear. induction acc as [| c' acc IH]; [reflexivity |].
    change ((String c' acc ++ String c "") ++ rest)
      with (String c' ((acc ++ String c "") ++ rest)).
    rewrite IH. reflexivity.
Qed.

Lemma mem_path_add_self (p : string) (ps : list string) :
  mem_path p (add_path p ps) = true.
Proof.
  unfold add_path. destruct (mem_path p ps) eqn:H; [exact H |].
  rewrite mem_path_app. unfold mem_path at 2. simpl.
  rewrite String.eqb_refl. apply orb_true_r.
Qed.

Lemma mem_path_fold_added (d : string) (ds ps : list string) :
  In d ds -> mem_path d (fold_left (fun ps x => add_path x ps) ds ps) = true.
Proof.
  revert ps. induction ds as [| x ds IH]; intros ps; [contradiction |].
  intros [-> | Hin]; simpl.
  - apply mem_path_fold_add. apply mem_path_add_self.
  - apply IH. exact Hin.
Qed.

Section CreateSkeleton.

Variable o : Oracle.

(** One round of the loop of [createDirectoryStructure]: when it returns,
    the directory is on disk. *)
Lemma ensure_dir (dir : string) (s : State) :
  match (b <- fs_exists o dir ;;
         if negb b then
           create_directories o dir ;;
           log "DEBUG" ("Creating directory: " ++ dir)
         else ret tt) s with
  | Ret _ s' => grows s s' /\ mem_path dir (paths (host s')) = true
  | Throw _ _ => True
  | Deadlock _ => False
  end.
Proof.
  unfold bind at 1. unfold fs_exists.
  destruct (exists_fails o dir); [exact I |].
  destruct (mem_path dir (paths (host s))) eqn:Hm; cbn [negb].
  - split; [apply grows_refl | exact Hm].
  - unfold bind. pose proof (create_directories_steps o dir s) as G.
    unfold create_directories in *.
    destruct (mkdirs_fails o dir); [exact I |].
    rewrite log_spec. cbn [jail host set_host add_events add_event set_paths paths].
    split.
    + eapply grows_trans; [exact G |].
      destruct (log_runs_grows "DEBUG" ("Creating directory: " ++ dir)) with
        (s := set_host
                (add_event (EvMkdirs dir)
                   (set_paths
                      (fold_left (fun ps d => add_path d ps)
                                 (path_chain "" dir) (paths (host s)))
                      (host s))) s) as ([] & s' & E & G').
      { simpl. intros [H | H]; discriminate H. }
      rewrite log_spec in E. injection E as <-. exact G'.
    + apply mem_path_fold_added. exact (path_chain_last "" dir).
Qed.

Lemma ensure_dirs (dirs : list string) (s : State) :
  match for_each dirs (fun dir =>
          b <- fs_exists o dir ;;
          if negb b then
            create_directories o dir ;;
            log "DEBUG" ("Creating directory: " ++ dir)
          else ret tt) s with
  | Ret _ s' =>
      grows s s' /\ forall d, In d dirs -> mem_path d (paths (host s')) = true
  | Throw _ _ => True
  | Deadlock _ => False
  end.
Proof.
  revert s. induction dirs as [| dir dirs IH]; intros s.
  - simpl. split; [apply grows_refl | intros d []].
  - cbn [for_each]. unfold bind at 1.
    pose proof (ensure_dir dir s) as H1.
    destruct (bind (fs_exists o dir) _ s) as [[] s1 | e s1 | s1];
      [| exact I | exact H1].
    destruct H1 as [G1 M1]. specialize (IH s1).
    destruct (for_each dirs _ s1) as [[] s2 | e s2 | s2]; [| exact I | exact IH].
    destruct IH as [G2 M2]. split; [exact (grows_trans _ _ _ G1 G2) |].
    intros d [<- | Hd]; [| exact (M2 d Hd)].
    destruct G2 as (_ & HP & _). exact (HP _ M1).
Qed.

Lemma lock_guard_same {A} (body : M A) (s : State) :
  runs same_jail body ->
  mutex_ (jail s) = false ->
  exists a s', lock_guard body s = Ret a s' /\ jail s' = jail s.
Proof.
  intros H Hm. unfold lock_guard. rewrite Hm.
  destruct (H (set_jail (with_mutex true (jail s)) s)) as (a & s' & -> & J).
  eexists _, _. split; [reflexivity |]. cbn [jail set_jail].
  unfold same_jail in J. cbn [jail set_jail] in J. rewrite J.
  apply with_mutex_restore. exact Hm.
Qed.

(** X7. [create()] called with the mutex free always returns a boolean and
    leaves every field of the manager as it was (status included).  When it
    returns true, every path of the fixed skeleton is present on the disk,
    as [std::filesystem::exists] sees it, so that [exists()] then answers
    true.  The code asks no more than that: it creates a directory only
    where nothing is present, and does not look at what is present. *)
Theorem create_builds_skeleton (s : State) :
  mutex_ (jail s) = false ->
  exists b s',
    create o s = Ret b s' /\
    jail s' = jail s /\
    (b = true ->
     (forall d, In d (skeleton_dirs (jail s)) ->
                mem_path d (paths (host s')) = true) /\
     (exists_fails o (jail_path_ (jail s)) = false ->
      jail_exists o s' = Ret true s')).
Proof.
  intros Hm.
  assert (Hruns : runs same_jail
            (j <- get_jail ;;
             try_catch
               (log "INFO" ("Starting to create jail environment: " ++ name (config_ j)) ;;
                createDirectoryStructure o ;;
                copyBaseSystem o ;;
                createDeviceNodes o ;;
                generateSshConfig o ;;
                createInitScripts o ;;
                log "INFO" ("Jail environment created successfully: " ++ jail_path_ j) ;;
                ret true)
               (fun e =>
                log "ERROR" ("Failed to create jail: " ++ what e) ;;
                ret false))).
  { apply runs_bind; [exact same_jail_trans | same | intros j].
    apply runs_try_catch; [exact same_jail_trans | same | intros e; same]. }
  destruct (lock_guard_same _ s Hruns Hm) as (b & s' & E & J).
  exists b, s'. split; [exact E |]. split; [exact J |].
  intros ->. revert E. unfold create, lock_guard. rewrite Hm.
  erewrite bind_Ret by reflexivity.
  set (s0 := set_jail (with_mutex true (jail s)) s).
  unfold try_catch.
  erewrite bind_Ret by apply log_spec.
  match goal with |- context [bind (createDirectoryStructure o) ?k ?st] =>
    set (s1 := st); set (rest := k) end.
  unfold bind at 1.
  assert (Hd : match createDirectoryStructure o s1 with
               | Ret _ s2 =>
                   forall d, In d (skeleton_dirs (jail s)) ->
                             mem_path d (paths (host s2)) = true
               | Throw _ _ => True
               | Deadlock _ => False
               end).
  { unfold createDirectoryStructure. unfold bind at 1. unfold get_jail at 1.
    cbv zeta.
    pose proof (ensure_dirs (skeleton_dirs (jail s1)) s1) as H.
    change (skeleton_dirs (jail s1)) with (skeleton_dirs (jail s)) in H at 2.
    unfold skeleton_dirs at 1 in H.
    destruct (for_each _ _ s1); [exact (proj2 H) | exact I | exact H]. }
  destruct (createDirectoryStructure o s1) as [[] s2 | e s2 | s2];
    [| erewrite bind_Ret by apply log_spec; discriminate | contradiction].
  assert (Hrest : steps grows (rest tt)).
  { unfold rest. grow. }
  specialize (Hrest s2).
  destruct (rest tt s2) as [b5 s5 | e s5 | s5];
    [| erewrite bind_Ret by apply log_spec; discriminate | discriminate].
  intros E. injection E as _ <-.
  cbn [jail host set_jail].
  assert (Hpresent : forall d, In d (skeleton_dirs (jail s)) ->
                               mem_path d (paths (host s5)) = true).
  { intros d Hin. destruct Hrest as (_ & HP & _). exact (HP _ (Hd d Hin)). }
  split; [exact Hpresent |].
  intros Hex. unfold jail_exists, bind, get_jail, fs_exists.
  cbn [jail host set_jail].
  assert (Hj5 : jail_path_ (with_mutex false (jail s5)) = jail_path_ (jail s)).
  { rewrite <- J. reflexivity. }
  rewrite Hj5, Hex, (Hpresent (jail_path_ (jail s)) (or_introl eq_refl)).
  reflexivity.
Qed.

End CreateSkeleton.

Lemma create_builds_skeleton_witness :
  exists b s',
    create calm fresh = Ret b s' /\
    jail s' = jail fresh /\
    (b = true ->
     (forall d, In d (skeleton_dirs (jail fresh)) ->
                mem_path d (paths (host s')) = true) /\
     (exists_fails calm (jail_path_ (jail fresh)) = false ->
      jail_exists calm s' = Ret true s')).
Proof.
  apply (create_builds_skeleton calm fresh). reflexivity.
Defined.

(** ** What the operations call *)

Lemma kill_calls_app (a b : list Event) :
  kill_calls (a ++ b) = (kill_calls a ++ kill_calls b)%list.
Proof.
  induction a as [| e a IH]; simpl; [reflexivity |].
  destruct e; simpl; rewrite ?IH; reflexivity.
Qed.

Lemma calls_only_nil (u : bool) : calls_only u [].
Proof. repeat split. Qed.

Lemma calls_only_app (u : bool) (a b : list Event) :
  calls_only u a -> calls_only u b -> calls_only u (a ++ b).
Proof.
  intros (M1 & K1 & U1) (M2 & K2 & U2). repeat split.
  - rewrite mount_calls_app, M1, M2. reflexivity.
  - rewrite kill_calls_app, K1, K2. reflexivity.
  - intros Hu. rewrite umount_calls_app, (U1 Hu), (U2 Hu). reflexivity.
Qed.

Lemma calls_only_weaken (d : list Event) : calls_only false d -> calls_only true d.
Proof. intros (M1 & K1 & _). repeat split; auto. discriminate. Qed.

Lemma calls_only_log (u : bool) (j : Jail) (l m : string) :
  calls_only u (log_events j [EvLog l m]).
Proof. unfold log_events. destruct (logger_ j); repeat split. Qed.

Lemma plain_refl (s : State) : plain s s.
Proof.
  split; [reflexivity | split; [reflexivity | split; [reflexivity |]]].
  exists []. split; [symmetry; apply app_nil_r | apply calls_only_nil].
Qed.

Lemma plain_trans (s1 s2 s3 : State) : plain s1 s2 -> plain s2 s3 -> plain s1 s3.
Proof.
  intros (P1 & A1 & B1 & d1 & T1 & C1) (P2 & A2 & B2 & d2 & T2 & C2).
  split; [congruence | split; [congruence | split; [congruence |]]].
  exists (d1 ++ d2)%list. split.
  - rewrite T2, T1. symmetry. apply app_assoc.
  - apply calls_only_app; assumption.
Qed.

Lemma unsignalled_refl (s : State) : unsignalled s s.
Proof. exists []. split; [symmetry; apply app_nil_r | apply calls_only_nil]. Qed.

Lemma unsignalled_trans (s1 s2 s3 : State) :
  unsignalled s1 s2 -> unsignalled s2 s3 -> unsignalled s1 s3.
Proof.
  intros (d1 & T1 & C1) (d2 & T2 & C2).
  exists (d1 ++ d2)%list. split.
  - rewrite T2, T1. symmetry. apply app_assoc.
  - apply calls_only_app; assumption.
Qed.

Lemma plain_unsignalled (s s' : State) : plain s s' -> unsignalled s s'.
Proof.
  intros (_ & _ & _ & d & T & C). exists d. split; [exact T |].
  apply calls_only_weaken. exact C.
Qed.

(** A step that touches the host only, keeps the mount table and adds the
    events [d]. *)
Lemma plain_host (s : State) (h' : Host) (d : list Event) :
  mounted h' = mounted (host s) ->
  trace h' = (trace (host s) ++ d)%list ->
  calls_only false d ->
  plain s (set_host h' s).
Proof.
  intros HM HT HC.
  split; [reflexivity | split; [reflexivity | split; [exact HM |]]].
  exists d. split; assumption.
Qed.

Section PlainCalls.

Variable o : Oracle.

Lemma emit_plain (e : Event) : calls_only false [e] -> runs plain (emit e).
Proof.
  intros HC s. eexists _, _. split; [reflexivity |].
  apply plain_host with (d := [e]); [reflexivity | reflexivity | exact HC].
Qed.

Lemma log_plain (level msg : string) : runs plain (log level msg).
Proof.
  intros s. rewrite log_spec. eexists _, _. split; [reflexivity |].
  apply plain_host with (d := log_events (jail s) [EvLog level msg]);
    [reflexivity | reflexivity | apply calls_only_log].
Qed.

Lemma modify_jail_plain (f : Jail -> Jail) :
  (forall j, jail_path_ (f j) = jail_path_ j) ->
  (forall j, active_mounts_ (f j) = active_mounts_ j) ->
  runs plain (modify_jail f).
Proof.
  intros Hp Hf s. eexists _, _. split; [reflexivity |].
  split; [apply Hp | split; [apply Hf | split; [reflexivity |]]].
  exists []. split; [symmetry; apply app_nil_r | apply calls_only_nil].
Qed.

Lemma fs_exists_plain (p : string) : steps plain (fs_exists o p).
Proof.
  intros s. unfold fs_exists. destruct (exists_fails o p); apply plain_refl.
Qed.

Lemma create_directories_plain (p : string) : steps plain (create_directories o p).
Proof.
  intros s. unfold create_directories.
  destruct (mkdirs_fails o p); [apply plain_refl |].
  apply plain_host with (d := [EvMkdirs p]); repeat split.
Qed.

Lemma remove_all_plain (p : string) : steps plain (remove_all o p).
Proof.
  intros s. unfold remove_all.
  destruct (remove_fails o p);
    apply plain_host with (d := [EvRemoveAll p]); repeat split.
Qed.

Lemma FileUtils_read_plain (p : string) : steps plain (FileUtils_read o p).
Proof.
  intros s. unfold FileUtils_read.
  destruct (mem_path p (paths (host s)) && can_read o p); apply plain_refl.
Qed.

Lemma FileUtils_write_plain (p c : string) : runs plain (FileUtils_write o p c).
Proof.
  intros s. unfold FileUtils_write. destruct (can_write o p).
  - eexists _, _. split; [reflexivity |].
    apply plain_host with (d := [EvWrite p c]); repeat split.
  - eexists _, _. split; [reflexivity | apply plain_refl].
Qed.

Lemma sys_chmod_plain (p : string) (m : Z) : runs plain (sys_chmod p m).
Proof. apply emit_plain. repeat split. Qed.

Lemma sys_mknod_plain (p : string) (k : ascii) (a b : Z) :
  runs plain (sys_mknod o p k a b).
Proof.
  intros s. unfold sys_mknod. eexists _, _. split; [reflexivity |].
  apply plain_host with (d := [EvMknod p k a b]);
    [destruct (mknod_ok o p); reflexivity
    | destruct (mknod_ok o p); reflexivity | repeat split].
Qed.

Lemma sys_setrlimit_plain (r : Rlimit) (c m : Z) : runs plain (sys_setrlimit r c m).
Proof. apply emit_plain. repeat split. Qed.

Lemma sleep_ms_plain (ms : Z) : runs plain (sleep_ms ms).
Proof. apply emit_plain. repeat split. Qed.

Lemma sys_fork_plain (c : Child) : runs plain (sys_fork o c).
Proof.
  intros s. unfold sys_fork. eexists _, _. split; [reflexivity |].
  eapply plain_host; [reflexivity | reflexivity | repeat split].
Qed.

Lemma sys_waitpid_plain (p : Z) : runs plain (sys_waitpid o p).
Proof.
  intros s. unfold sys_waitpid. eexists _, _. split; [reflexivity |].
  apply plain_host with (d := [EvWaitpid p]); repeat split.
Qed.

Lemma now_plain : runs plain (now o).
Proof.
  intros s. unfold now. eexists _, _. split; [reflexivity | apply plain_refl].
Qed.

End PlainCalls.

Create HintDb plain_runs.
Create HintDb plain_steps.

#[export] Hint Resolve log_plain FileUtils_write_plain sys_chmod_plain
  sys_mknod_plain sys_setrlimit_plain sleep_ms_plain sys_fork_plain
  sys_waitpid_plain now_plain : plain_runs.
#[export] Hint Resolve fs_exists_plain create_directories_plain
  remove_all_plain FileUtils_read_plain : plain_steps.

Ltac plain_leaf :=
  first [ solve [auto with plain_runs]
        | apply runs_steps; solve [auto with plain_runs]
        | solve [auto with plain_steps]
        | apply modify_jail_plain; intros ?; reflexivity
        | apply runs_steps; apply modify_jail_plain; intros ?; reflexivity ].

Ltac plainly := compose plain_refl plain_trans plain_leaf.

Section PlainOps.

Variable o : Oracle.

Lemma create_body_plain (j : Jail) :
  runs plain
    (try_catch
       (log "INFO" ("Starting to create jail environment: " ++ name (config_ j)) ;;
        createDirectoryStructure o ;;
        copyBaseSystem o ;;
        createDeviceNodes o ;;
        generateSshConfig o ;;
        createInitScripts o ;;
        log "INFO" ("Jail environment created successfully: " ++ jail_path_ j) ;;
        ret true)
       (fun e =>
        log "ERROR" ("Failed to create jail: " ++ what e) ;;
        ret false)).
Proof.
  unfold createDirectoryStructure, copyBaseSystem, copyBinary,
    copyEssentialLibraries, copyLibrary, createDeviceNodes, createDeviceNode,
    generateSshConfig, createInitScripts.
  plainly.
Qed.

Lemma execute_plain (command : string) : steps plain (execute o command).
Proof.
  unfold execute.
  apply steps_bind; [exact plain_trans | plainly | intros j].
  apply steps_if; [plainly |].
  apply steps_bind; [exact plain_trans | plainly | intros pid].
  apply steps_if; [| plainly].
  apply steps_bind; [exact plain_trans | plainly | intros [code |]]; plainly.
Qed.

Lemma lock_guard_plain {A} (body : M A) (s : State) :
  runs plain body ->
  mutex_ (jail s) = false ->
  exists a s', lock_guard body s = Ret a s' /\ plain s s'.
Proof.
  intros H Hm. unfold lock_guard. rewrite Hm.
  destruct (H (set_jail (with_mutex true (jail s)) s)) as (a & s' & -> & P).
  eexists _, _. split; [reflexivity | exact P].
Qed.

(** X8. Neither [create()] nor [execute()] ever calls [mount], [umount] or
    [kill], and neither changes the recorded mounts or the kernel's mount
    table: [create()] with the mutex free returns in such a state, and
    [execute()] returns or throws in such a state. *)
Theorem create_execute_leave_mounts (s : State) (command : string) :
  (mutex_ (jail s) = false ->
   exists b s', create o s = Ret b s' /\ plain s s') /\
  ((exists r s', execute o command s = Ret r s' /\ plain s s') \/
   (exists e s', execute o command s = Throw e s' /\ plain s s')).
Proof.
  split.
  - intros Hm. unfold create. apply lock_guard_plain; [| exact Hm].
    apply runs_bind; [exact plain_trans | plainly | intros j].
    apply create_body_plain.
  - pose proof (execute_plain command s) as H.
    destruct (execute o command s) as [r s' | e s' | s']; [| | contradiction].
    + left. exists r, s'. split; [reflexivity | exact H].
    + right. exists e, s'. split; [reflexivity | exact H].
Qed.

End PlainOps.

Lemma create_execute_leave_mounts_witness :
  (exists b s', create calm fresh = Ret b s' /\ plain fresh s') /\
  ((exists r s', execute calm "ls" running = Ret r s' /\ plain running s') \/
   (exists e s', execute calm "ls" running = Throw e s' /\ plain running s')).
Proof.
  destruct (create_execute_leave_mounts calm fresh "ls") as [H _].
  destruct (create_execute_leave_mounts calm running "ls") as [_ H'].
  split; [apply H; reflexivity | exact H'].
Defined.

(** *** [start] mounts and does not roll back *)

Lemma plain_then_four (o : Oracle) (s1 s2 s3 : State) :
  plain s1 s2 -> mounted_four o s2 s3 -> mounted_four o s1 s3.
Proof.
  intros (P1 & A1 & B1 & d1 & T1 & M1 & K1 & U1)
         (P2 & A2 & B2 & d2 & T2 & M2 & U2 & K2).
  unfold mounted_four. cbv zeta in *. rewrite P1 in *.
  split; [congruence |]. split; [congruence |]. split; [congruence |].
  exists (d1 ++ d2)%list. split; [rewrite T2, T1; symmetry; apply app_assoc |].
  rewrite mount_calls_app, umount_calls_app, kill_calls_app.
  rewrite M1, M2, K1, K2, U2, (U1 eq_refl). repeat split.
Qed.

Lemma four_then_plain (o : Oracle) (s1 s2 s3 : State) :
  mounted_four o s1 s2 -> plain s2 s3 -> mounted_four o s1 s3.
Proof.
  intros (P2 & A2 & B2 & d2 & T2 & M2 & U2 & K2)
         (P1 & A1 & B1 & d1 & T1 & M1 & K1 & U1).
  unfold mounted_four. cbv zeta in *.
  split; [congruence |]. split; [congruence |]. split; [congruence |].
  exists (d2 ++ d1)%list. split; [rewrite T1, T2; symmetry; apply app_assoc |].
  rewrite mount_calls_app, umount_calls_app, kill_calls_app.
  rewrite M1, M2, K1, K2, U2, (U1 eq_refl), !app_nil_r. repeat split.
Qed.

Section StartMounts.

Variable o : Oracle.

Lemma mountFilesystems_four (s : State) :
  exists s', mountFilesystems o s = Ret tt s' /\ mounted_four o s s'.
Proof.
  unfold mountFilesystems. unfold bind at 1. unfold get_jail at 1.
  destruct (mount_step o "proc" (jail_path_ (jail s) ++ "/proc") "proc" 0 None ""
              (_ <- sys_mount o "sysfs" (jail_path_ (jail s) ++ "/sys") "sysfs" 0 None ;;
               addMountInfo "sysfs" (jail_path_ (jail s) ++ "/sys") "sysfs" "" ;;
               _ <- sys_mount o "devpts" (jail_path_ (jail s) ++ "/dev/pts") "devpts" 0
                      (Some "gid=5,mode=620") ;;
               addMountInfo "devpts" (jail_path_ (jail s) ++ "/dev/pts") "devpts"
                            "gid=5,mode=620" ;;
               _ <- sys_mount o "/tmp" (jail_path_ (jail s) ++ "/tmp") "none" MS_BIND None ;;
               addMountInfo "/tmp" (jail_path_ (jail s) ++ "/tmp") "none" "bind" ;;
               log "DEBUG" "Filesystem mounting completed") s)
    as (h1 & -> & _ & T1 & K1).
  match goal with |- context [bind ?m ?k ?st] =>
    destruct (mount_step o "sysfs" (jail_path_ (jail s) ++ "/sys") "sysfs" 0 None ""
              (_ <- sys_mount o "devpts" (jail_path_ (jail s) ++ "/dev/pts") "devpts" 0
                      (Some "gid=5,mode=620") ;;
               addMountInfo "devpts" (jail_path_ (jail s) ++ "/dev/pts") "devpts"
                            "gid=5,mode=620" ;;
               _ <- sys_mount o "/tmp" (jail_path_ (jail s) ++ "/tmp") "none" MS_BIND None ;;
               addMountInfo "/tmp" (jail_path_ (jail s) ++ "/tmp") "none" "bind" ;;
               log "DEBUG" "Filesystem mounting completed") st)
    as (h2 & -> & _ & T2 & K2)
  end.
  match goal with |- context [bind ?m ?k ?st] =>
    destruct (mount_step o "devpts" (jail_path_ (jail s) ++ "/dev/pts") "devpts" 0
                (Some "gid=5,mode=620") "gid=5,mode=620"
              (_ <- sys_mount o "/tmp" (jail_path_ (jail s) ++ "/tmp") "none" MS_BIND None ;;
               addMountInfo "/tmp" (jail_path_ (jail s) ++ "/tmp") "none" "bind" ;;
               log "DEBUG" "Filesystem mounting completed") st)
    as (h3 & -> & _ & T3 & K3)
  end.
  match goal with |- context [bind ?m ?k ?st] =>
    destruct (mount_step o "/tmp" (jail_path_ (jail s) ++ "/tmp") "none" MS_BIND None
                "bind" (log "DEBUG" "Filesystem mounting completed") st)
    as (h4 & -> & _ & T4 & K4)
  end.
  cbn [jail host] in *. rewrite log_spec. eexists. split; [reflexivity |].
  unfold mounted_four. cbv zeta.
  cbn [jail host set_host with_mounts active_mounts_ jail_path_ add_events
       mounted trace fixed_mounts map target filter].
  split; [reflexivity |].
  split; [rewrite <- !app_assoc; reflexivity |].
  split.
  - rewrite K4, K3, K2, K1.
    destruct (mount_ok o (jail_path_ (jail s) ++ "/proc"));
      destruct (mount_ok o (jail_path_ (jail s) ++ "/sys"));
      destruct (mount_ok o (jail_path_ (jail s) ++ "/dev/pts"));
      destruct (mount_ok o (jail_path_ (jail s) ++ "/tmp"));
      rewrite <- ?app_assoc, ?app_nil_r; reflexivity.
  - eexists. split.
    + rewrite T4, T3, T2, T1. rewrite <- !app_assoc. reflexivity.
    + unfold log_events. cbn [logger_ with_mounts].
      destruct (logger_ (jail s)); repeat split.
Qed.

Lemma setResourceLimits_plain : runs plain setResourceLimits.
Proof. unfold setResourceLimits. plainly. Qed.

Lemma runScript_plain (script : string) : steps plain (runScript o script).
Proof. unfold runScript. plainly. Qed.

Lemma start_tail_plain (j : Jail) :
  steps plain
    (startSshd o ;;
     runInitScript o ;;
     modify_jail (with_status RUNNING) ;;
     t <- now o ;;
     modify_jail (with_start_time t) ;;
     log "INFO" ("Jail environment has been started: " ++ name (config_ j)
                 ++ " (SSH port: " ++ to_string (port (ssh (config_ j))) ++ ")") ;;
     ret true).
Proof.
  unfold startSshd, runInitScript.
  compose plain_refl plain_trans
    ltac:(first [ apply runScript_plain | plain_leaf ]).
Qed.

Lemma failed_handler_plain (st : JailStatus) (msg : string) (s : State) :
  exists s',
    (modify_jail (with_status st) ;; log "ERROR" msg ;; ret false) s = Ret false s' /\
    plain s s'.
Proof.
  unfold bind at 1. unfold modify_jail at 1.
  rewrite (bind_Ret _ _ _ _ _ (log_spec _ _ _)).
  eexists. split; [reflexivity |].
  split; [reflexivity | split; [reflexivity | split; [reflexivity |]]].
  eexists. split; [reflexivity | apply calls_only_log].
Qed.

Lemma fs_exists_ok (p : string) (s : State) :
  exists_fails o p = false ->
  fs_exists o p s = Ret (mem_path p (paths (host s))) s.
Proof. intros H. unfold fs_exists. rewrite H. reflexivity. Qed.

Lemma startSshd_fork_fails :
  (forall n, fork_rc o n = None) ->
  forall s, exists e s', startSshd o s = Throw e s'.
Proof.
  intros Hf s. unfold startSshd, bind, get_jail, fs_exists, sys_fork.
  destruct (exists_fails o _); [eexists _, _; reflexivity |].
  rewrite Hf. change (0 <? -1) with false. cbv iota.
  eexists _, _. reflexivity.
Qed.

Lemma mounted_four_unlock (s s' : State) :
  mounted_four o (set_jail (with_mutex true (jail s)) s) s' ->
  mounted_four o s (set_jail (with_mutex false (jail s')) s').
Proof. intros H. exact H. Qed.

(** X9. [start()] on a jail that is not running and whose root exists makes
    the four mount calls once each, in order, and records all four on top of
    what was recorded; whether it then returns true or false, it unmounts
    nothing and sends no signal, so the mounts the kernel accepted stay
    mounted.  When [fork] fails it returns false. *)
Theorem start_mounts_without_rollback (s : State) :
  mutex_ (jail s) = false ->
  status_ (jail s) <> RUNNING ->
  exists_fails o (jail_path_ (jail s)) = false ->
  mem_path (jail_path_ (jail s)) (paths (host s)) = true ->
  exists b s',
    start o s = Ret b s' /\
    mounted_four o s s' /\
    ((forall n, fork_rc o n = None) -> b = false).
Proof.
  intros Hm Hst Hex Hmem.
  unfold start, lock_guard. rewrite Hm.
  unfold bind at 1. unfold get_jail at 1. cbn [jail set_jail with_mutex status_].
  rewrite (JailStatus_eqb_neq _ _ Hst).
  set (s0 := {| jail := with_mutex true (jail s); host := host s |}).
  set (tail := (startSshd o ;; _)).
  set (h := fun e : Exn => _).
  assert (Hpre : exists s5,
            mounted_four o s0 s5 /\
            forall k : M bool,
              (log "INFO" ("Starting jail environment: " ++ name (config_ (jail s))) ;;
               modify_jail (with_status STARTING) ;;
               b <- fs_exists o (jail_path_ (jail s)) ;;
               (if negb b
                then throw (mkExn JailError
                              "Jail directory does not exist, please create it first")
                else ret tt) ;;
               setResourceLimits ;;
               mountFilesystems o ;; k) s0 = k s5).
  { destruct (setResourceLimits_plain
                (set_jail (with_status STARTING (jail s0))
                   (set_host (add_events
                                (log_events (jail s0)
                                   [EvLog "INFO" ("Starting jail environment: "
                                                  ++ name (config_ (jail s)))])
                                (host s0)) s0)))
      as ([] & s4 & E4 & P4).
    destruct (mountFilesystems_four s4) as (s5 & E5 & F5).
    exists s5. split.
    - apply plain_then_four with (s2 := s4); [| exact F5].
      eapply plain_trans; [| exact P4].
      split; [reflexivity | split; [reflexivity | split; [reflexivity |]]].
      eexists. split; [reflexivity | apply calls_only_log].
    - intros k.
      rewrite (bind_Ret _ _ _ _ _ (log_spec _ _ _)).
      unfold bind at 1. unfold modify_jail at 1.
      rewrite (bind_Ret _ _ _ _ _ (fs_exists_ok _ _ Hex)).
      cbn [jail host set_jail set_host add_events paths].
      unfold s0 at 1. cbn [host]. rewrite Hmem. cbn [negb].
      unfold bind at 1. unfold ret at 1.
      rewrite (bind_Ret _ _ _ _ _ E4).
      rewrite (bind_Ret _ _ _ _ _ E5). reflexivity. }
  destruct Hpre as (s5 & F5 & Hk).
  unfold try_catch.
  match goal with
  | |- context [?body (set_jail (with_mutex true (jail s)) s)] =>
      replace (body (set_jail (with_mutex true (jail s)) s)) with (tail s5)
        by (symmetry; exact (Hk tail))
  end.
  assert (Ht : steps plain tail) by apply start_tail_plain.
  specialize (Ht s5).
  destruct (tail s5) as [b s6 | e s6 | s6] eqn:Et; [| | contradiction].
  - exists b, (set_jail (with_mutex false (jail s6)) s6).
    split; [reflexivity |].
    split; [apply mounted_four_unlock; eapply four_then_plain; eassumption |].
    intros Hf. exfalso.
    destruct (startSshd_fork_fails Hf s5) as (e & s' & E).
    unfold tail in Et. rewrite (bind_Throw _ _ _ _ _ E) in Et. discriminate Et.
  - destruct (failed_handler_plain ERROR ("Failed to start jail: " ++ what e) s6)
      as (s7 & E7 & P7).
    exists false, (set_jail (with_mutex false (jail s7)) s7).
    split; [unfold h; rewrite E7; reflexivity |].
    split; [| reflexivity].
    apply mounted_four_unlock. eapply four_then_plain; [| exact P7].
    eapply four_then_plain; eassumption.
Qed.

End StartMounts.

Lemma start_mounts_without_rollback_witness :
  exists b s',
    start no_fork created = Ret b s' /\
    mounted_four no_fork created s' /\
    ((forall n, fork_rc no_fork n = None) -> b = false).
Proof.
  apply (start_mounts_without_rollback no_fork created);
    [reflexivity | discriminate | reflexivity | vm_compute; reflexivity].
Defined.

(** *** [stop] signals the recorded process *)

Section StopSignals.

Variable o : Oracle.

Lemma sys_umount_unsignalled (tgt : string) : runs unsignalled (sys_umount o tgt).
Proof.
  intros s. unfold sys_umount. cbv zeta.
  destruct (umount_rc o tgt _); eexists _, _; (split; [reflexivity |]);
    exists [EvUmount tgt]; (split; [reflexivity |]); repeat split; discriminate.
Qed.

Ltac unsignalled_leaf :=
  first [ apply sys_umount_unsignalled
        | apply runs_steps; apply sys_umount_unsignalled
        | eapply runs_weaken; [exact plain_unsignalled |]; solve [plain_leaf]
        | eapply steps_weaken; [exact plain_unsignalled |]; solve [plain_leaf] ].

Ltac quietly := compose unsignalled_refl unsignalled_trans unsignalled_leaf.

Lemma umount_retry_unsignalled (tgt : string) (n : nat) :
  runs unsignalled (umount_retry o tgt n).
Proof.
  induction n as [| n IH]; cbn [umount_retry].
  - quietly.
  - apply runs_bind; [exact unsignalled_trans | quietly |].
    intros [| errno]; [quietly |].
    apply runs_if; [| quietly].
    apply runs_bind; [exact unsignalled_trans | quietly | intros _; exact IH].
Qed.

Lemma unmountAll_unsignalled : runs unsignalled (unmountAll o).
Proof.
  unfold unmountAll.
  apply runs_bind; [exact unsignalled_trans | quietly | intros j].
  apply runs_bind; [exact unsignalled_trans | | intros _].
  - apply runs_for_each; [exact unsignalled_refl | exact unsignalled_trans |].
    intros it _. apply umount_retry_unsignalled.
  - intros s. eexists _, _. split; [reflexivity |].
    exists []. split; [symmetry; apply app_nil_r | apply calls_only_nil].
Qed.

Lemma stop_tail_unsignalled (msg : string) :
  steps unsignalled
    (runCleanupScript o ;;
     unmountAll o ;;
     modify_jail (with_status STOPPED) ;;
     log "INFO" msg ;;
     ret true).
Proof.
  unfold runCleanupScript.
  compose unsignalled_refl unsignalled_trans
    ltac:(first [ apply runs_steps; apply unmountAll_unsignalled
                | eapply steps_weaken; [exact plain_unsignalled |];
                  apply runScript_plain
                | unsignalled_leaf ]).
Qed.

(** [stopSshd]: one SIGTERM to the recorded process and one wait for it when
    the recorded id is positive, nothing at all otherwise. *)
Lemma stopSshd_signals (s : State) :
  exists s' d,
    stopSshd o s = Ret tt s' /\
    trace (host s') = (trace (host s) ++ d)%list /\
    mount_calls d = [] /\
    (if 0 <? sshd_pid_ (jail s)
     then exists rest,
            d = EvKill (sshd_pid_ (jail s)) SIGTERM
                  :: EvWaitpid (sshd_pid_ (jail s)) :: rest /\
            kill_calls rest = []
     else d = []).
Proof.
  unfold stopSshd. unfold bind at 1. unfold get_jail at 1.
  destruct (0 <? sshd_pid_ (jail s)).
  - unfold bind, sys_kill, sys_waitpid, emit, modify_host, modify_jail.
    rewrite log_spec. eexists _, _. split; [reflexivity |].
    cbn [jail host set_jail set_host add_events add_event trace].
    split; [rewrite <- !app_assoc; reflexivity |].
    split; [cbn [app mount_calls]; unfold log_events;
            destruct (logger_ _); reflexivity |].
    eexists. split; [reflexivity |].
    unfold log_events. destruct (logger_ _); reflexivity.
  - exists s, []. split; [reflexivity |].
    split; [symmetry; apply app_nil_r |]. split; reflexivity.
Qed.

(** X10. [stop()] on a jail that is not STOPPED sends exactly one signal,
    SIGTERM, to the recorded sshd process and then waits for it, when the
    recorded process id is positive; it sends no signal at all otherwise.
    It makes no mount call, whatever it returns. *)
Theorem stop_signals_recorded_pid (s : State) :
  mutex_ (jail s) = false ->
  status_ (jail s) <> STOPPED ->
  exists b s' d,
    stop o s = Ret b s' /\
    trace (host s') = (trace (host s) ++ d)%list /\
    mount_calls d = [] /\
    kill_calls d = (if 0 <? sshd_pid_ (jail s)
                    then [(sshd_pid_ (jail s), SIGTERM)] else []) /\
    (0 < sshd_pid_ (jail s) ->
     exists d1 d2,
       d = (d1 ++ EvKill (sshd_pid_ (jail s)) SIGTERM
               :: EvWaitpid (sshd_pid_ (jail s)) :: d2)%list /\
       kill_calls d1 = []).
Proof.
  intros Hm Hst.
  unfold stop, lock_guard. rewrite Hm.
  unfold stop_body. unfold bind at 1. unfold get_jail at 1.
  cbn [jail set_jail with_mutex status_].
  rewrite (JailStatus_eqb_neq _ _ Hst).
  set (s0 := set_jail (with_mutex true (jail s)) s).
  set (tail := (runCleanupScript o ;; _)).
  set (h := fun e : Exn => _).
  set (l := log_events (jail s0)
              [EvLog "INFO" ("Stopping jail environment: "
                             ++ name (config_ (with_mutex true (jail s))))]).
  destruct (stopSshd_signals
              (set_jail (with_status STOPPING (jail s0))
                 (set_host (add_events l (host s0)) s0)))
    as (s3 & d & E3 & T3 & M3 & K3).
  cbn [jail host set_jail set_host add_events trace with_status sshd_pid_] in T3, K3.
  change (sshd_pid_ (jail s0)) with (sshd_pid_ (jail s)) in K3.
  change (trace (host s0)) with (trace (host s)) in T3.
  assert (Hl : calls_only false l) by apply calls_only_log.
  assert (Ht : steps unsignalled tail) by apply stop_tail_unsignalled.
  specialize (Ht s3).
  assert (Hbody : forall k : M bool,
            (log "INFO" ("Stopping jail environment: "
                         ++ name (config_ (with_mutex true (jail s)))) ;;
             modify_jail (with_status STOPPING) ;;
             stopSshd o ;; k) s0 = k s3).
  { intros k. rewrite (bind_Ret _ _ _ _ _ (log_spec _ _ _)).
    unfold bind at 1. unfold modify_jail at 1.
    rewrite (bind_Ret _ _ _ _ _ E3). reflexivity. }
  unfold try_catch. rewrite (Hbody tail).
  assert (Hfin : forall (b : bool) (s6 : State),
            unsignalled s3 s6 ->
            exists d',
              trace (host (set_jail (with_mutex false (jail s6)) s6)) =
                (trace (host s) ++ d')%list /\
              mount_calls d' = [] /\
              kill_calls d' = (if 0 <? sshd_pid_ (jail s)
                               then [(sshd_pid_ (jail s), SIGTERM)] else []) /\
              (0 < sshd_pid_ (jail s) ->
               exists d1 d2,
                 d' = (d1 ++ EvKill (sshd_pid_ (jail s)) SIGTERM
                          :: EvWaitpid (sshd_pid_ (jail s)) :: d2)%list /\
                 kill_calls d1 = [])).
  { intros _ s6 (d6 & T6 & M6 & K6 & _).
    destruct Hl as (Ml & Kl & _).
    exists (l ++ d ++ d6)%list. cbn [host set_jail].
    split; [rewrite T6, T3, <- !app_assoc; reflexivity |].
    rewrite !mount_calls_app, !kill_calls_app, Ml, M3, M6, Kl, K6, app_nil_r.
    split; [reflexivity |]. cbn [app].
    destruct (0 <? sshd_pid_ (jail s)) eqn:Hp.
    - destruct K3 as (rest & -> & Kr). split.
      + cbn [kill_calls]. rewrite Kr. reflexivity.
      + intros _. exists l, (rest ++ d6)%list. split; [reflexivity | exact Kl].
    - subst d. split; [reflexivity |]. intros Hpos.
      apply Z.ltb_ge in Hp. lia. }
  destruct (tail s3) as [b s6 | e s6 | s6]; [| | contradiction].
  - destruct (Hfin b s6 Ht) as (d' & H').
    exists b, (set_jail (with_mutex false (jail s6)) s6), d'.
    split; [reflexivity | exact H'].
  - destruct (failed_handler_plain ERROR ("Failed to stop jail: " ++ what e) s6)
      as (s7 & E7 & P7).
    destruct (Hfin false s7) as (d' & H').
    { eapply unsignalled_trans; [exact Ht | apply plain_unsignalled; exact P7]. }
    exists false, (set_jail (with_mutex false (jail s7)) s7), d'.
    split; [unfold h; rewrite E7; reflexivity | exact H'].
Qed.

End StopSignals.

Lemma stop_signals_recorded_pid_witness :
  exists b s' d,
    stop calm running = Ret b s' /\
    trace (host s') = (trace (host running) ++ d)%list /\
    mount_calls d = [] /\
    kill_calls d = (if 0 <? sshd_pid_ (jail running)
                    then [(sshd_pid_ (jail running), SIGTERM)] else []) /\
    (0 < sshd_pid_ (jail running) ->
     exists d1 d2,
       d = (d1 ++ EvKill (sshd_pid_ (jail running)) SIGTERM
               :: EvWaitpid (sshd_pid_ (jail running)) :: d2)%list /\
       kill_calls d1 = []).
Proof.
  apply (stop_signals_recorded_pid calm running);
    [vm_compute; reflexivity | vm_compute; discriminate].
Defined.

(** *** [isWithin] *)

Lemma prefix_refl (s : string) : prefix s s = true.
Proof.
  induction s as [| c s IH]; [reflexivity |].
  cbn [prefix]. destruct (ascii_dec c c); [exact IH | congruence].
Qed.

Lemma prefix_empty (s : string) : prefix "" s = true.
Proof. destruct s; reflexivity. Qed.

Lemma prefix_slash_cons (c : ascii) (s : string) :
  prefix "/" (String c s) = Ascii.eqb c slash.
Proof.
  cbn [prefix]. destruct (ascii_dec "/"%char c) as [<- | Hne].
  - apply prefix_empty.
  - symmetry. apply Ascii.eqb_neq. intros ->. apply Hne. reflexivity.
Qed.

(** X11. [isWithin] compares spellings: every path is within itself; the
    base "/" contains no path but "/" itself (the character after the base
    is never a slash); and the empty base contains the empty path and every
    absolute path. *)
Theorem isWithin_root_and_empty_base (p : string) :
  PathUtils.isWithin p p = true /\
  (PathUtils.isWithin p "/" = true <-> PathUtils.normalize p = "/") /\
  (PathUtils.isWithin p "" = true <->
   PathUtils.normalize p = "" \/ prefix "/" (PathUtils.normalize p) = true).
Proof.
  split; [| split].
  - unfold PathUtils.isWithin. cbv zeta.
    rewrite prefix_refl, Nat.ltb_irrefl. reflexivity.
  - unfold PathUtils.isWithin. cbv zeta.
    change (PathUtils.normalize "/") with "/".
    pose proof (normalize_single p) as Hs.
    destruct (PathUtils.normalize p) as [| c [| c2 r]].
    + split; discriminate.
    + rewrite prefix_slash_cons. cbn [String.length Nat.ltb Nat.leb].
      destruct (Ascii.eqb c slash) eqn:Hc.
      * apply Ascii.eqb_eq in Hc. subst c. split; reflexivity.
      * split; [discriminate |]. intros H. injection H as ->. discriminate Hc.
    + rewrite prefix_slash_cons. cbn [String.length Nat.ltb Nat.leb String.get].
      destruct (Ascii.eqb c slash) eqn:Hc; [| split; discriminate].
      destruct (Ascii.eqb c2 slash) eqn:Hc2; [| split; discriminate].
      exfalso. cbn [single_slashes] in Hs. rewrite Hc, Hc2 in Hs.
      discriminate Hs.
  - unfold PathUtils.isWithin. cbv zeta.
    change (PathUtils.normalize "") with "".
    rewrite prefix_empty.
    destruct (PathUtils.normalize p) as [| c r].
    + split; [left; reflexivity | reflexivity].
    + rewrite prefix_slash_cons. cbn [String.length Nat.ltb Nat.leb String.get].
      split; [intros H; right; exact H | intros [H | H]; [discriminate | exact H]].
Qed.

Lemma normalize_idempotent_witness :
  PathUtils.normalize (PathUtils.normalize "//var//lib/agi//") =
    PathUtils.normalize "//var//lib/agi//" /\
  string_contains "//" (PathUtils.normalize "//var//lib/agi//") = false /\
  (string_back (PathUtils.normalize "//") = Some slash ->
   PathUtils.normalize "//" = "/").
Proof.
  destruct (normalize_idempotent "//var//lib/agi//") as (H1 & H2 & _).
  destruct (normalize_idempotent "//") as (_ & _ & H3).
  split; [exact H1 | split; [exact H2 | exact H3]].
Defined.

(** ** The pool *)

Lemma string_compare_refl (s : string) : String.compare s s = Eq.
Proof.
  pose proof (String.compare_antisym s s) as H.
  destruct (String.compare s s); simpl in H; congruence.
Qed.

Lemma string_compare_lt_neq (a b : string) : String.compare a b = Lt -> a <> b.
Proof. intros H ->. rewrite string_compare_refl in H. discriminate. Qed.

Lemma ascii_compare_trans (a b c : ascii) :
  Ascii.compare a b = Lt -> Ascii.compare b c = Lt -> Ascii.compare a c = Lt.
Proof.
  unfold Ascii.compare. rewrite !N.compare_lt_iff. apply N.lt_trans.
Qed.

Lemma string_compare_trans (a b c : string) :
  String.compare a b = Lt -> String.compare b c = Lt -> String.compare a c = Lt.
Proof.
  revert b c. induction a as [| x a IH]; intros [| y b] [| z c]; simpl;
    try discriminate; try reflexivity.
  destruct (Ascii.compare x y) eqn:Hxy; try discriminate;
    destruct (Ascii.compare y z) eqn:Hyz; try discriminate.
  - apply Ascii.compare_eq_iff in Hxy, Hyz. subst.
    replace (Ascii.compare z z) with Eq
      by (symmetry; unfold Ascii.compare; apply N.compare_refl).
    apply IH.
  - apply Ascii.compare_eq_iff in Hxy. subst. rewrite Hyz. reflexivity.
  - apply Ascii.compare_eq_iff in Hyz. subst. rewrite Hxy. reflexivity.
  - rewrite (ascii_compare_trans _ _ _ Hxy Hyz). reflexivity.
Qed.

Lemma ltb_lt (a b : string) : String.ltb a b = true <-> String.compare a b = Lt.
Proof. unfold String.ltb. destruct (String.compare a b); split; congruence. Qed.

Lemma map_find_insert_same (k : string) (v : Jail) (m : JailMap) :
  map_find k (map_insert k v m) = Some v.
Proof.
  induction m as [| [k' v'] m IH]; cbn [map_insert map_find].
  - rewrite String.eqb_refl. reflexivity.
  - destruct (String.compare k k') eqn:Hc; cbn [map_find].
    + rewrite String.eqb_refl. reflexivity.
    + rewrite String.eqb_refl. reflexivity.
    + destruct (String.eqb k k') eqn:He; [| exact IH].
      apply String.eqb_eq in He. subst. rewrite string_compare_refl in Hc.
      discriminate.
Qed.

Lemma map_find_insert_other (k n : string) (v : Jail) (m : JailMap) :
  n <> k -> map_find n (map_insert k v m) = map_find n m.
Proof.
  intros Hn. apply String.eqb_neq in Hn.
  induction m as [| [k' v'] m IH]; cbn [map_insert map_find].
  - rewrite Hn. reflexivity.
  - destruct (String.compare k k') eqn:Hc; cbn [map_find].
    + apply String.compare_eq_iff in Hc. subst k'. rewrite Hn. reflexivity.
    + rewrite Hn. reflexivity.
    + rewrite IH. reflexivity.
Qed.

Lemma map_find_assign (k n : string) (v : Jail) (m : JailMap) :
  map_find n (map_assign k v m) =
    if String.eqb n k then option_map (fun _ => v) (map_find k m)
    else map_find n m.
Proof.
  induction m as [| [k' v'] m IH]; cbn [map_assign map_find].
  - destruct (String.eqb n k); reflexivity.
  - destruct (String.eqb k k') eqn:Hk; cbn [map_find option_map].
    + apply String.eqb_eq in Hk. subst k'.
      destruct (String.eqb n k); reflexivity.
    + rewrite IH. destruct (String.eqb n k) eqn:Hn; [| reflexivity].
      apply String.eqb_eq in Hn. subst n. rewrite Hk. reflexivity.
Qed.

Lemma map_assign_same (k : string) (v : Jail) (m : JailMap) :
  map_find k m = Some v -> map_assign k v m = m.
Proof.
  induction m as [| [k' v'] m IH]; cbn [map_assign map_find]; [reflexivity |].
  destruct (String.eqb k k').
  - intros H. injection H as ->. reflexivity.
  - intros H. rewrite (IH H). reflexivity.
Qed.

Lemma map_assign_keys (k : string) (v : Jail) (m : JailMap) :
  map fst (map_assign k v m) = map fst m.
Proof.
  induction m as [| [k' v'] m IH]; cbn [map_assign map fst]; [reflexivity |].
  destruct (String.eqb k k'); cbn [map fst]; rewrite ?IH; reflexivity.
Qed.

Lemma map_find_erase_other (k n : string) (m : JailMap) :
  n <> k -> map_find n (map_erase k m) = map_find n m.
Proof.
  intros Hn. apply String.eqb_neq in Hn.
  induction m as [| [k' v'] m IH]; cbn [map_erase map_find]; [reflexivity |].
  destruct (String.eqb k k') eqn:Hk; cbn [map_find].
  - apply String.eqb_eq in Hk. subst k'. rewrite Hn. reflexivity.
  - rewrite IH. reflexivity.
Qed.

(** In a sorted map every key after the first is greater than the first. *)
Lemma keys_sorted_tail (k : string) (v : Jail) (m : JailMap) :
  keys_sorted ((k, v) :: m) = true ->
  keys_sorted m = true /\
  forall n, In n (map fst m) -> String.compare k n = Lt.
Proof.
  revert k v. induction m as [| [k' v'] m IH]; intros k v H.
  - split; [reflexivity | intros n []].
  - cbn [keys_sorted] in H. fold keys_sorted in H.
    apply andb_true_iff in H. destruct H as [Hlt Hs].
    change (keys_sorted ((k', v') :: m) = true) in Hs.
    split; [exact Hs |].
    apply ltb_lt in Hlt. intros n [<- | Hn]; [exact Hlt |].
    destruct (IH _ _ Hs) as [_ H']. eapply string_compare_trans; eauto.
Qed.

Lemma keys_sorted_cons (k : string) (v : Jail) (m : JailMap) :
  keys_sorted m = true ->
  (forall n, In n (map fst m) -> String.compare k n = Lt) ->
  keys_sorted ((k, v) :: m) = true.
Proof.
  intros Hs Hk. destruct m as [| [k' v'] m]; [reflexivity |].
  cbn [keys_sorted]. fold keys_sorted.
  apply andb_true_iff. split; [| exact Hs].
  apply ltb_lt. apply Hk. left. reflexivity.
Qed.

Lemma map_find_not_in (k : string) (m : JailMap) :
  ~ In k (map fst m) -> map_find k m = None.
Proof.
  induction m as [| [k' v'] m IH]; cbn [map_find map fst]; [reflexivity |].
  intros H. destruct (String.eqb k k') eqn:Hk.
  - apply String.eqb_eq in Hk. subst. exfalso. apply H. left. reflexivity.
  - apply IH. intros Hin. apply H. right. exact Hin.
Qed.

Lemma map_find_in (k : string) (m : JailMap) :
  In k (map fst m) <-> map_find k m <> None.
Proof.
  induction m as [| [k' v'] m IH]; cbn [map_find map fst In].
  - split; [intros [] | intros H; apply H; reflexivity].
  - destruct (String.eqb k k') eqn:Hk.
    + apply String.eqb_eq in Hk. subst. split; [discriminate | auto].
    + apply String.eqb_neq in Hk. rewrite <- IH.
      split; [intros [H | H]; [congruence | exact H] | auto].
Qed.

Lemma map_insert_keys (k n : string) (v : Jail) (m : JailMap) :
  In n (map fst (map_insert k v m)) <-> n = k \/ In n (map fst m).
Proof.
  induction m as [| [k' v'] m IH]; cbn [map_insert map fst In].
  - intuition.
  - destruct (String.compare k k') eqn:Hc; cbn [map fst In].
    + apply String.compare_eq_iff in Hc. subst k'. intuition.
    + intuition.
    + rewrite IH. intuition.
Qed.

Lemma map_erase_keys (k n : string) (m : JailMap) :
  In n (map fst (map_erase k m)) -> In n (map fst m).
Proof.
  induction m as [| [k' v'] m IH]; cbn [map_erase map fst In]; [auto |].
  destruct (String.eqb k k'); cbn [map fst In]; intuition.
Qed.

Lemma keys_sorted_insert (k : string) (v : Jail) (m : JailMap) :
  keys_sorted m = true -> keys_sorted (map_insert k v m) = true.
Proof.
  induction m as [| [k' v'] m IH]; intros Hs; [reflexivity |].
  cbn [map_insert]. destruct (keys_sorted_tail _ _ _ Hs) as [Hm Hk'].
  destruct (String.compare k k') eqn:Hc.
  - apply String.compare_eq_iff in Hc. subst k'.
    apply keys_sorted_cons; assumption.
  - apply keys_sorted_cons; [exact Hs |].
    intros n [<- | Hn]; [exact Hc |].
    eapply string_compare_trans; [exact Hc | apply Hk'; exact Hn].
  - apply keys_sorted_cons; [apply IH; exact Hm |].
    intros n Hn. apply map_insert_keys in Hn. destruct Hn as [-> | Hn].
    + rewrite String.compare_antisym, Hc. reflexivity.
    + apply Hk'. exact Hn.
Qed.

Lemma keys_sorted_erase (k : string) (m : JailMap) :
  keys_sorted m = true -> keys_sorted (map_erase k m) = true.
Proof.
  induction m as [| [k' v'] m IH]; intros Hs; [reflexivity |].
  cbn [map_erase]. destruct (keys_sorted_tail _ _ _ Hs) as [Hm Hk'].
  destruct (String.eqb k k'); [exact Hm |].
  apply keys_sorted_cons; [apply IH; exact Hm |].
  intros n Hn. apply Hk'. eapply map_erase_keys. exact Hn.
Qed.

Lemma map_find_erase_same (k : string) (m : JailMap) :
  keys_sorted m = true -> map_find k (map_erase k m) = None.
Proof.
  induction m as [| [k' v'] m IH]; intros Hs; [reflexivity |].
  cbn [map_erase]. destruct (keys_sorted_tail _ _ _ Hs) as [Hm Hk'].
  destruct (String.eqb k k') eqn:Hk.
  - apply String.eqb_eq in Hk. subst k'. apply map_find_not_in.
    intros Hin. apply (string_compare_lt_neq _ _ (Hk' _ Hin)). reflexivity.
  - cbn [map_find]. rewrite Hk. apply IH. exact Hm.
Qed.

Lemma keys_sorted_assign (k : string) (v : Jail) (m : JailMap) :
  keys_sorted (map_assign k v m) = keys_sorted m.
Proof.
  induction m as [| [k' v'] m IH]; [reflexivity |].
  cbn [map_assign]. destruct (String.eqb k k'); [destruct m as [| [? ?] ?]; reflexivity |].
  cbn [keys_sorted]. fold keys_sorted.
  destruct m as [| [k2 v2] m]; [reflexivity |].
  change (keys_sorted (map_assign k v ((k2, v2) :: m)) =
          keys_sorted ((k2, v2) :: m)) in IH.
  cbn [map_assign] in *. destruct (String.eqb k k2); rewrite IH; reflexivity.
Qed.

Lemma map_insert_length (k : string) (v : Jail) (m : JailMap) :
  map_find k m = None -> length (map_insert k v m) = S (length m).
Proof.
  induction m as [| [k' v'] m IH]; cbn [map_insert map_find]; [reflexivity |].
  destruct (String.eqb k k') eqn:Hk; [discriminate |]. intros H.
  destruct (String.compare k k') eqn:Hc; cbn [length].
  - apply String.compare_eq_iff in Hc. apply String.eqb_neq in Hk. contradiction.
  - reflexivity.
  - rewrite (IH H). reflexivity.
Qed.

Lemma map_erase_length (k : string) (m : JailMap) :
  map_find k m <> None -> S (length (map_erase k m)) = length m.
Proof.
  induction m as [| [k' v'] m IH]; cbn [map_erase map_find]; [congruence |].
  destruct (String.eqb k k'); [reflexivity |]. intros H.
  cbn [length]. rewrite (IH H). reflexivity.
Qed.

Lemma cli_eta (c : Cli) :
  pool_mutex_ (jail_pool_ c) = false ->
  set_pool (with_pool_mutex false (jail_pool_ c)) c = c.
Proof.
  destruct c as [[m l mu] envs h out]. cbn. intros ->. reflexivity.
Qed.

Lemma pool_lock_guard_done {A} (body : Cmd A) (c c' : Cli) (a : A) :
  pool_mutex_ (jail_pool_ c) = false ->
  body (set_pool (with_pool_mutex true (jail_pool_ c)) c) = Done a c' ->
  pool_lock_guard body c =
    Done a (set_pool (with_pool_mutex false (jail_pool_ c')) c').
Proof.
  intros Hm Hb. unfold pool_lock_guard. rewrite Hm, Hb. reflexivity.
Qed.

Lemma addEnvironment_eq (config : EnvironmentConfig) (c : Cli) :
  pool_mutex_ (jail_pool_ c) = false ->
  JailManagerPool.addEnvironment config c =
    match map_find (name config) (jails_ (jail_pool_ c)) with
    | Some _ => Done false c
    | None =>
        Done true
          (set_pool
             (with_jails
                (map_insert (name config)
                   (with_logger (pool_logger_ (jail_pool_ c)) (new_jail config))
                   (jails_ (jail_pool_ c)))
                (jail_pool_ c)) c)
    end.
Proof.
  intros Hm. unfold JailManagerPool.addEnvironment, pool_lock_guard.
  rewrite Hm. unfold cbind at 1. unfold get_pool at 1.
  cbn [jail_pool_ set_pool jails_ with_pool_mutex pool_logger_].
  destruct c as [[m l mu] envs h out]. cbn in Hm. subst mu.
  cbn [jail_pool_ jails_ pool_logger_].
  destruct (map_find (name config) m); reflexivity.
Qed.

Lemma getJail_eq (n : string) (c : Cli) :
  pool_mutex_ (jail_pool_ c) = false ->
  JailManagerPool.getJail n c =
    Done (match map_find n (jails_ (jail_pool_ c)) with
          | Some _ => Some n
          | None => None
          end) c.
Proof.
  intros Hm. unfold JailManagerPool.getJail, pool_lock_guard.
  rewrite Hm. unfold cbind at 1. unfold get_pool at 1.
  cbn [jail_pool_ set_pool jails_ with_pool_mutex pool_logger_].
  destruct c as [[m l mu] envs h out]. cbn in Hm. subst mu.
  cbn [jail_pool_ jails_ pool_logger_].
  destruct (map_find n m); reflexivity.
Qed.

Lemma listJails_eq (c : Cli) :
  pool_mutex_ (jail_pool_ c) = false ->
  JailManagerPool.listJails c = Done (map fst (jails_ (jail_pool_ c))) c.
Proof.
  intros Hm. unfold JailManagerPool.listJails, pool_lock_guard.
  rewrite Hm. destruct c as [[m l mu] envs h out]. cbn in Hm. subst mu.
  reflexivity.
Qed.

Lemma size_eq (c : Cli) :
  pool_mutex_ (jail_pool_ c) = false ->
  JailManagerPool.size c = Done (length (jails_ (jail_pool_ c))) c.
Proof.
  intros Hm. unfold JailManagerPool.size, pool_lock_guard.
  rewrite Hm. destruct c as [[m l mu] envs h out]. cbn in Hm. subst mu.
  reflexivity.
Qed.

(** X12. [addEnvironment] never replaces a manager: under a name the pool
    already has it returns false and changes nothing, so the manager there
    keeps its state.  Under a new name it returns true and registers a new
    manager, STOPPED and with the pool's logger, which [getJail] then finds;
    the other entries, the order of the keys, the host and the console are
    as before. *)
Theorem addEnvironment_registers_once (config : EnvironmentConfig) (c : Cli) :
  pool_mutex_ (jail_pool_ c) = false ->
  (forall j, map_find (name config) (jails_ (jail_pool_ c)) = Some j ->
             JailManagerPool.addEnvironment config c = Done false c) /\
  (map_find (name config) (jails_ (jail_pool_ c)) = None ->
   exists c',
     JailManagerPool.addEnvironment config c = Done true c' /\
     map_find (name config) (jails_ (jail_pool_ c')) =
       Some (with_logger (pool_logger_ (jail_pool_ c)) (new_jail config)) /\
     (forall n, n <> name config ->
        map_find n (jails_ (jail_pool_ c')) = map_find n (jails_ (jail_pool_ c))) /\
     (keys_sorted (jails_ (jail_pool_ c)) = true ->
      keys_sorted (jails_ (jail_pool_ c')) = true) /\
     length (jails_ (jail_pool_ c')) = S (length (jails_ (jail_pool_ c))) /\
     cli_host c' = cli_host c /\ console c' = console c /\
     JailManagerPool.getJail (name config) c' = Done (Some (name config)) c').
Proof.
  intros Hm. split.
  - intros j Hj. rewrite (addEnvironment_eq _ _ Hm), Hj. reflexivity.
  - intros Hn. rewrite (addEnvironment_eq _ _ Hm), Hn.
    eexists. split; [reflexivity |].
    cbn [jail_pool_ set_pool jails_ with_jails cli_host console].
    split; [apply map_find_insert_same |].
    split; [intros n Hne; apply map_find_insert_other; exact Hne |].
    split; [apply keys_sorted_insert |].
    split; [apply map_insert_length; exact Hn |].
    split; [reflexivity |]. split; [reflexivity |].
    rewrite getJail_eq by exact Hm.
    cbn [jail_pool_ set_pool jails_ with_jails].
    rewrite map_find_insert_same. reflexivity.
Qed.

Lemma addEnvironment_registers_once_witness :
  JailManagerPool.addEnvironment dev_config dev_cli = Done false dev_cli /\
  exists c',
    JailManagerPool.addEnvironment dev_config (new_cli [] bare_host) = Done true c' /\
    map_find "dev" (jails_ (jail_pool_ c')) = Some (new_jail dev_config) /\
    JailManagerPool.getJail "dev" c' = Done (Some "dev") c'.
Proof.
  split.
  - apply (proj1 (addEnvironment_registers_once dev_config dev_cli eq_refl)
             (jail running)).
    reflexivity.
  - destruct (proj2 (addEnvironment_registers_once dev_config (new_cli [] bare_host)
                       eq_refl) eq_refl)
      as (c' & E & F & _ & _ & _ & _ & _ & G).
    exists c'. split; [exact E |]. split; [exact F | exact G].
Defined.

(** *** [removeEnvironment] *)

Lemma keeps_disk_refl (s : State) : keeps_disk s s.
Proof. reflexivity. Qed.

Lemma keeps_disk_trans (s1 s2 s3 : State) :
  keeps_disk s1 s2 -> keeps_disk s2 s3 -> keeps_disk s1 s3.
Proof. unfold keeps_disk. congruence. Qed.

Section KeepsDisk.

Variable o : Oracle.

Lemma emit_keeps_disk (e : Event) : runs keeps_disk (emit e).
Proof. intros s. eexists _, _. split; reflexivity. Qed.

Lemma log_keeps_disk (l m : string) : runs keeps_disk (log l m).
Proof. intros s. rewrite log_spec. eexists _, _. split; reflexivity. Qed.

Lemma modify_jail_keeps_disk (f : Jail -> Jail) : runs keeps_disk (modify_jail f).
Proof. intros s. eexists _, _. split; reflexivity. Qed.

Lemma fs_exists_keeps_disk (p : string) : steps keeps_disk (fs_exists o p).
Proof. intros s. unfold fs_exists. destruct (exists_fails o p); reflexivity. Qed.

Lemma sys_fork_keeps_disk (ch : Child) : runs keeps_disk (sys_fork o ch).
Proof. intros s. eexists _, _. split; reflexivity. Qed.

Lemma sys_waitpid_keeps_disk (p : Z) : runs keeps_disk (sys_waitpid o p).
Proof. intros s. eexists _, _. split; reflexivity. Qed.

Lemma sys_umount_keeps_disk (t : string) : runs keeps_disk (sys_umount o t).
Proof.
  intros s. unfold sys_umount. cbv zeta.
  destruct (umount_rc o t _); eexists _, _; split; reflexivity.
Qed.

Ltac disk_leaf :=
  first [ apply log_keeps_disk | apply modify_jail_keeps_disk
        | apply sys_fork_keeps_disk | apply sys_waitpid_keeps_disk
        | apply sys_umount_keeps_disk | apply fs_exists_keeps_disk
        | apply emit_keeps_disk
        | apply runs_steps;
          first [ apply log_keeps_disk | apply modify_jail_keeps_disk
                | apply sys_fork_keeps_disk | apply sys_waitpid_keeps_disk
                | apply sys_umount_keeps_disk | apply emit_keeps_disk ] ].

Ltac disk := compose keeps_disk_refl keeps_disk_trans disk_leaf.

Lemma umount_retry_keeps_disk (tgt : string) (n : nat) :
  runs keeps_disk (umount_retry o tgt n).
Proof.
  induction n as [| n IH]; cbn [umount_retry].
  - disk.
  - apply runs_bind; [exact keeps_disk_trans | disk |].
    intros [| errno]; [disk |].
    apply runs_if; [| disk].
    apply runs_bind; [exact keeps_disk_trans | unfold sleep_ms; disk
                     | intros _; exact IH].
Qed.

Lemma stop_body_keeps_disk : runs keeps_disk (stop_body o).
Proof.
  unfold stop_body, stopSshd, runCleanupScript, runScript, unmountAll, sys_kill.
  compose keeps_disk_refl keeps_disk_trans
    ltac:(first [ apply umount_retry_keeps_disk
                | apply runs_steps; apply umount_retry_keeps_disk
                | disk_leaf ]).
Qed.

Lemma stop_keeps_disk (s : State) :
  mutex_ (jail s) = false ->
  exists b s', stop o s = Ret b s' /\ keeps_disk s s' /\ mutex_ (jail s') = false.
Proof.
  intros Hm. unfold stop, lock_guard. rewrite Hm.
  destruct (stop_body_keeps_disk (set_jail (with_mutex true (jail s)) s))
    as (b & s' & -> & K).
  eexists _, _. split; [reflexivity |]. split; [exact K | reflexivity].
Qed.

End KeepsDisk.

Lemma map_erase_assign (k : string) (v : Jail) (m : JailMap) :
  map_erase k (map_assign k v m) = map_erase k m.
Proof.
  induction m as [| [k' v'] m IH]; cbn [map_assign map_erase]; [reflexivity |].
  destruct (String.eqb k k') eqn:Hk; cbn [map_erase]; rewrite Hk;
    [reflexivity | rewrite IH; reflexivity].
Qed.

Lemma removeEnvironment_eq (o : Oracle) (n : string) (c : Cli) :
  pool_mutex_ (jail_pool_ c) = false ->
  JailManagerPool.removeEnvironment o n c =
    match map_find n (jails_ (jail_pool_ c)) with
    | None => Done false c
    | Some j =>
        match stop o (mkState j (cli_host c)) with
        | Ret _ s =>
            Done true
              (set_cli_host (host s)
                 (set_pool (with_jails (map_erase n (jails_ (jail_pool_ c)))
                                       (jail_pool_ c)) c))
        | Throw e s => Thrown e (store n s c)
        | Deadlock s =>
            Blocked (store n s (set_pool (with_pool_mutex true (jail_pool_ c)) c))
        end
    end.
Proof.
  intros Hm. unfold JailManagerPool.removeEnvironment, pool_lock_guard.
  rewrite Hm. unfold cbind at 1. unfold get_pool at 1.
  destruct c as [[m l mu] envs h out]. cbn in Hm. subst mu.
  cbn [jail_pool_ set_pool jails_ with_pool_mutex pool_logger_ environments
       cli_host console].
  destruct (map_find n m) as [j |] eqn:Hj; [| reflexivity].
  unfold cbind at 1. unfold call.
  cbn [jail_pool_ set_pool jails_ with_pool_mutex pool_logger_ environments
       cli_host console].
  rewrite Hj.
  destruct (stop o {| jail := j; host := h |}) as [b s | e s | s];
    [| reflexivity | reflexivity].
  unfold cbind, get_pool, set_jails, cret, store.
  cbn [jail_pool_ set_pool set_cli_host jails_ with_jails with_pool_mutex
       pool_logger_ pool_mutex_ environments cli_host console].
  rewrite map_erase_assign. reflexivity.
Qed.

(** X13. [removeEnvironment] on a name the pool does not have returns false
    and changes nothing.  On a name it has, it calls [stop()] on the manager
    and then erases the entry and returns true whatever [stop()] returned;
    the other entries stay, and no path leaves the disk: the jail's
    directory is still there. *)
Theorem removeEnvironment_stops_then_erases (o : Oracle) (n : string) (c : Cli) :
  pool_mutex_ (jail_pool_ c) = false ->
  (map_find n (jails_ (jail_pool_ c)) = None ->
   JailManagerPool.removeEnvironment o n c = Done false c) /\
  (forall j,
     map_find n (jails_ (jail_pool_ c)) = Some j ->
     mutex_ j = false ->
     keys_sorted (jails_ (jail_pool_ c)) = true ->
     exists b s' c',
       stop o (mkState j (cli_host c)) = Ret b s' /\
       JailManagerPool.removeEnvironment o n c = Done true c' /\
       cli_host c' = host s' /\
       paths (cli_host c') = paths (cli_host c) /\
       map_find n (jails_ (jail_pool_ c')) = None /\
       (forall n', n' <> n ->
          map_find n' (jails_ (jail_pool_ c')) =
            map_find n' (jails_ (jail_pool_ c))) /\
       keys_sorted (jails_ (jail_pool_ c')) = true /\
       S (length (jails_ (jail_pool_ c'))) = length (jails_ (jail_pool_ c)) /\
       console c' = console c).
Proof.
  intros Hm. split.
  - intros Hn. rewrite (removeEnvironment_eq _ _ _ Hm), Hn. reflexivity.
  - intros j Hj Hmj Hs.
    destruct (stop_keeps_disk o (mkState j (cli_host c)) Hmj)
      as (b & s' & E & K & _).
    exists b, s'. rewrite (removeEnvironment_eq _ _ _ Hm), Hj, E.
    eexists. split; [reflexivity |]. split; [reflexivity |].
    cbn [jail_pool_ set_pool set_cli_host jails_ with_jails cli_host console].
    split; [reflexivity |]. split; [exact K |].
    split; [apply map_find_erase_same; exact Hs |].
    split; [intros n' Hne; apply map_find_erase_other; exact Hne |].
    split; [apply keys_sorted_erase; exact Hs |].
    split; [apply map_erase_length; congruence | reflexivity].
Qed.

Lemma removeEnvironment_stops_then_erases_witness :
  exists b s' c',
    stop cleanup_unreadable (mkState (jail running) (cli_host dev_cli)) = Ret b s' /\
    JailManagerPool.removeEnvironment cleanup_unreadable "dev" dev_cli = Done true c' /\
    cli_host c' = host s' /\
    paths (cli_host c') = paths (cli_host dev_cli) /\
    map_find "dev" (jails_ (jail_pool_ c')) = None /\
    (forall n', n' <> "dev" ->
       map_find n' (jails_ (jail_pool_ c')) =
         map_find n' (jails_ (jail_pool_ dev_cli))) /\
    keys_sorted (jails_ (jail_pool_ c')) = true /\
    S (length (jails_ (jail_pool_ c'))) = length (jails_ (jail_pool_ dev_cli)) /\
    console c' = console dev_cli.
Proof.
  apply (proj2 (removeEnvironment_stops_then_erases cleanup_unreadable "dev" dev_cli
                  eq_refl) (jail running));
    [reflexivity | vm_compute; reflexivity | reflexivity].
Defined.

(** *** Listing *)

Lemma store_same (p : JailPtr) (j : Jail) (c : Cli) :
  map_find p (jails_ (jail_pool_ c)) = Some j ->
  store p (mkState j (cli_host c)) c = c.
Proof.
  intros H. unfold store. cbn [jail host].
  rewrite (map_assign_same _ _ _ H).
  destruct c as [[m l mu] envs h out]. reflexivity.
Qed.

Lemma call_unchanged {A} (p : JailPtr) (m : M A) (c : Cli) (j : Jail) (a : A) :
  map_find p (jails_ (jail_pool_ c)) = Some j ->
  m (mkState j (cli_host c)) = Ret a (mkState j (cli_host c)) ->
  call p m c = Done a c.
Proof.
  intros Hj Hm. unfold call. rewrite Hj, Hm, (store_same _ _ _ Hj). reflexivity.
Qed.

Lemma call_throws_unchanged {A} (p : JailPtr) (m : M A) (c : Cli) (j : Jail)
      (e : Exn) :
  map_find p (jails_ (jail_pool_ c)) = Some j ->
  m (mkState j (cli_host c)) = Throw e (mkState j (cli_host c)) ->
  call p m c = Thrown e c.
Proof.
  intros Hj Hm. unfold call. rewrite Hj, Hm, (store_same _ _ _ Hj). reflexivity.
Qed.

Lemma map_find_sorted_in (k : string) (v : Jail) (m : JailMap) :
  keys_sorted m = true -> In (k, v) m -> map_find k m = Some v.
Proof.
  induction m as [| [k' v'] m IH]; intros Hs Hin; [destruct Hin |].
  destruct (keys_sorted_tail _ _ _ Hs) as [Hm Hk'].
  cbn [map_find]. destruct Hin as [Heq | Hin].
  - injection Heq as -> ->. rewrite String.eqb_refl. reflexivity.
  - destruct (String.eqb k k') eqn:Hk; [| apply IH; assumption].
    apply String.eqb_eq in Hk. subst k'. exfalso.
    apply (string_compare_lt_neq k k); [| reflexivity].
    apply Hk'. apply in_map_iff. exists (k, v). split; [reflexivity | exact Hin].
Qed.

Lemma keys_strongly_sorted (m : JailMap) :
  keys_sorted m = true ->
  StronglySorted (fun a b => String.ltb a b = true) (map fst m).
Proof.
  induction m as [| [k v] m IH]; intros Hs; [constructor |].
  destruct (keys_sorted_tail _ _ _ Hs) as [Hm Hk].
  cbn [map fst]. constructor; [apply IH; exact Hm |].
  apply Forall_forall. intros n Hn. apply ltb_lt. apply Hk. exact Hn.
Qed.

Lemma keys_nodup (m : JailMap) : keys_sorted m = true -> NoDup (map fst m).
Proof.
  induction m as [| [k v] m IH]; intros Hs; [constructor |].
  destruct (keys_sorted_tail _ _ _ Hs) as [Hm Hk].
  cbn [map fst]. constructor; [| apply IH; exact Hm].
  intros Hin. apply (string_compare_lt_neq k k); [apply Hk; exact Hin | reflexivity].
Qed.

Lemma runtime_infos_spec (c : Cli) (sub : JailMap) :
  (forall k v, In (k, v) sub ->
     map_find k (jails_ (jail_pool_ c)) = Some v /\ mutex_ v = false) ->
  exists infos,
    JailManagerPool.runtime_infos (map fst sub) c = Done infos c /\
    Forall2 (fun kv info =>
               getRuntimeInfo (mkState (snd kv) (cli_host c)) =
                 Ret info (mkState (snd kv) (cli_host c)))
            sub infos.
Proof.
  induction sub as [| [k v] sub IH]; intros H.
  - exists []. split; [reflexivity | constructor].
  - destruct (H k v (or_introl eq_refl)) as [Hf Hm].
    destruct IH as (infos & E & F).
    { intros k' v' Hin. apply H. right. exact Hin. }
    pose proof (getRuntimeInfo_eq (mkState v (cli_host c)) Hm) as Hg.
    eexists (_ :: infos). split.
    + cbn [map fst JailManagerPool.runtime_infos]. unfold cbind at 1.
      rewrite (call_unchanged _ _ _ _ _ Hf Hg).
      unfold cbind at 1. rewrite E. reflexivity.
    + constructor; [exact Hg | exact F].
Qed.

(** X14. With the keys of the pool in order, as [std::map] keeps them:
    [listJails] returns the names in strictly increasing order, each once;
    [size] is their number; [getJail] finds exactly these names; and, when
    no manager is locked, [getAllRuntimeInfo] returns for each entry in that
    order what [getRuntimeInfo] returns on its manager.  None of them
    changes anything. *)
Theorem listJails_in_key_order (c : Cli) :
  pool_mutex_ (jail_pool_ c) = false ->
  keys_sorted (jails_ (jail_pool_ c)) = true ->
  exists names,
    JailManagerPool.listJails c = Done names c /\
    JailManagerPool.size c = Done (length names) c /\
    StronglySorted (fun a b => String.ltb a b = true) names /\
    NoDup names /\
    (forall n, In n names <-> JailManagerPool.getJail n c = Done (Some n) c) /\
    ((forall n j, map_find n (jails_ (jail_pool_ c)) = Some j -> mutex_ j = false) ->
     exists infos,
       JailManagerPool.getAllRuntimeInfo c = Done infos c /\
       Forall2 (fun kv info =>
                  getRuntimeInfo (mkState (snd kv) (cli_host c)) =
                    Ret info (mkState (snd kv) (cli_host c)))
               (jails_ (jail_pool_ c)) infos).
Proof.
  intros Hm Hs. exists (map fst (jails_ (jail_pool_ c))).
  split; [apply listJails_eq; exact Hm |].
  split; [rewrite length_map; apply size_eq; exact Hm |].
  split; [apply keys_strongly_sorted; exact Hs |].
  split; [apply keys_nodup; exact Hs |].
  split.
  - intros n. rewrite (getJail_eq _ _ Hm), map_find_in.
    destruct (map_find n (jails_ (jail_pool_ c))); split; congruence.
  - intros Hfree.
    set (cl := set_pool (with_pool_mutex true (jail_pool_ c)) c).
    destruct (runtime_infos_spec cl (jails_ (jail_pool_ c))) as (infos & E & F).
    { intros k v Hin.
      assert (Hf : map_find k (jails_ (jail_pool_ c)) = Some v)
        by (apply map_find_sorted_in; assumption).
      split; [exact Hf | exact (Hfree _ _ Hf)]. }
    exists infos. split; [| exact F].
    unfold JailManagerPool.getAllRuntimeInfo, pool_lock_guard. rewrite Hm.
    unfold cbind at 1. unfold get_pool at 1. fold cl.
    change (jails_ (jail_pool_ cl)) with (jails_ (jail_pool_ c)).
    rewrite E. unfold cl.
    destruct c as [[m l mu] envs h out]. cbn in Hm. subst mu. reflexivity.
Qed.

Lemma listJails_in_key_order_witness :
  exists names,
    JailManagerPool.listJails dev_cli = Done names dev_cli /\
    JailManagerPool.size dev_cli = Done (length names) dev_cli /\
    StronglySorted (fun a b => String.ltb a b = true) names /\
    NoDup names /\
    (forall n, In n names <-> JailManagerPool.getJail n dev_cli = Done (Some n) dev_cli) /\
    ((forall n j, map_find n (jails_ (jail_pool_ dev_cli)) = Some j ->
                  mutex_ j = false) ->
     exists infos,
       JailManagerPool.getAllRuntimeInfo dev_cli = Done infos dev_cli /\
       Forall2 (fun kv info =>
                  getRuntimeInfo (mkState (snd kv) (cli_host dev_cli)) =
                    Ret info (mkState (snd kv) (cli_host dev_cli)))
               (jails_ (jail_pool_ dev_cli)) infos).
Proof.
  apply (listJails_in_key_order dev_cli); reflexivity.
Defined.

(** ** The commands *)

Lemma cbind_done {A B} (m : Cmd A) (k : A -> Cmd B) (c c' : Cli) (a : A) :
  m c = Done a c' -> cbind m k c = k a c'.
Proof. intros H. unfold cbind. rewrite H. reflexivity. Qed.

Lemma findEnvironment_name (envs : list EnvironmentConfig) (n : string)
      (e : EnvironmentConfig) :
  findEnvironment envs n = Some e -> name e = n.
Proof.
  induction envs as [| x envs IH]; cbn [findEnvironment]; [discriminate |].
  destruct (String.eqb (name x) n) eqn:Hx; [| exact IH].
  intros H. injection H as <-. apply String.eqb_eq. exact Hx.
Qed.

(** The loop of [run] from any pool: the names the pool has keep their
    managers; every other name gets a manager built from the first
    environment of that name. *)
Lemma add_environments_spec (rest : list EnvironmentConfig) (c : Cli) :
  pool_mutex_ (jail_pool_ c) = false ->
  exists c',
    cfor_each rest
      (fun env => cbind (JailManagerPool.addEnvironment env) (fun _ => cret tt)) c =
      Done tt c' /\
    pool_mutex_ (jail_pool_ c') = false /\
    pool_logger_ (jail_pool_ c') = pool_logger_ (jail_pool_ c) /\
    environments c' = environments c /\
    cli_host c' = cli_host c /\
    console c' = console c /\
    (keys_sorted (jails_ (jail_pool_ c)) = true ->
     keys_sorted (jails_ (jail_pool_ c')) = true) /\
    forall n,
      map_find n (jails_ (jail_pool_ c')) =
        match map_find n (jails_ (jail_pool_ c)) with
        | Some j => Some j
        | None =>
            option_map (fun e => with_logger (pool_logger_ (jail_pool_ c)) (new_jail e))
                       (findEnvironment rest n)
        end.
Proof.
  revert c. induction rest as [| e rest IH]; intros c Hm.
  - exists c. cbn [cfor_each findEnvironment option_map].
    repeat split; auto. intros n. destruct (map_find n _); reflexivity.
  - cbn [cfor_each]. unfold cbind at 1. unfold cbind at 1.
    rewrite (addEnvironment_eq _ _ Hm).
    destruct (map_find (name e) (jails_ (jail_pool_ c))) as [j |] eqn:Hj.
    + unfold cret at 1.
      destruct (IH c Hm) as (c' & E & M' & L & En & Ho & Co & Ks & F).
      exists c'. split; [exact E |]. repeat (split; [assumption |]).
      intros n. rewrite F. destruct (map_find n (jails_ (jail_pool_ c))) eqn:Hn;
        [reflexivity |].
      cbn [findEnvironment]. destruct (String.eqb (name e) n) eqn:He;
        [| reflexivity].
      apply String.eqb_eq in He. subst n. congruence.
    + unfold cret at 1.
      set (c1 := set_pool _ c).
      destruct (IH c1 Hm) as (c' & E & M' & L & En & Ho & Co & Ks & F).
      exists c'. split; [exact E |]. split; [exact M' |].
      split; [exact L |]. split; [exact En |]. split; [exact Ho |].
      split; [exact Co |].
      split; [intros Hs; apply Ks; apply keys_sorted_insert; exact Hs |].
      intros n. rewrite F. unfold c1.
      cbn [jail_pool_ set_pool jails_ with_jails pool_logger_].
      cbn [findEnvironment].
      destruct (String.eqb (name e) n) eqn:He.
      * apply String.eqb_eq in He. subst n.
        rewrite map_find_insert_same, Hj. reflexivity.
      * apply String.eqb_neq in He.
        rewrite map_find_insert_other by congruence. reflexivity.
Qed.

Lemma booted_spec (envs : list EnvironmentConfig) (h : Host) :
  run_add_environments (new_cli envs h) = Done tt (booted envs h) /\
  pool_mutex_ (jail_pool_ (booted envs h)) = false /\
  environments (booted envs h) = envs /\
  cli_host (booted envs h) = h /\
  console (booted envs h) = [] /\
  keys_sorted (jails_ (jail_pool_ (booted envs h))) = true /\
  forall n,
    map_find n (jails_ (jail_pool_ (booted envs h))) =
      option_map new_jail (findEnvironment envs n).
Proof.
  unfold booted, run_add_environments.
  destruct (add_environments_spec envs (new_cli envs h) eq_refl)
    as (c' & E & M' & L & En & Ho & Co & Ks & F).
  cbn [environments new_cli] in *. rewrite E. cbn [cli_state].
  repeat (split; [solve [auto] |]).
  intros n. rewrite F. cbn [map_find].
  destruct (findEnvironment envs n); reflexivity.
Qed.

(** X15. The loop that ends [run] always returns and makes no system call
    and no output.  It leaves one manager for each name of the
    configuration, built from the first environment of that name, which is
    the one [findEnvironment] returns; every manager is STOPPED, with no
    process, no mounts and no logger. *)
Theorem run_registers_first_of_each_name (envs : list EnvironmentConfig) (h : Host) :
  run_add_environments (new_cli envs h) = Done tt (booted envs h) /\
  cli_host (booted envs h) = h /\
  console (booted envs h) = [] /\
  pool_mutex_ (jail_pool_ (booted envs h)) = false /\
  keys_sorted (jails_ (jail_pool_ (booted envs h))) = true /\
  (forall n,
     map_find n (jails_ (jail_pool_ (booted envs h))) =
       option_map new_jail (findEnvironment envs n)) /\
  (forall n j,
     map_find n (jails_ (jail_pool_ (booted envs h))) = Some j ->
     name (config_ j) = n /\ status_ j = STOPPED /\ sshd_pid_ j = -1 /\
     active_mounts_ j = [] /\ logger_ j = false /\ mutex_ j = false).
Proof.
  destruct (booted_spec envs h) as (E & M' & En & Ho & Co & Ks & F).
  repeat (split; [assumption |]).
  intros n j Hj. rewrite F in Hj.
  destruct (findEnvironment envs n) as [e |] eqn:He; [| discriminate].
  injection Hj as <-. cbn.
  split; [eapply findEnvironment_name; exact He | repeat split].
Qed.

Lemma cmdStop_stopped (o : Oracle) (n : string) (rest : list string) (c : Cli)
      (j : Jail) :
  pool_mutex_ (jail_pool_ c) = false ->
  map_find n (jails_ (jail_pool_ c)) = Some j ->
  status_ j = STOPPED ->
  cmdStop o (n :: rest) c =
    Done true (print (Cout ("Environment is already stopped" ++ endl)) c).
Proof.
  intros Hm Hj Hst. unfold cmdStop.
  rewrite (cbind_done _ _ _ _ _ (getJail_eq _ _ Hm)), Hj.
  rewrite (cbind_done _ _ _ _ _ (call_unchanged _ getStatus _ j (status_ j) Hj eq_refl)).
  rewrite Hst. reflexivity.
Qed.

Lemma cmd_unknown (n : string) (c : Cli) (k : option JailPtr -> Cmd bool) :
  pool_mutex_ (jail_pool_ c) = false ->
  map_find n (jails_ (jail_pool_ c)) = None ->
  cbind (JailManagerPool.getJail n) k c = k None c.
Proof.
  intros Hm Hj. rewrite (cbind_done _ _ _ _ _ (getJail_eq _ _ Hm)), Hj.
  reflexivity.
Qed.

Lemma cmdStop_unknown (o : Oracle) (n : string) (rest : list string) (c : Cli) :
  pool_mutex_ (jail_pool_ c) = false ->
  map_find n (jails_ (jail_pool_ c)) = None ->
  cmdStop o (n :: rest) c =
    Done false
      (print (Cerr ("Error: Environment '" ++ n ++ "' does not exist" ++ endl)) c).
Proof.
  intros Hm Hj. unfold cmdStop. rewrite (cmd_unknown _ _ _ Hm Hj). reflexivity.
Qed.

(** X16. In a process that has just run [run], [cmdStop] stops nothing,
    whatever the jail's processes and mounts on the host: for a configured
    name it prints that the environment is already stopped and returns
    true, for any other name it reports that the environment does not
    exist; either way no system call is made and no manager changes. *)
Theorem cmdStop_in_new_process (o : Oracle) (envs : list EnvironmentConfig)
        (h : Host) (n : string) (rest : list string) :
  cmdStop o (n :: rest) (booted envs h) =
    match findEnvironment envs n with
    | Some _ =>
        Done true
          (print (Cout ("Environment is already stopped" ++ endl)) (booted envs h))
    | None =>
        Done false
          (print (Cerr ("Error: Environment '" ++ n ++ "' does not exist" ++ endl))
                 (booted envs h))
    end /\
  cli_host (cli_state (cmdStop o (n :: rest) (booted envs h))) = h /\
  jail_pool_ (cli_state (cmdStop o (n :: rest) (booted envs h))) =
    jail_pool_ (booted envs h).
Proof.
  destruct (booted_spec envs h) as (_ & Hm & _ & Ho & _ & _ & F).
  assert (E : cmdStop o (n :: rest) (booted envs h) =
              match findEnvironment envs n with
              | Some _ =>
                  Done true
                    (print (Cout ("Environment is already stopped" ++ endl))
                           (booted envs h))
              | None =>
                  Done false
                    (print (Cerr ("Error: Environment '" ++ n
                                  ++ "' does not exist" ++ endl))
                           (booted envs h))
              end).
  { specialize (F n). destruct (findEnvironment envs n) as [e |].
    - apply cmdStop_stopped with (j := new_jail e); [exact Hm | exact F |].
      reflexivity.
    - apply cmdStop_unknown; assumption. }
  split; [exact E |]. rewrite E.
  destruct (findEnvironment envs n); cbn [cli_state print cli_host jail_pool_];
    split; auto.
Qed.

Lemma execute_not_running_eq (o : Oracle) (command : string) (s : State) :
  status_ (jail s) <> RUNNING ->
  execute o command s =
    Throw (mkExn JailError "Jail is not running, cannot execute command") s.
Proof.
  intros Hst. unfold execute, bind, get_jail.
  rewrite (JailStatus_eqb_neq _ _ Hst). reflexivity.
Qed.

(** X17. [cmdExec] does not catch what [execute] throws.  On a manager that
    is not RUNNING, and so on every configured name in a process that has
    just run [run], it prints the command and then leaves by the exception
    "Jail is not running, cannot execute command"; nothing is forked. *)
Theorem cmdExec_not_running_throws (o : Oracle) (n a : string)
        (rest : list string) (c : Cli) (j : Jail) :
  pool_mutex_ (jail_pool_ c) = false ->
  map_find n (jails_ (jail_pool_ c)) = Some j ->
  status_ j <> RUNNING ->
  cmdExec o (n :: a :: rest) c =
    Thrown (mkExn JailError "Jail is not running, cannot execute command")
           (print (Cout ("Executing: " ++ join_args true (a :: rest) ++ endl)) c).
Proof.
  intros Hm Hj Hst. unfold cmdExec. cbv zeta.
  rewrite (cbind_done _ _ _ _ _ (getJail_eq _ _ Hm)), Hj.
  unfold cbind at 1. unfold cout at 1.
  unfold cbind at 1.
  rewrite (call_throws_unchanged n _ _ j
             (mkExn JailError "Jail is not running, cannot execute command")).
  - reflexivity.
  - exact Hj.
  - apply execute_not_running_eq. exact Hst.
Qed.

Lemma cmdExec_not_running_throws_witness :
  cmdExec calm ["dev"; "ls"; "-l"] (booted [dev_config] bare_host) =
    Thrown (mkExn JailError "Jail is not running, cannot execute command")
           (print (Cout ("Executing: " ++ join_args true ["ls"; "-l"] ++ endl))
                  (booted [dev_config] bare_host)).
Proof.
  apply (cmdExec_not_running_throws calm "dev" "ls" ["-l"]
           (booted [dev_config] bare_host) (new_jail dev_config));
    [reflexivity | reflexivity | discriminate].
Defined.

(** X18. [cmdRemove], once the answer is [y] or [Y], never returns:
    [destroy()] blocks on the manager's mutex.  At that point the three
    prompts are printed, the host is as it was (nothing is unmounted or
    deleted) and the pool still has the manager.  With any other answer it
    prints "Cancelled" and returns true. *)
Theorem cmdRemove_confirmed_never_returns (o : Oracle) (n : string)
        (rest : list string) (confirm : ascii) (c : Cli) (j : Jail) :
  pool_mutex_ (jail_pool_ c) = false ->
  map_find n (jails_ (jail_pool_ c)) = Some j ->
  mutex_ j = false ->
  let asked :=
    print (Cout "Confirm deletion? (Enter y to confirm): ")
      (print (Cout ("Warning: This will permanently delete environment '"
                    ++ n ++ "'" ++ endl)) c) in
  (confirm = "y"%char \/ confirm = "Y"%char ->
   exists c',
     cmdRemove o (n :: rest) confirm c = Blocked c' /\
     console c' =
       (console asked ++ [Cout ("Deleting environment: " ++ n ++ endl)])%list /\
     cli_host c' = cli_host c /\
     map_find n (jails_ (jail_pool_ c')) = Some (with_mutex true j)) /\
  (confirm <> "y"%char -> confirm <> "Y"%char ->
   cmdRemove o (n :: rest) confirm c =
     Done true (print (Cout ("Cancelled" ++ endl)) asked)).
Proof.
  intros Hm Hj Hmj asked.
  assert (Hhead : forall k : Cmd bool,
            cmdRemove o (n :: rest) confirm c =
              (if negb (Ascii.eqb confirm "y") && negb (Ascii.eqb confirm "Y")
               then (cout ("Cancelled" ++ endl) ;; cret true)%cmd
               else
                 (cout ("Deleting environment: " ++ n ++ endl) ;;
                  ok <- call n (destroy o) ;;
                  if negb ok then
                    cerr ("Error: Failed to delete environment" ++ endl) ;;
                    cret false
                  else
                    _ <- JailManagerPool.removeEnvironment o n ;;
                    cout ("Environment deleted" ++ endl) ;;
                    cret true)%cmd) asked).
  { intros _. unfold cmdRemove.
    rewrite (cbind_done _ _ _ _ _ (getJail_eq _ _ Hm)), Hj. reflexivity. }
  rewrite (Hhead (cret true)). split.
  - intros Hc.
    assert (Hb : negb (Ascii.eqb confirm "y") && negb (Ascii.eqb confirm "Y") = false).
    { destruct Hc as [-> | ->]; reflexivity. }
    rewrite Hb. unfold cbind at 1. unfold cout at 1.
    unfold cbind at 1. unfold call.
    unfold asked. cbn [jail_pool_ print jails_ cli_host]. rewrite Hj.
    rewrite (destroy_blocks_eq o (mkState j (cli_host c)) Hmj).
    eexists. split; [reflexivity |].
    cbn [console store set_cli_host set_pool print jail_pool_ jails_ with_jails
         cli_host host set_jail jail].
    split; [reflexivity |]. split; [reflexivity |].
    rewrite map_find_assign, String.eqb_refl, Hj. reflexivity.
  - intros H1 H2.
    apply Ascii.eqb_neq in H1, H2. rewrite H1, H2. reflexivity.
Qed.

Lemma cmdRemove_confirmed_never_returns_witness :
  exists c',
    cmdRemove calm ["dev"] "y" dev_cli = Blocked c' /\
    cli_host c' = cli_host dev_cli /\
    map_find "dev" (jails_ (jail_pool_ c')) = Some (with_mutex true (jail running)).
Proof.
  destruct (cmdRemove_confirmed_never_returns calm "dev" [] "y" dev_cli (jail running)
              eq_refl eq_refl) as [H _]; [vm_compute; reflexivity |].
  destruct (H (or_introl eq_refl)) as (c' & E & _ & Hh & Hf).
  exists c'. split; [exact E |]. split; [exact Hh | exact Hf].
Defined.

Lemma jail_exists_cases (o : Oracle) (s : State) :
  (exists e, jail_exists o s = Throw e s) \/
  jail_exists o s = Ret (mem_path (jail_path_ (jail s)) (paths (host s))) s.
Proof.
  unfold jail_exists, bind, get_jail, fs_exists.
  destruct (exists_fails o _); [left; eexists; reflexivity | right; reflexivity].
Qed.

Lemma map_find_store (p n : string) (s : State) (c : Cli) :
  map_find n (jails_ (jail_pool_ (store p s c))) =
    if String.eqb n p
    then option_map (fun _ => jail s) (map_find p (jails_ (jail_pool_ c)))
    else map_find n (jails_ (jail_pool_ c)).
Proof. unfold store. cbn. apply map_find_assign. Qed.

(** X19. [cmdCreate] in a process that has just run [run]: for a name the
    configuration does not have it reports that and makes no system call;
    for a configured name whose jail directory exists it reports that the
    environment already exists and does not call [create()]; and the error
    "Cannot create jail manager" is never printed, whatever the arguments
    and whatever [create()] does. *)
Theorem cmdCreate_in_new_process (o : Oracle) (envs : list EnvironmentConfig)
        (h : Host) :
  (forall n rest,
     findEnvironment envs n = None ->
     cmdCreate o (n :: rest) (booted envs h) =
       Done false
         (print (Cerr ("Please add environment definition to configuration file"
                       ++ endl))
            (print (Cerr ("Error: Environment '" ++ n
                          ++ "' not found in configuration" ++ endl))
                   (booted envs h)))) /\
  (forall n rest e,
     findEnvironment envs n = Some e ->
     exists_fails o (jail_path_ (new_jail e)) = false ->
     mem_path (jail_path_ (new_jail e)) (paths h) = true ->
     cmdCreate o (n :: rest) (booted envs h) =
       Done false
         (print (Cerr ("Error: Environment '" ++ n ++ "' already exists" ++ endl))
                (booted envs h))) /\
  (forall args,
     ~ In (Cerr ("Error: Cannot create jail manager" ++ endl))
          (console (cli_state (cmdCreate o args (booted envs h))))).
Proof.
  destruct (booted_spec envs h) as (_ & Hm & En & Ho & Co & _ & F).
  set (c := booted envs h) in *.
  split; [| split].
  - intros n rest He. unfold cmdCreate.
    specialize (F n). rewrite He in F. cbn [option_map] in F.
    rewrite (cmd_unknown _ _ _ Hm F).
    unfold cbind at 1. unfold cret at 1.
    unfold cbind at 1. unfold get_cli at 1. rewrite En, He. reflexivity.
  - intros n rest e He Hex Hmem. unfold cmdCreate.
    specialize (F n). rewrite He in F. cbn [option_map] in F.
    rewrite (cbind_done _ _ _ _ _ (getJail_eq _ _ Hm)), F.
    assert (Hx : jail_exists o (mkState (new_jail e) (cli_host c)) =
                 Ret true (mkState (new_jail e) (cli_host c))).
    { unfold jail_exists, bind, get_jail, fs_exists. cbn [jail host].
      rewrite Hex, Ho, Hmem. reflexivity. }
    rewrite (cbind_done _ _ _ _ _
               (call_unchanged n (jail_exists o) c (new_jail e) true F Hx)).
    reflexivity.
  - intros [| n rest].
    + cbn [cmdCreate]. unfold cbind, cerr, cret.
      cbn [cli_state console print]. rewrite Co. cbn [app In].
      intros [H | [H | []]]; discriminate H.
    + unfold cmdCreate.
      rewrite (cbind_done _ _ _ _ _ (getJail_eq _ _ Hm)).
      pose proof (F n) as Fn.
      destruct (findEnvironment envs n) as [e |] eqn:He; cbn [option_map] in Fn;
        rewrite Fn.
      * unfold cbind at 1. unfold call at 1. rewrite Fn.
        destruct (jail_exists_cases o (mkState (new_jail e) (cli_host c)))
          as [(x & ->) | ->].
        { cbn [cli_state store console set_cli_host set_pool].
          rewrite Co. intros []. }
        rewrite (store_same _ _ _ Fn).
        destruct (mem_path _ _).
        { unfold cbind, cerr, cret. cbn [cli_state console print].
          rewrite Co. cbn [app In]. intros [H | []]; discriminate H. }
        unfold cbind at 1. unfold get_cli at 1. rewrite En, He.
        rewrite (cbind_done _ _ _ _ _ (getJail_eq _ _ Hm)), Fn.
        unfold cbind at 1. unfold cout at 1.
        unfold cbind at 1. unfold call at 1.
        cbn [jail_pool_ print jails_ cli_host]. rewrite Fn.
        destruct (create o _) as [ok s | x s | s].
        { destruct ok; cbn [negb].
          - unfold cbind at 1. unfold call at 1.
            rewrite map_find_store, String.eqb_refl.
            cbn [jail_pool_ print jails_]. rewrite Fn. cbn [option_map].
            unfold getPath, bind, get_jail, ret. cbn [jail].
            unfold cbind, cout, cret.
            cbn [cli_state console print store set_cli_host set_pool].
            rewrite Co. cbn [app In]. intros [H | [H | []]]; discriminate H.
          - unfold cbind, cerr, cret.
            cbn [cli_state console print store set_cli_host set_pool].
            rewrite Co. cbn [app In]. intros [H | [H | []]]; discriminate H. }
        { cbn [cli_state console print store set_cli_host set_pool].
          rewrite Co. cbn [app In]. intros [H | []]; discriminate H. }
        { cbn [cli_state console print store set_cli_host set_pool].
          rewrite Co. cbn [app In]. intros [H | []]; discriminate H. }
      * unfold cbind at 1. unfold cret at 1.
        unfold cbind at 1. unfold get_cli at 1. rewrite En, He.
        unfold cbind, cerr, cret. cbn [cli_state console print].
        rewrite Co. cbn [app In]. intros [H | [H | []]]; discriminate H.
Qed.

Lemma cmdCreate_in_new_process_witness :
  cmdCreate calm ["dev"] (booted [dev_config] created_host) =
    Done false
      (print (Cerr ("Error: Environment '" ++ "dev" ++ "' already exists" ++ endl))
             (booted [dev_config] created_host)).
Proof.
  apply (proj1 (proj2 (cmdCreate_in_new_process calm [dev_config] created_host))
           "dev" [] dev_config);
    [reflexivity | reflexivity | vm_compute; reflexivity].
Defined.

(** X20. [cmdRestart] in a process that has just run [run] stops nothing:
    for a configured name it prints that the environment is already
    stopped, sleeps for a second and goes on as [cmdStart]; for any other
    name it fails after the message of [cmdStop]. *)
Theorem cmdRestart_in_new_process (o : Oracle) (envs : list EnvironmentConfig)
        (h : Host) (n : string) (rest : list string) :
  let said :=
    print (Cout ("Restarting environment: " ++ n ++ endl)) (booted envs h) in
  cmdRestart o (n :: rest) (booted envs h) =
    match findEnvironment envs n with
    | Some _ =>
        cmdStart o (n :: rest)
          (set_cli_host (add_event (EvSleepMs 1000) h)
             (print (Cout ("Environment is already stopped" ++ endl)) said))
    | None =>
        Done false
          (print (Cerr ("Error: Environment '" ++ n ++ "' does not exist" ++ endl))
                 said)
    end.
Proof.
  intros said.
  destruct (booted_spec envs h) as (_ & Hm & _ & Ho & _ & _ & F).
  unfold cmdRestart. unfold cbind at 1. unfold cout at 1. fold said.
  specialize (F n).
  destruct (findEnvironment envs n) as [e |]; cbn [option_map] in F.
  - rewrite (cbind_done _ _ _ _ _
               (cmdStop_stopped o n rest said (new_jail e) Hm F eq_refl)).
    cbn [negb]. unfold cbind at 1. unfold sleep_one_second at 1.
    cbn [cli_host print said]. unfold said at 1. cbn [cli_host print].
    rewrite Ho. reflexivity.
  - rewrite (cbind_done _ _ _ _ _ (cmdStop_unknown o n rest said Hm F)).
    reflexivity.
Qed.

(** *** [setLogger] on the pool *)

Lemma set_logger_loop (b : bool) (ns : list string) (c : Cli) :
  (forall n, In n ns -> map_find n (jails_ (jail_pool_ c)) <> None) ->
  exists c',
    cfor_each ns (fun n => call n (setLogger b)) c = Done tt c' /\
    pool_logger_ (jail_pool_ c') = pool_logger_ (jail_pool_ c) /\
    pool_mutex_ (jail_pool_ c') = pool_mutex_ (jail_pool_ c) /\
    map fst (jails_ (jail_pool_ c')) = map fst (jails_ (jail_pool_ c)) /\
    cli_host c' = cli_host c /\ console c' = console c /\
    environments c' = environments c /\
    forall n,
      (In n ns ->
       map_find n (jails_ (jail_pool_ c')) =
         option_map (with_logger b) (map_find n (jails_ (jail_pool_ c)))) /\
      (~ In n ns ->
       map_find n (jails_ (jail_pool_ c')) = map_find n (jails_ (jail_pool_ c))).
Proof.
  revert c. induction ns as [| n ns IH]; intros c Hall.
  - exists c. cbn [cfor_each]. repeat split; auto. intros [].
  - cbn [cfor_each]. unfold cbind at 1. unfold call at 1.
    destruct (map_find n (jails_ (jail_pool_ c))) as [j |] eqn:Hj;
      [| exfalso; apply (Hall n); [left; reflexivity | exact Hj]].
    unfold setLogger, modify_jail. cbn [jail set_jail host].
    set (c1 := store n _ c).
    assert (F1 : forall x, map_find x (jails_ (jail_pool_ c1)) =
                           if String.eqb x n then Some (with_logger b j)
                           else map_find x (jails_ (jail_pool_ c))).
    { intros x. unfold c1. rewrite map_find_store. cbn [jail].
      rewrite Hj. reflexivity. }
    destruct (IH c1) as (c' & E & L & Mu & K & Ho & Co & En & F).
    { intros x Hx. rewrite F1. destruct (String.eqb x n); [discriminate |].
      apply Hall. right. exact Hx. }
    exists c'. split; [exact E |].
    split; [rewrite L; reflexivity |]. split; [rewrite Mu; reflexivity |].
    split; [rewrite K; unfold c1, store; cbn; apply map_assign_keys |].
    split; [rewrite Ho; reflexivity |]. split; [rewrite Co; reflexivity |].
    split; [rewrite En; reflexivity |].
    intros x. destruct (F x) as [Fin Fout]. split.
    + intros Hx. destruct (in_dec string_dec x ns) as [Hi | Hni].
      * rewrite (Fin Hi), F1. destruct (String.eqb x n) eqn:Hxn; [| reflexivity].
        apply String.eqb_eq in Hxn. subst x. rewrite Hj. reflexivity.
      * rewrite (Fout Hni), F1. destruct Hx as [<- | Hx]; [| contradiction].
        rewrite String.eqb_refl, Hj. reflexivity.
    + intros Hx. rewrite Fout by (intros Hi; apply Hx; right; exact Hi).
      rewrite F1. destruct (String.eqb x n) eqn:Hxn; [| reflexivity].
      apply String.eqb_eq in Hxn. subst x. exfalso. apply Hx. left. reflexivity.
Qed.

(** X21. [setLogger] on the pool, which takes no lock, always returns; it
    sets the pool's logger and the logger of every manager the pool has, and
    changes nothing else of them, so that managers added before and after
    the call log alike. *)
Theorem pool_setLogger_reaches_every_manager (logger : bool) (c : Cli) :
  exists c',
    JailManagerPool.setLogger logger c = Done tt c' /\
    pool_logger_ (jail_pool_ c') = logger /\
    pool_mutex_ (jail_pool_ c') = pool_mutex_ (jail_pool_ c) /\
    map fst (jails_ (jail_pool_ c')) = map fst (jails_ (jail_pool_ c)) /\
    cli_host c' = cli_host c /\ console c' = console c /\
    forall n,
      map_find n (jails_ (jail_pool_ c')) =
        option_map (with_logger logger) (map_find n (jails_ (jail_pool_ c))).
Proof.
  unfold JailManagerPool.setLogger.
  unfold cbind at 1. unfold set_pool_logger at 1.
  unfold cbind at 1. unfold get_pool at 1.
  set (c0 := set_pool (with_pool_logger logger (jail_pool_ c)) c).
  destruct (set_logger_loop logger (map fst (jails_ (jail_pool_ c0))) c0)
    as (c' & E & L & Mu & K & Ho & Co & _ & F).
  { intros n Hn. apply map_find_in. exact Hn. }
  exists c'. split; [exact E |]. split; [rewrite L; reflexivity |].
  split; [rewrite Mu; reflexivity |]. split; [rewrite K; reflexivity |].
  split; [rewrite Ho; reflexivity |]. split; [rewrite Co; reflexivity |].
  intros n. destruct (F n) as [Fin Fout].
  change (jails_ (jail_pool_ c0)) with (jails_ (jail_pool_ c)) in *.
  destruct (map_find n (jails_ (jail_pool_ c))) as [j |] eqn:Hj.
  - rewrite Fin; [reflexivity |]. apply map_find_in. congruence.
  - rewrite Fout; [reflexivity |]. rewrite map_find_in. intros H. apply H.
    exact Hj.
Qed.

(** *** [cmdStart] *)

Lemma start_returns (o : Oracle) (s : State) :
  mutex_ (jail s) = false ->
  exists b s', start o s = Ret b s' /\ mutex_ (jail s') = false.
Proof.
  intros Hm. pose proof (start_returns_status o s (conj I Hm)) as H.
  destruct (start o s) as [b s' | e s' | s']; [| contradiction | contradiction].
  exists b, s'. split; [reflexivity | apply H].
Qed.

(** X22. [cmdStart] reports what [start()] returns.  On a manager that is
    RUNNING it prints that and does not call [start()].  Otherwise it calls
    [start()] once, on the host as it is; it returns its result, leaves the
    manager and the host as [start()] left them, and prints the port and the
    listen address of the configuration after a success and one error line
    after a failure. *)
Theorem cmdStart_reports_start (o : Oracle) (n : string) (rest : list string)
        (c : Cli) (j : Jail) :
  pool_mutex_ (jail_pool_ c) = false ->
  map_find n (jails_ (jail_pool_ c)) = Some j ->
  mutex_ j = false ->
  (status_ j = RUNNING ->
   cmdStart o (n :: rest) c =
     Done true (print (Cout ("Environment is already running" ++ endl)) c)) /\
  (status_ j <> RUNNING ->
   exists b s' c',
     start o (mkState j (cli_host c)) = Ret b s' /\
     cmdStart o (n :: rest) c = Done b c' /\
     cli_host c' = host s' /\
     map_find n (jails_ (jail_pool_ c')) = Some (jail s') /\
     console c' =
       (console c ++
        Cout ("Starting environment: " ++ n ++ endl) ::
        (if b then
           [Cout ("Environment started" ++ endl);
            Cout ("  SSH Port: "
                  ++ to_string (port (ssh (config_ (jail s')))) ++ endl);
            Cout ("  Access Address: "
                  ++ listen_address (ssh (config_ (jail s'))) ++ endl);
            Cout endl;
            Cout ("Connection command: agi ssh " ++ n ++ endl)]
         else [Cerr ("Error: Failed to start environment" ++ endl)]))%list).
Proof.
  intros Hm Hj Hmj.
  assert (Hg0 : call n getStatus c = Done (status_ j) c)
    by (apply (call_unchanged _ getStatus _ j (status_ j) Hj eq_refl)).
  split.
  - intros Hst. unfold cmdStart.
    rewrite (cbind_done _ _ _ _ _ (getJail_eq _ _ Hm)), Hj.
    rewrite (cbind_done _ _ _ _ _ Hg0), Hst. reflexivity.
  - intros Hst. unfold cmdStart.
    rewrite (cbind_done _ _ _ _ _ (getJail_eq _ _ Hm)), Hj.
    rewrite (cbind_done _ _ _ _ _ Hg0).
    rewrite (JailStatus_eqb_neq _ _ Hst).
    destruct (start_returns o (mkState j (cli_host c)) Hmj) as (b & s' & E & Hm').
    exists b, s'.
    unfold cbind at 1. unfold cout at 1.
    unfold cbind at 1. unfold call at 1.
    cbn [jail_pool_ print jails_ cli_host]. rewrite Hj, E.
    set (c2 := store n s' _).
    assert (F2 : map_find n (jails_ (jail_pool_ c2)) = Some (jail s')).
    { unfold c2. rewrite map_find_store, String.eqb_refl.
      cbn [jail_pool_ print jails_]. rewrite Hj. reflexivity. }
    destruct b; cbn [negb].
    + assert (Hh : cli_host c2 = host s') by reflexivity.
      assert (Hg : getRuntimeInfo (mkState (jail s') (cli_host c2)) = _)
        by (apply getRuntimeInfo_eq; exact Hm').
      rewrite (cbind_done _ _ _ _ _ (call_unchanged _ _ _ _ _ F2 Hg)).
      eexists. split; [reflexivity |]. split; [reflexivity |].
      cbn [cli_state cbind cout cret print cli_host jail_pool_ console
           info_ssh_port info_ip_address jail].
      split; [exact Hh |]. split; [exact F2 |].
      unfold c2, store. cbn [console set_cli_host set_pool print].
      rewrite <- !app_assoc. reflexivity.
    + eexists. split; [reflexivity |]. split; [reflexivity |].
      cbn [cli_state cbind cerr cret print cli_host jail_pool_ console].
      split; [reflexivity |]. split; [exact F2 |].
      unfold c2, store. cbn [console set_cli_host set_pool print].
      rewrite <- !app_assoc. reflexivity.
Qed.

Lemma cmdStart_reports_start_witness :
  exists b s' c',
    start calm (mkState (new_jail dev_config) created_host) = Ret b s' /\
    cmdStart calm ["dev"] (booted [dev_config] created_host) = Done b c' /\
    cli_host c' = host s' /\
    map_find "dev" (jails_ (jail_pool_ c')) = Some (jail s').
Proof.
  destruct (cmdStart_reports_start calm "dev" [] (booted [dev_config] created_host)
              (new_jail dev_config) eq_refl eq_refl eq_refl) as [_ H].
  destruct H as (b & s' & c' & E & E' & Hh & Hf & _); [discriminate |].
  exists b, s', c'. repeat split; assumption.
Defined.
